(* ===== verification/_CoqProject ===== *)
-Q . S2P
Prelude.v
GoSort.v
GoStrings.v
Calendar.v
Schedule.v
CronParse.v
NextRun.v
NextRunSpec.v
UTF8.v
Telegram.v
Agent.v
Disk.v
SmartData.v
LlmDesc.v
Server.v
Transport.v
WinInstall.v
Tgsmctl.v
