(* ===== verification/Prelude.v ===== *)
(** * A verification of smart-control: schedules, agents and collector

    smart-control (Go) collects S.M.A.R.T. disk reports on a cron schedule
    and relays them to a Telegram chat.  Its parts and how they interact:
    - the cron library ([src/internal/cron/cron.go]) parses a five-field
      schedule string ([NewCronScheduleFromString], [NewCronSchedule],
      [parseCronField]) and computes the next firing minute
      ([CronSchedule.NextRun], with [contains] and [dayMatches]);
    - two report runners own a schedule: the Linux agent's
      [workerSendReports] ([src/cmd/tgsmctl/worker-send.go]) and the
      Windows service's [smartService.Execute] ([src/win/service.go]); each
      wakes up, builds a report of the disks ([src/internal/disk/smartctl.go],
      [src/win/smartctl.go]: [smartctl --scan-open], [smartctl -a], the
      mount table) and uploads it ([src/win/sendreport.go]);
    - the collector ([src/cmd/tgsmctl]) receives reports through
      [handleSmartReport] ([src/internal/api/http.go]), turns them into chat
      messages in [workerRecvReports] ([worker-recv.go]), keeping the last
      device state in a sanitised file and asking an LLM for an assessment
      ([src/internal/llmdesc/llm.go]), and sends the messages, cut into
      parts, with [sendMessage] ([src/internal/api/tele.go]);
    - the Windows service starts in [main] ([src/win/main.go]), which
      unpacks the embedded smartmontools with [copyDir]
      ([src/win/savefs.go]) and reads [settings.ini].

    Files (in dependency order), each a component:
    - [Prelude]: the [go_scope] notation [let?] for Go's
      [if err != nil { return err }], 64-bit [int] bounds, integer ranges,
      the tactics [zcase], [zhyps] and [decide_goal], the hint database
      [cron], list lemmas on sorted sets, and [forallb_zrange] for proofs
      by reflection over an integer range.
    - [GoSort], [GoStrings], [Calendar]: the Go library the code calls,
      modelled from its documented behaviour on the inputs the program
      gives it: [sort.Search] by well-founded recursion (proved equal to a
      linear lower bound, and the [SortedSearch] interface the evaluator is
      proved against), [strings.Split/Join/Fields/TrimSpace/Cut/HasPrefix/
      EqualFold], [strconv.Atoi/Itoa], and [time.Date] day arithmetic.
    - [Schedule]: the [CronSchedule] record, [contains], [dayMatches], the
      well-formedness of a schedule (its type invariant) and [cron_match],
      the abstract meaning of a firing minute.
    - [CronParse]: every branch of [parseCronField] and the two
      constructors, errors as values of [field_error] and [schedule_error].
    - [NextRun]: the [for] loop of [NextRun] block by block
      ([NextRun_body]), run by [NextRun_loop] on a fuel budget (a panic on
      [c.minutes[0]] is an outcome), and as a step relation.
    - [NextRunSpec]: the contract [is_next] and the loop invariant; the
      refinement theorems (soundness for any fuel, completeness with the
      budget [next_run_fuel]) and non-termination on schedules that never
      fire.
    - [UTF8]: Go's [[]rune(s)] and [string(rs)], as the runtime's
      [stringtoslicerune]/[decoderune] and [slicerunetostring]/[encoderune]
      compute them bit by bit on bytes ([Z] in [0..255]).
    - [Telegram]: [strconv.ParseInt], the cutting loop of [sendMessage]
      on the runes of the message bytes, the parts encoded back to bytes,
      the sends and [TgSendWorker]; send outcomes are an input list.
    - [Agent]: the two runners as functions of the sequence of [select]
      cases, proved against the class [NextRunner] (implemented by
      [NextRun]), and the agent's schedule configuration.
    - [Disk]: the scan parser, the mount-table parser and the report
      assembly; command outputs are inputs.
    - [SmartData]: the report as the collector decodes it.
    - [LlmDesc]: the LLM describer, its prompts byte for byte, the request
      [Describe] sends and its use of the answer (an input).
    - [Server]: the HTTP handler, the receiver with its state files (a
      [gmap] from paths to devices), file-name sanitising and
      [filepath.Clean]/[Join].
    - [Transport]: [sendReport] and the collector's routing, composed so
      that the agent's upload meets the collector's handler.
    - [WinInstall]: [copyDir]/[copyFile] over the embedded tree with
      fallible disk operations, [logEvent]/[logErrorf], [main], and the
      service's [collectAndSaveSMARTData], composed with Disk.v and
      Transport.v.
    - [Tgsmctl]: [main] of [cmd/tgsmctl]: the environment, [MODE], the
      workers started with their arguments and the fatal exits.

    What the theorems show, by group (claims C1-C39):
    - C1-C6: [NextRun] returns exactly the first firing minute after
      [now] (refinement of [is_next]), does so within
      [2 * days + 1] passes, never panics when the minute set is non-empty,
      runs forever when nothing matches, and cannot return with an empty
      minute set; its membership tests ([contains] by binary search,
      [dayMatches]) decide the cron rule.
    - C7-C13: the parser's results are sorted, in bounds and exactly the
      values of the field's parts; errors are never partial; printing a set
      and parsing it back is the identity; steps, ranges and out-of-range
      values.
    - C14-C20: the cutting loop ends with parts of 1 to 3000 runes; the
      parts sent are whole characters and rebuild the message's bytes
      (invalid ones as U+FFFD); chat ids round-trip; a rejected chat id
      does not stop the sends, which go to 0 or the nearest int64 bound;
      sends stop at the first failure; every part sent is 1 to 12000
      bytes.  UTF8.v proves the rune conversions round-trip and stay in
      range, which these rest on.
    - C21-C26: both runners report at the schedule's instants, none missed
      or repeated, the service reports its status correctly, both hang on a
      schedule that never fires, and a double space in the schedule string
      is accepted and gives such a schedule.
    - C27-C29: the disk scan, the report with one entry per scanned device
      in order, and the mount points in table order (whose prefix test is
      the source of the prefix clash).
    - C30-C35: sanitising is equivalent to one replacing pass and confines
      the state file; messages, the LLM crash and the double request; the
      invariant of the collector's state files over any run, each named
      after the host of the report its device came in.
    - C36-C39: the agent/collector protocol agreement; [copyDir] unpacks
      every file of a well-formed embedded tree, touches nothing outside
      the destination whatever fails, and reports the first failure;
      [main]'s outcome from the settings; and, composed end to end, a
      Windows service without a configured host name has every upload
      refused by the collector.

    Fuel: [NextRun_loop] takes a pass budget; [next_run_fuel now T] =
    [2 * (days from now to T) + 1] passes suffice to reach a firing
    instant [T]: the invariant's measure shows that each day between [now]
    and [T] costs at most two passes of the loop.  [split_message] runs
    [length t + 1] passes, enough since each pass removes a rune; the
    [range] loop over a string runs [length s] passes, enough since each
    consumes one to four bytes.  The rune round trip is checked by
    [vm_compute] on every rune from U+0080 to U+10FFFF outside the
    surrogates (about 1.1 million, some 30 seconds).

    Not modelled: time zones, seconds below the minute and the monotonic
    clock; Unicode white space in [TrimSpace] and [Fields] (the inputs are
    ASCII); JSON encoding (inputs with a round-trip hypothesis where
    needed), network I/O, the Telegram bot and the LLM client (their
    results are inputs); goroutine scheduling (each worker is a function
    of its event sequence); signal handling, loggers and wait groups; the
    log texts of [collectAndSaveSMARTData] and of the disk scan; the Linux
    agent's [api.SendReport] and the package [internal/smartdata], which
    are not in the sources (the latter has the fields of
    [win/smartdata.go]). *)

From stdpp Require Export base list gmap sets strings sorting.
From Stdlib Require Export ZArith Lia.

Declare Scope go_scope.
Delimit Scope go_scope with go.

(** A Go call returning [(v, err)] is modelled as a value of [E + A]:
    [inl e] is the error, [inr v] the value.  [let?] is Go's
    [if err != nil { return nil, err }]. *)
Notation "'let?' x ':=' m 'in' k" :=
  (match m with inl e => inl e | inr x => k end)
  (at level 10, x name, m at level 100, k at level 200) : go_scope.

Open Scope Z_scope.

(** ** Go's [int] (64-bit platforms) *)
Definition go_int_min : Z := - 2 ^ 63.
Definition go_int_max : Z := 2 ^ 63 - 1.

(** ** Integer ranges: [for i := lo; i <= hi; i++ { r = append(r, i) }] *)
Fixpoint zrange_from (lo : Z) (n : nat) : list Z :=
  match n with
  | O => []
  | S n' => lo :: zrange_from (lo + 1) n'
  end.

Definition zrange (lo hi : Z) : list Z := zrange_from lo (Z.to_nat (hi - lo + 1)).

(** Strictly increasing lists of integers: the representation invariant of
    every value set of a cron schedule. *)
Abbreviation strictly_sorted := (StronglySorted Z.lt).

Definition in_bounds (lo hi : Z) (l : list Z) : Prop := Forall (fun x => lo <= x <= hi) l.

Create HintDb cron discriminated.

(** Close a decidable proposition about closed terms by evaluation. *)
Ltac decide_goal := apply (bool_decide_unpack _); vm_compute; exact I.

(** [zcase] splits on every integer comparison test left in the goal and in
    the hypotheses, replacing each by the proposition it decides. *)
Ltac zcase :=
  repeat match goal with
  | |- context [Z.ltb ?a ?b] => destruct (Z.ltb_spec a b)
  | |- context [Z.leb ?a ?b] => destruct (Z.leb_spec a b)
  | |- context [Z.eqb ?a ?b] => destruct (Z.eqb_spec a b)
  | H : context [Z.ltb ?a ?b] |- _ => destruct (Z.ltb_spec a b)
  | H : context [Z.leb ?a ?b] |- _ => destruct (Z.leb_spec a b)
  | H : context [Z.eqb ?a ?b] |- _ => destruct (Z.eqb_spec a b)
  end.

(** [zhyps] turns the boolean integer tests assumed true or false in the
    hypotheses into the propositions they decide, splitting conjunctions. *)
Ltac zhyps :=
  repeat match goal with
  | H : _ && _ = true |- _ => apply andb_true_iff in H as [? ?]
  | H : negb _ = true |- _ => apply negb_true_iff in H
  | H : _ && _ = false |- _ => apply andb_false_iff in H as [? | ?]
  | H : (_ <? _) = true |- _ => apply Z.ltb_lt in H
  | H : (_ <? _) = false |- _ => apply Z.ltb_ge in H
  | H : (_ <=? _) = true |- _ => apply Z.leb_le in H
  | H : (_ <=? _) = false |- _ => apply Z.leb_gt in H
  end.

Lemma elem_of_zrange_from lo n x :
  x ∈ zrange_from lo n <-> lo <= x < lo + Z.of_nat n.
Proof.
  revert lo. induction n as [|n IH]; intros lo; simpl.
  - rewrite elem_of_nil. lia.
  - rewrite elem_of_cons, IH. lia.
Qed.

Lemma elem_of_zrange lo hi x : x ∈ zrange lo hi <-> lo <= x <= hi.
Proof. unfold zrange. rewrite elem_of_zrange_from. lia. Qed.

Lemma length_zrange_from lo n : length (zrange_from lo n) = n.
Proof. revert lo. induction n as [|n IH]; intros lo; simpl; auto. Qed.

Lemma length_zrange lo hi : length (zrange lo hi) = Z.to_nat (hi - lo + 1).
Proof. apply length_zrange_from. Qed.

Lemma lookup_zrange_from lo n i :
  (i < n)%nat -> zrange_from lo n !! i = Some (lo + Z.of_nat i).
Proof.
  revert lo i. induction n as [|n IH]; intros lo [|i] Hi; simpl; try lia.
  - f_equal. lia.
  - rewrite IH by lia. f_equal. lia.
Qed.

Lemma zrange_from_sorted lo n : strictly_sorted (zrange_from lo n).
Proof.
  revert lo. induction n as [|n IH]; intros lo; simpl; constructor; auto.
  apply Forall_forall. intros x Hx. rewrite elem_of_zrange_from in Hx. lia.
Qed.

Lemma zrange_sorted lo hi : strictly_sorted (zrange lo hi).
Proof. apply zrange_from_sorted. Qed.

Lemma zrange_in_bounds lo hi : in_bounds lo hi (zrange lo hi).
Proof.
  apply Forall_forall. intros x Hx. rewrite elem_of_zrange in Hx. exact Hx.
Qed.

Lemma strictly_sorted_NoDup l : strictly_sorted l -> NoDup l.
Proof.
  induction 1 as [|a l _ IH Hall]; constructor; auto.
  rewrite Forall_forall in Hall. intros Hin.
  specialize (Hall a Hin). lia.
Qed.

#[export] Instance Zlt_antisymm : AntiSymm eq Z.lt.
Proof. intros x y ? ?. lia. Qed.

#[export] Instance Zle_antisymm : AntiSymm eq Z.le.
Proof. intros x y ? ?. lia. Qed.

(** Two strictly sorted lists with the same elements are equal: a value set
    is determined by its members. *)
Lemma strictly_sorted_ext l1 l2 :
  strictly_sorted l1 -> strictly_sorted l2 -> (forall x, x ∈ l1 <-> x ∈ l2) -> l1 = l2.
Proof.
  intros H1 H2 Hx. apply (StronglySorted_unique Z.lt); auto.
  - apply NoDup_Permutation; auto using strictly_sorted_NoDup.
Qed.

(** Proof by reflection over a range: a boolean test that [vm_compute]
    finds true on every element of [zrange lo hi] holds on the interval. *)
Lemma forallb_zrange (f : Z -> bool) lo hi :
  forallb f (zrange lo hi) = true -> forall x, lo <= x <= hi -> f x = true.
Proof.
  rewrite forallb_forall. intros H x Hx. apply H, list_elem_of_In, elem_of_zrange, Hx.
Qed.

(** A property of a list cut into pieces [ps] with separators [ds]
    between them holds of every piece. *)
Lemma Forall_concat_zip_app {A} (P : A -> Prop) (ps ds : list (list A)) :
  length ds = length ps -> Forall P (concat (zip_with app ps ds)) -> Forall (Forall P) ps.
Proof.
  revert ds. induction ps as [|p ps IH]; intros [|d ds] Hl H; cbn [length] in Hl; try lia; [constructor|].
  cbn [zip_with concat] in H. rewrite !Forall_app in H. destruct H as [[Hp _] H].
  constructor; [exact Hp|]. apply (IH ds); [lia|exact H].
Qed.

(** A list related pointwise, in order, to its image. *)
Lemma Forall2_map_r {A B} (P : A -> B -> Prop) (f : A -> B) l :
  Forall (fun x => P x (f x)) l -> Forall2 P l (map f l).
Proof. induction 1; constructor; auto. Qed.

Lemma in_bounds_elem lo hi l x : in_bounds lo hi l -> x ∈ l -> lo <= x <= hi.
Proof. unfold in_bounds. rewrite Forall_forall. intros H Hx. apply H, Hx. Qed.

Lemma strictly_sorted_head_min x l y :
  strictly_sorted (x :: l) -> y ∈ l -> x < y.
Proof.
  intros [_ Hall]%StronglySorted_inv Hy. rewrite Forall_forall in Hall.
  apply Hall, Hy.
Qed.

Lemma nth_elem_of {A} (l : list A) k d : (k < length l)%nat -> nth k l d ∈ l.
Proof. intros Hk. apply list_elem_of_In, nth_In, Hk. Qed.

#[export] Hint Resolve zrange_sorted zrange_in_bounds strictly_sorted_NoDup : cron.

(** A strictly sorted list inside [[lo, hi]] has at most [hi - lo + 1]
    elements, and exactly that many only when it is the whole range. *)
Lemma strictly_sorted_full_range l lo hi :
  strictly_sorted l -> in_bounds lo hi l -> length l = Z.to_nat (hi - lo + 1) -> l = zrange lo hi.
Proof.
  intros Hs. revert lo. induction Hs as [|x l Hs IH Hall]; intros lo Hb Hlen.
  - unfold zrange. simpl in Hlen. destruct (Z.to_nat (hi - lo + 1)) eqn:E; [reflexivity|discriminate].
  - inversion Hb as [|? ? Hx Hb']; subst. rewrite Forall_forall in Hall.
    assert (Hb'' : in_bounds (x + 1) hi l).
    { apply Forall_forall. intros z Hz. specialize (Hall z Hz).
      pose proof (in_bounds_elem lo hi l z Hb' Hz). lia. }
    assert (Hle : (length l <= Z.to_nat (hi - (x + 1) + 1))%nat).
    { clear -Hs Hb''. revert x Hb''. induction Hs as [|y l Hs IH Hall]; intros x Hb; simpl; [lia|].
      inversion Hb as [|? ? Hy Hb']; subst.
      assert (in_bounds (y + 1) hi l).
      { apply Forall_forall. intros z Hz. rewrite Forall_forall in Hall. specialize (Hall z Hz).
        pose proof (in_bounds_elem _ _ l z Hb' Hz). lia. }
      specialize (IH y ltac:(assumption)). lia. }
    simpl in Hlen. assert (x = lo) as -> by lia.
    unfold zrange. replace (Z.to_nat (hi - lo + 1)) with (S (Z.to_nat (hi - (lo + 1) + 1))) by lia.
    simpl. f_equal. apply IH; auto. lia.
Qed.
