(* ===== verification/GoSort.v ===== *)
(** * GoSort: the Go library search and sort routines the cron code calls

    [sort.Search] / [sort.SearchInts] (binary search for the first index whose
    element is [>= x]) is modelled as the loop of the Go library, by
    well-founded recursion on [j - i]; it is proved equal to a linear
    reference [lower_bound] on sorted input.  [SortedSearch] is the interface
    the schedule evaluator is proved against; [search_ints] implements it.
    [sort.Ints] is modelled by stdpp's merge sort. *)

From S2P Require Import Prelude.
From Equations Require Import Equations.

(** ** [sort.Search(n, f)]
<<
  i, j := 0, n
  for i < j {
      h := int(uint(i+j) >> 1)
      if !f(h) { i = h + 1 } else { j = h }
  }
  return i
>> *)
Equations? search_loop (f : nat -> bool) (i j : nat) : nat by wf (j - i)%nat lt :=
  search_loop f i j with lt_dec i j := {
    | left Hlt with f ((i + j) / 2)%nat := {
        | false := search_loop f (S ((i + j) / 2)) j
        | true := search_loop f i ((i + j) / 2) }
    | right _ := i }.
Proof.
  all: change (Nat.divmod (i + j) 1 0 1).1 with ((i + j) / 2)%nat;
    pose proof (Nat.div_mod_eq (i + j) 2); pose proof (Nat.mod_upper_bound (i + j) 2); lia.
Qed.

Definition search (n : nat) (f : nat -> bool) : nat := search_loop f 0 n.

(** [sort.SearchInts(a, x) = Search(len(a), func(i int) bool { return a[i] >= x })] *)
Definition search_ints (a : list Z) (x : Z) : nat :=
  search (length a) (fun i => bool_decide (x <= nth i a 0)).

(** ** Reference: the number of leading elements smaller than [x] *)
Fixpoint lower_bound (a : list Z) (x : Z) : nat :=
  match a with
  | [] => O
  | y :: a' => if y <? x then S (lower_bound a' x) else O
  end.

(** ** The interface the evaluator relies on *)
Class SortedSearch (srch : list Z -> Z -> nat) : Prop :=
  sorted_search_lower_bound : forall a x, Sorted Z.le a -> srch a x = lower_bound a x.

(** ** Proofs *)

Lemma mid_bounds i j : (i < j)%nat -> (i <= (i + j) / 2 < j)%nat.
Proof.
  intros. pose proof (Nat.div_mod_eq (i + j) 2); pose proof (Nat.mod_upper_bound (i + j) 2); lia.
Qed.

(** The loop returns the boundary between the [false] and the [true] part of
    a monotone predicate on [[i, j)]. *)
Lemma search_loop_spec f i j :
  (i <= j)%nat ->
  (forall k1 k2, (i <= k1 <= k2)%nat -> (k2 < j)%nat -> f k1 = true -> f k2 = true) ->
  let r := search_loop f i j in
  (i <= r <= j)%nat /\
  (forall k, (i <= k < r)%nat -> f k = false) /\
  (forall k, (r <= k < j)%nat -> f k = true).
Proof.
  funelim (search_loop f i j); intros Hij Hmono; cbn zeta.
  - assert (i = j) as <- by lia. split; [lia|]. split; intros; lia.
  - pose proof (mid_bounds i j Hlt) as Hm.
    destruct H as (H1 & H2 & H3); [lia| intros; eapply Hmono; eauto; lia |].
    split; [lia|]. split; [exact H2|].
    intros k Hk. destruct (decide (k < (i + j) / 2)%nat); [apply H3; lia|].
    eapply Hmono; [|lia|exact Heq]. lia.
  - pose proof (mid_bounds i j Hlt) as Hm.
    destruct H as (H1 & H2 & H3); [lia| intros; eapply Hmono; eauto; lia |].
    split; [lia|]. split; [|exact H3].
    intros k Hk. destruct (decide (k <= (i + j) / 2)%nat); [|apply H2; lia].
    destruct (f k) eqn:Hfk; [|reflexivity].
    assert (f ((i + j) / 2)%nat = true) by (eapply Hmono; eauto; lia). congruence.
Qed.

Lemma lower_bound_le_length a x : (lower_bound a x <= length a)%nat.
Proof. induction a as [|y a IH]; simpl; [lia|]. zcase; simpl; lia. Qed.

Lemma lower_bound_below a x k : (k < lower_bound a x)%nat -> nth k a 0 < x.
Proof.
  revert k. induction a as [|y a IH]; intros k; simpl; [lia|].
  zcase; [|lia]. destruct k as [|k]; [auto|]. intros Hk. apply IH. lia.
Qed.

Lemma sorted_nth_mono a k1 k2 :
  Sorted Z.le a -> (k1 <= k2)%nat -> (k2 < length a)%nat -> nth k1 a 0 <= nth k2 a 0.
Proof.
  intros Hs%Sorted_StronglySorted; [|intros ???; lia].
  revert k1 k2. induction Hs as [|y a Hs IH Hall]; intros k1 k2 Hk Hlen; simpl in *; [lia|].
  rewrite Forall_forall in Hall.
  destruct k1 as [|k1], k2 as [|k2]; try lia.
  - apply Hall, nth_elem_of. lia.
  - apply IH; lia.
Qed.

Lemma lower_bound_above a x k :
  Sorted Z.le a -> (lower_bound a x <= k < length a)%nat -> x <= nth k a 0.
Proof.
  intros Hs Hk. revert k Hk. induction a as [|y a IH]; intros k Hk; simpl in *; [lia|].
  inversion Hs as [|? ? Hs' Hhd]; subst.
  destruct (Z.ltb_spec y x) as [Hyx|Hyx].
  - destruct k as [|k]; [lia|]. apply IH; auto. lia.
  - etrans; [exact Hyx|]. apply (sorted_nth_mono (y :: a) 0 k); simpl; auto; lia.
Qed.

(** Equivalence of the optimised routine with the reference: Go's binary
    search returns the linear lower bound on sorted input. *)
Lemma search_ints_lower_bound a x :
  Sorted Z.le a -> search_ints a x = lower_bound a x.
Proof.
  intros Hs. unfold search_ints, search.
  destruct (search_loop_spec (fun i => bool_decide (x <= nth i a 0)) 0 (length a))
    as (Hr & Hlo & Hhi); [lia| |].
  { intros k1 k2 Hk Hk2 Hf. apply bool_decide_eq_true in Hf. apply bool_decide_eq_true.
    etrans; [exact Hf|]. apply sorted_nth_mono; auto; lia. }
  set (r := search_loop _ 0 (length a)) in *.
  pose proof (lower_bound_le_length a x).
  destruct (Nat.lt_total r (lower_bound a x)) as [Hlt|[Heq|Hgt]]; [|exact Heq|].
  - specialize (Hhi r ltac:(lia)). apply bool_decide_eq_true in Hhi.
    pose proof (lower_bound_below a x r Hlt). lia.
  - specialize (Hlo (lower_bound a x) ltac:(lia)). apply bool_decide_eq_false in Hlo.
    pose proof (lower_bound_above a x (lower_bound a x) Hs ltac:(lia)). lia.
Qed.

#[export] Instance search_ints_sorted_search : SortedSearch search_ints.
Proof. intros a x. apply search_ints_lower_bound. Qed.

(** ** What a client of [SortedSearch] learns about the index *)
Lemma lower_bound_found a x :
  strictly_sorted a -> (lower_bound a x < length a)%nat ->
  let y := nth (lower_bound a x) a 0 in
  y ∈ a /\ x <= y /\ forall z, z ∈ a -> x <= z -> y <= z.
Proof.
  induction 1 as [|y a Hs IH Hall]; simpl; [lia|].
  rewrite Forall_forall in Hall.
  zcase; simpl; intros Hlen.
  - destruct IH as (Hin & Hle & Hmin); [lia|].
    split; [now apply list_elem_of_further|]. split; [exact Hle|].
    intros z [->|Hz]%elem_of_cons Hxz; [lia|]. auto.
  - split; [apply list_elem_of_here|]. split; [lia|].
    intros z [->|Hz]%elem_of_cons _; [lia|]. specialize (Hall z Hz). lia.
Qed.

Lemma lower_bound_none a x :
  (length a <= lower_bound a x)%nat -> forall z, z ∈ a -> z < x.
Proof.
  induction a as [|y a IH]; simpl; intros Hlen z Hz; [apply elem_of_nil in Hz; done|].
  revert Hlen; zcase; intros Hlen; [|lia].
  apply elem_of_cons in Hz as [->|Hz]; [lia|]. apply IH; auto. lia.
Qed.

Lemma strictly_sorted_le a : strictly_sorted a -> Sorted Z.le a.
Proof.
  intros Hs. apply StronglySorted_Sorted.
  induction Hs; constructor; auto. eapply Forall_impl; eauto. intros; simpl; lia.
Qed.

#[export] Hint Resolve strictly_sorted_le : cron.

(** ** [sort.Ints] *)
Definition sort_ints (a : list Z) : list Z := merge_sort Z.le a.

Lemma sort_ints_sorted a : StronglySorted Z.le (sort_ints a).
Proof. apply StronglySorted_merge_sort; [apply _|intros x y; lia]. Qed.

Lemma sort_ints_perm a : sort_ints a ≡ₚ a.
Proof. apply merge_sort_Permutation. Qed.
