(* ===== verification/GoStrings.v ===== *)
(** * GoStrings: the Go string functions the program calls

    A Go [string] is a sequence of bytes: it is modelled as a Rocq [string]
    (a list of 8-bit [ascii]).  This file models, from their documented
    behaviour on the inputs the program gives them, [strings.Split],
    [strings.Join], [strings.Contains] with a one-byte needle,
    [strings.TrimSpace], [strings.Trim] with a one-byte cut set,
    [strings.Fields], [strings.Cut], [strings.HasPrefix],
    [strings.EqualFold] (ASCII), [strconv.Atoi] and [strconv.Itoa], and
    proves the facts the components use: splitting and joining are
    inverse, [Atoi] accepts exactly an optional sign and decimal digits
    denoting a 64-bit value and inverts decimal printing, and trimming or
    splitting text without separators leaves it whole. *)

From S2P Require Import Prelude.
From Stdlib Require Import Ascii String.

(** [strings.Split(s, sep)] for a one-byte [sep]: the pieces between the
    occurrences of [sep]; the empty string splits into one empty piece. *)
Fixpoint split (sep : ascii) (s : string) : list string :=
  match s with
  | EmptyString => [EmptyString]
  | String a s' =>
      if Ascii.eqb a sep then EmptyString :: split sep s'
      else match split sep s' with
           | [] => [String a EmptyString]
           | w :: ws => String a w :: ws
           end
  end.

(** [strings.Join(elems, sep)], used to state the round trip. *)
Fixpoint join (sep : ascii) (l : list string) : string :=
  match l with
  | [] => EmptyString
  | [w] => w
  | w :: ws => String.append w (String sep (join sep ws))
  end.

(** [strings.Contains(s, string(c))] *)
Definition contains_byte (s : string) (c : ascii) : bool :=
  existsb (Ascii.eqb c) (list_ascii_of_string s).

(** Go's [asciiSpace] table: '\t', '\n', '\v', '\f', '\r', ' '. *)
Definition is_ascii_space (a : ascii) : bool :=
  match nat_of_ascii a with
  | 9 | 10 | 11 | 12 | 13 | 32 => true
  | _ => false
  end%nat.

(** [strings.TrimLeftFunc] and [strings.TrimRightFunc] on bytes. *)
Fixpoint trim_left (p : ascii -> bool) (s : string) : string :=
  match s with
  | String a s' => if p a then trim_left p s' else s
  | EmptyString => EmptyString
  end.

Fixpoint trim_right (p : ascii -> bool) (s : string) : string :=
  match s with
  | EmptyString => EmptyString
  | String a s' =>
      match trim_right p s' with
      | EmptyString => if p a then EmptyString else String a EmptyString
      | r => String a r
      end
  end.

(** [strings.TrimSpace] on the ASCII white space of Go's table; Unicode
    spaces of more than one byte (U+0085, U+00A0, U+2000...) are not
    trimmed by this model. *)
Definition trim_space (s : string) : string := trim_right is_ascii_space (trim_left is_ascii_space s).

(** [strings.Trim(s, cutset)] with a cutset of one byte. *)
Definition trim_byte (c : ascii) (s : string) : string := trim_right (Ascii.eqb c) (trim_left (Ascii.eqb c) s).

(** [strings.EqualFold] on ASCII: equality up to the case of letters
    (Unicode's other simple foldings, such as U+017F to 's', are not
    modelled). *)
Definition lower (a : ascii) : ascii :=
  let n := nat_of_ascii a in if (65 <=? n)%nat && (n <=? 90)%nat then ascii_of_nat (n + 32) else a.

Definition equal_fold (s t : string) : bool :=
  String.eqb (string_of_list_ascii (map lower (list_ascii_of_string s)))
             (string_of_list_ascii (map lower (list_ascii_of_string t))).

Definition digit_value (a : ascii) : option Z :=
  let n := nat_of_ascii a in
  if (48 <=? n)%nat && (n <=? 57)%nat then Some (Z.of_nat n - 48) else None.

(** Value of a non-empty string of decimal digits; [None] on an empty
    string or on any other byte. *)
Fixpoint digits_acc (acc : Z) (s : string) : option Z :=
  match s with
  | EmptyString => Some acc
  | String a s' =>
      match digit_value a with
      | Some d => digits_acc (acc * 10 + d) s'
      | None => None
      end
  end.

Definition digits_value (s : string) : option Z :=
  match s with
  | EmptyString => None
  | _ => digits_acc 0 s
  end.

(** [strconv.Atoi]: an optional sign then decimal digits, the value within
    Go's 64-bit [int]; a syntax or range error is [None]. *)
Definition atoi (s : string) : option Z :=
  let '(neg, ds) :=
    match s with
    | String a r => if Ascii.eqb a "-"%char then (true, r)
                    else if Ascii.eqb a "+"%char then (false, r) else (false, s)
    | EmptyString => (false, s)
    end in
  match digits_value ds with
  | Some n =>
      let v := if neg then - n else n in
      if (go_int_min <=? v) && (v <=? go_int_max) then Some v else None
  | None => None
  end.

(** Decimal printing of a natural number ([strconv.Itoa] on [n >= 0]),
    used to state the round trip of the parser. *)
Fixpoint digits_of_pos (fuel : nat) (n : Z) (acc : string) : string :=
  match fuel with
  | O => acc
  | S f =>
      let acc' := String (ascii_of_nat (Z.to_nat (n mod 10) + 48)) acc in
      if n <? 10 then acc' else digits_of_pos f (n / 10) acc'
  end.

Definition itoa (n : Z) : string := digits_of_pos (S (Z.to_nat (Z.log2 (Z.max n 1)))) n EmptyString.

(** Pieces between the bytes satisfying [p] (the shape of [split]). *)
Fixpoint split_by (p : ascii -> bool) (s : string) : list string :=
  match s with
  | EmptyString => [EmptyString]
  | String a s' =>
      if p a then EmptyString :: split_by p s'
      else match split_by p s' with
           | [] => [String a EmptyString]
           | w :: ws => String a w :: ws
           end
  end.

(** [strings.Fields] on ASCII input: the maximal runs of bytes that are
    not white space (input with bytes above 127 is split by Go on Unicode
    white space, which this model does not decode). *)
Definition fields (s : string) : list string :=
  filter (fun w => negb (String.eqb w EmptyString)) (split_by is_ascii_space s).

(** [before, _, _ := strings.Cut(s, string(c))]: the bytes before the first
    [c], or all of [s]. *)
Fixpoint cut_before (c : ascii) (s : string) : string :=
  match s with
  | EmptyString => EmptyString
  | String a r => if Ascii.eqb a c then EmptyString else String a (cut_before c r)
  end.

(** [strings.Trim(s, cutset)] *)
Definition trim_set (cutset : list ascii) (s : string) : string :=
  let inset a := existsb (Ascii.eqb a) cutset in trim_right inset (trim_left inset s).

(** [strings.HasPrefix(s, prefix)] *)
Fixpoint has_prefix (s prefix : string) : bool :=
  match prefix, s with
  | EmptyString, _ => true
  | String a p', String b s' => Ascii.eqb a b && has_prefix s' p'
  | String _ _, EmptyString => false
  end.

(** ** Lemmas *)

Definition is_digit (a : ascii) : bool := (48 <=? nat_of_ascii a)%nat && (nat_of_ascii a <=? 57)%nat.

Lemma split_not_nil sep s : split sep s <> [].
Proof. induction s as [|a s IH]; simpl; [discriminate|]. destruct (Ascii.eqb a sep); [discriminate|].
  destruct (split sep s); discriminate. Qed.

(** Joining the pieces of a split gives back the string. *)
Lemma join_split sep s : join sep (split sep s) = s.
Proof.
  induction s as [|a s IH]; simpl; [reflexivity|].
  destruct (Ascii.eqb_spec a sep) as [->|Hne].
  - pose proof (split_not_nil sep s). destruct (split sep s) as [|w ws] eqn:E; [congruence|].
    simpl in *. rewrite <- IH. destruct ws; reflexivity.
  - pose proof (split_not_nil sep s). destruct (split sep s) as [|w ws] eqn:E; [congruence|].
    simpl in *. rewrite <- IH. destruct ws; reflexivity.
Qed.

Lemma split_no_sep sep s : contains_byte s sep = false -> split sep s = [s].
Proof.
  induction s as [|a s IH]; simpl; [reflexivity|].
  unfold contains_byte in *. simpl. intros [Ha Hs]%orb_false_iff.
  rewrite Ascii.eqb_sym in Ha. rewrite Ha, IH by exact Hs. reflexivity.
Qed.

Lemma split_app_sep sep w s :
  contains_byte w sep = false -> split sep (String.append w (String sep s)) = w :: split sep s.
Proof.
  induction w as [|a w IH]; simpl; intros Hw.
  - rewrite Ascii.eqb_refl. reflexivity.
  - unfold contains_byte in Hw. simpl in Hw. apply orb_false_iff in Hw as [Ha Hw].
    rewrite Ascii.eqb_sym in Ha. rewrite Ha, IH by exact Hw. reflexivity.
Qed.

(** Splitting a join of separator-free pieces gives back the pieces. *)
Lemma split_join sep l :
  l <> [] -> Forall (fun w => contains_byte w sep = false) l -> split sep (join sep l) = l.
Proof.
  induction l as [|w [|w' ws] IH]; intros Hne Hall; [congruence| |].
  - inversion Hall; subst. apply split_no_sep; assumption.
  - inversion Hall as [|? ? Hw Hrest]; subst. change (join sep (w :: w' :: ws))
      with (String.append w (String sep (join sep (w' :: ws)))).
    rewrite split_app_sep by exact Hw. f_equal. apply IH; [discriminate|exact Hrest].
Qed.

Lemma digit_value_of_nat d : 0 <= d <= 9 -> digit_value (ascii_of_nat (Z.to_nat d + 48)) = Some d.
Proof.
  intros Hd. unfold digit_value. rewrite nat_ascii_embedding by lia.
  replace ((48 <=? Z.to_nat d + 48)%nat && (Z.to_nat d + 48 <=? 57)%nat) with true.
  - f_equal. lia.
  - symmetry. apply andb_true_iff. split; apply Nat.leb_le; lia.
Qed.

Lemma digits_of_pos_spec f n :
  0 <= n < 10 ^ Z.of_nat f ->
  exists k : nat, forall a acc,
    digits_acc a (digits_of_pos f n acc) = digits_acc (a * 10 ^ Z.of_nat k + n) acc.
Proof.
  revert n. induction f as [|f IH]; intros n Hn.
  { simpl in Hn. assert (n = 0) as -> by lia. exists 0%nat. intros a acc. simpl. f_equal. lia. }
  pose proof (Z.mod_pos_bound n 10 ltac:(lia)) as Hm. pose proof (Z.div_mod n 10 ltac:(lia)).
  cbn [digits_of_pos]. destruct (Z.ltb_spec n 10) as [Hlt|Hge].
  - exists 1%nat. intros a acc. cbn [digits_acc]. rewrite digit_value_of_nat by lia.
    rewrite Z.mod_small by lia. f_equal.
  - destruct (IH (n / 10)) as [k Hk].
    { split; [apply Z.div_pos; lia|]. rewrite Nat2Z.inj_succ, Z.pow_succ_r in Hn by lia.
      apply Z.div_lt_upper_bound; lia. }
    exists (S k). intros a acc. rewrite Hk. cbn [digits_acc]. rewrite digit_value_of_nat by lia.
    f_equal. rewrite Nat2Z.inj_succ, Z.pow_succ_r by lia. lia.
Qed.

Lemma is_digit_of_nat d : 0 <= d <= 9 -> is_digit (ascii_of_nat (Z.to_nat d + 48)) = true.
Proof.
  intros Hd. unfold is_digit. rewrite nat_ascii_embedding by lia.
  apply andb_true_iff. split; apply Nat.leb_le; lia.
Qed.

Definition all_digits (s : string) : Prop := Forall (fun a => is_digit a = true) (list_ascii_of_string s).

Lemma digits_of_pos_digits f n acc :
  0 <= n -> all_digits acc -> all_digits (digits_of_pos f n acc) /\ (f <> O -> digits_of_pos f n acc <> EmptyString).
Proof.
  revert n acc. induction f as [|f IH]; intros n acc Hn Hacc; cbn [digits_of_pos]; [split; [exact Hacc|congruence]|].
  pose proof (Z.mod_pos_bound n 10 ltac:(lia)).
  assert (Hd : all_digits (String (ascii_of_nat (Z.to_nat (n mod 10) + 48)) acc)).
  { constructor; [apply is_digit_of_nat; lia|exact Hacc]. }
  destruct (n <? 10); [split; [exact Hd|discriminate]|].
  destruct (IH (n / 10) _ ltac:(apply Z.div_pos; lia) Hd) as [Hall Hne]. split; [exact Hall|].
  destruct f; [cbn; discriminate|]. intros _. apply Hne. discriminate.
Qed.

Lemma contains_byte_digits s c : all_digits s -> is_digit c = false -> contains_byte s c = false.
Proof.
  unfold all_digits, contains_byte. induction s as [|a s IH]; simpl; [reflexivity|].
  intros Hall Hc. inversion Hall as [|? ? Ha Hs]; subst. apply orb_false_iff. split; [|auto].
  destruct (Ascii.eqb_spec c a) as [->|]; [congruence|reflexivity].
Qed.

Lemma itoa_fuel n : 0 <= n -> n < 10 ^ Z.of_nat (S (Z.to_nat (Z.log2 (Z.max n 1)))).
Proof.
  intros Hn. pose proof (Z.log2_spec (Z.max n 1) ltac:(lia)) as [_ Hlt].
  pose proof (Z.log2_nonneg (Z.max n 1)).
  rewrite Nat2Z.inj_succ, Z2Nat.id by lia.
  pose proof (Z.pow_le_mono_l 2 10 (Z.succ (Z.log2 (Z.max n 1))) ltac:(lia)). lia.
Qed.

Lemma itoa_digits n : 0 <= n -> all_digits (itoa n) /\ itoa n <> EmptyString.
Proof.
  intros Hn. destruct (digits_of_pos_digits (S (Z.to_nat (Z.log2 (Z.max n 1)))) n EmptyString Hn
                         ltac:(constructor)) as [H1 H2].
  split; [exact H1|apply H2; discriminate].
Qed.

Lemma itoa_value n : 0 <= n -> digits_acc 0 (itoa n) = Some n.
Proof.
  intros Hn. destruct (digits_of_pos_spec (S (Z.to_nat (Z.log2 (Z.max n 1)))) n) as [k Hk].
  { split; [lia|apply itoa_fuel; lia]. }
  unfold itoa. rewrite Hk. simpl. f_equal.
Qed.

Lemma itoa_first n : 0 <= n -> exists a r, itoa n = String a r /\ is_digit a = true.
Proof.
  intros Hn. destruct (itoa_digits n Hn) as [Hd Hne]. destruct (itoa n) as [|a r]; [congruence|].
  inversion Hd; subst. eauto.
Qed.

Lemma is_digit_sign a : is_digit a = true -> Ascii.eqb a "-"%char = false /\ Ascii.eqb a "+"%char = false.
Proof.
  intros Ha. split; destruct (Ascii.eqb_spec a "-"%char) as [->|]; try destruct (Ascii.eqb_spec a "+"%char) as [->|];
    try reflexivity; discriminate.
Qed.

(** Round trip: [strconv.Atoi] reads back the decimal printing of every
    non-negative 64-bit integer. *)
Lemma atoi_itoa n : 0 <= n <= go_int_max -> atoi (itoa n) = Some n.
Proof.
  intros Hn. pose proof (itoa_value n ltac:(lia)) as Hv.
  destruct (itoa_first n ltac:(lia)) as (a & r & E & Ha). unfold atoi. rewrite E in *.
  destruct (is_digit_sign a Ha) as [-> ->].
  unfold digits_value. rewrite Hv. unfold go_int_min, go_int_max in *.
  replace ((- 2 ^ 63 <=? n) && (n <=? 2 ^ 63 - 1)) with true; [reflexivity|].
  symmetry. apply andb_true_iff. split; apply Z.leb_le; lia.
Qed.

(** ** Splitting at a class of bytes, trimming and cutting *)

(** No byte of [s] satisfies [p]. *)
Definition none_of (p : ascii -> bool) (s : string) : Prop :=
  Forall (fun a => p a = false) (list_ascii_of_string s).

#[export] Instance none_of_dec p s : Decision (none_of p s).
Proof. unfold none_of. apply _. Defined.

Lemma none_of_cons p a s : none_of p (String a s) <-> p a = false /\ none_of p s.
Proof. unfold none_of. simpl. by rewrite Forall_cons. Qed.

Lemma none_of_app p u v : none_of p (String.append u v) <-> none_of p u /\ none_of p v.
Proof.
  induction u as [|a u IH]; [unfold none_of; simpl; intuition constructor|].
  change (String.append (String a u) v) with (String a (String.append u v)).
  rewrite !none_of_cons, IH. tauto.
Qed.

Lemma none_of_join p c l : p c = false -> Forall (none_of p) l -> none_of p (join c l).
Proof.
  intros Hc. induction l as [|w [|w' ws] IH]; intros Hl; [constructor|by inversion Hl|].
  inversion Hl as [|? ? Hw Hr]; subst. change (join c (w :: w' :: ws)) with (String.append w (String c (join c (w' :: ws)))).
  apply none_of_app. split; [exact Hw|]. apply none_of_cons. auto.
Qed.

Lemma split_by_none p s : none_of p s -> split_by p s = [s].
Proof.
  induction s as [|a s IH]; simpl; [reflexivity|]. intros [Ha Hs]%none_of_cons.
  rewrite Ha, IH by exact Hs. reflexivity.
Qed.

Lemma split_by_app p w c s :
  none_of p w -> p c = true -> split_by p (String.append w (String c s)) = w :: split_by p s.
Proof.
  intros Hw Hc. induction w as [|a w IH]; simpl; [by rewrite Hc|].
  apply none_of_cons in Hw as [Ha Hw]. rewrite Ha, IH by exact Hw. reflexivity.
Qed.

Lemma split_by_join p c l :
  p c = true -> l <> [] -> Forall (none_of p) l -> split_by p (join c l) = l.
Proof.
  intros Hc. induction l as [|w [|w' ws] IH]; intros Hne Hall; [congruence| |].
  - inversion Hall; subst. by apply split_by_none.
  - inversion Hall as [|? ? Hw Hrest]; subst.
    change (join c (w :: w' :: ws)) with (String.append w (String c (join c (w' :: ws)))).
    rewrite split_by_app by assumption. f_equal. apply IH; [discriminate|exact Hrest].
Qed.

Lemma filter_all {A} (P : A -> Prop) `{!forall x, Decision (P x)} l : Forall P l -> filter P l = l.
Proof. induction 1; [done|]. rewrite filter_cons, decide_True by done. by f_equal. Qed.

(** [strings.Fields] reads back the words of a line joined by single spaces. *)
Lemma fields_join l :
  Forall (fun w => w <> EmptyString /\ none_of is_ascii_space w) l -> fields (join " "%char l) = l.
Proof.
  intros Hl. destruct l as [|w ws]; [reflexivity|]. unfold fields.
  rewrite split_by_join by (reflexivity || discriminate || (eapply Forall_impl; [exact Hl|]; simpl; tauto)).
  apply filter_all. eapply Forall_impl; [exact Hl|]. intros x [Hx _].
  destruct x; [congruence|exact I].
Qed.

Lemma cut_before_app c s r :
  none_of (fun a => Ascii.eqb a c) s -> cut_before c (String.append s (String c r)) = s.
Proof.
  induction s as [|a s IH]; simpl; [by rewrite Ascii.eqb_refl|].
  intros [-> Hs]%none_of_cons. by rewrite IH.
Qed.

Lemma trim_left_none p s : none_of p s -> trim_left p s = s.
Proof. destruct s as [|a s]; [reflexivity|]. intros [Ha _]%none_of_cons. simpl. by rewrite Ha. Qed.

Lemma trim_right_none p s : none_of p s -> trim_right p s = s.
Proof.
  induction s as [|a s IH]; [reflexivity|]. intros [Ha Hs]%none_of_cons. simpl.
  rewrite IH by exact Hs. destruct s; [by rewrite Ha|reflexivity].
Qed.

Lemma trim_right_app_sep p u c v :
  trim_right p v = v -> v <> EmptyString -> trim_right p (String.append u (String c v)) = String.append u (String c v).
Proof.
  intros Hv Hne. induction u as [|a u IH]; simpl.
  - rewrite Hv. by destruct v.
  - rewrite IH. by destruct u.
Qed.

(** Trimming a line of words joined by single spaces changes nothing. *)
Lemma trim_space_join l :
  l <> [] -> Forall (fun w => w <> EmptyString /\ none_of is_ascii_space w) l ->
  trim_space (join " "%char l) = join " "%char l.
Proof.
  intros Hne Hl. unfold trim_space.
  assert (Hr : trim_right is_ascii_space (join " "%char l) = join " "%char l).
  { clear Hne. induction l as [|w [|w' ws] IH]; [reflexivity| |].
    - inversion Hl as [|? ? [_ Hw] _]. by apply trim_right_none.
    - inversion Hl as [|? ? [_ Hw] Hrest]; subst.
      change (join " "%char (w :: w' :: ws)) with (String.append w (String " " (join " "%char (w' :: ws)))).
      apply trim_right_app_sep; [apply IH, Hrest|].
      inversion Hrest as [|? ? [Hw' _] _]. destruct w'; [congruence|]. destruct ws; discriminate. }
  destruct l as [|w ws]; [congruence|]. inversion Hl as [|? ? [Hw0 Hw] _]; subst.
  destruct w as [|a w]; [congruence|]. apply none_of_cons in Hw as [Ha _].
  assert (Hl' : trim_left is_ascii_space (join " "%char (String a w :: ws)) = join " "%char (String a w :: ws))
.
  { destruct ws; cbn [join trim_left]; [by rewrite Ha|]. simpl. by rewrite Ha. }
  by rewrite Hl', Hr.
Qed.

Lemma none_of_contains c s : none_of (fun a => Ascii.eqb a c) s -> contains_byte s c = false.
Proof.
  unfold none_of, contains_byte. induction s as [|a s IH]; simpl; [reflexivity|].
  intros [Ha Hs]%Forall_cons. rewrite Ascii.eqb_sym, Ha. simpl. auto.
Qed.

Lemma list_ascii_of_string_app s t :
  list_ascii_of_string (String.append s t) = list_ascii_of_string s ++ list_ascii_of_string t.
Proof. induction s as [|a s IH]; simpl; [reflexivity|by rewrite IH]. Qed.

(** A string is determined by its bytes. *)
Lemma list_ascii_of_string_inj s t : list_ascii_of_string s = list_ascii_of_string t -> s = t.
Proof.
  intros H. rewrite <- (string_of_list_ascii_of_string s), <- (string_of_list_ascii_of_string t). by f_equal.
Qed.

Lemma string_append_assoc a b c : String.append (String.append a b) c = String.append a (String.append b c).
Proof.
  induction a as [|x a IH]; [reflexivity|].
  change (String x (String.append (String.append a b) c) = String x (String.append a (String.append b c))).
  by rewrite IH.
Qed.

Lemma append_cancel_l p a b : String.append p a = String.append p b -> a = b.
Proof. induction p as [|c p IH]; simpl; [done|]. intros H. injection H. exact IH. Qed.

Lemma string_append_empty_r s : String.append s "" = s.
Proof. induction s as [|a s IH]; [reflexivity|]. change (String a (String.append s "") = String a s). by rewrite IH. Qed.
