(* ===== verification/Calendar.v ===== *)
(** * Calendar: the part of Go's [time] package that [NextRun] relies on

    [NextRun] (src/internal/cron/cron.go) reads the civil fields of a
    [time.Time], asks [time.Date(year, month+1, 0, ...).Day()] for the length
    of a month and [time.Date(year, month, day, ...).Weekday()] for a weekday.
    This file models the proleptic Gregorian calendar as Go's [time] package
    computes it: [isLeap], [daysIn], the day count since 0001-01-01 that
    [time.Date] builds from [daysBefore], the weekday derived from it, and a
    civil date-time record with its minute and second counts.  The lemmas
    show that the day count orders valid dates lexicographically, which is
    what makes "the next matching minute" well defined. *)

From S2P Require Import Prelude.

(** Go: [isLeap(year) = year%4 == 0 && (year%100 != 0 || year%400 == 0)]. *)
Definition isLeap (year : Z) : bool :=
  (year mod 4 =? 0) && (negb (year mod 100 =? 0) || (year mod 400 =? 0)).

(** Go: [daysIn(m Month, year int)], the value of
    [time.Date(year, m+1, 0, 0, 0, 0, 0, loc).Day()] for [1 <= m <= 12]. *)
Definition daysIn (m year : Z) : Z :=
  if m =? 2 then (if isLeap year then 29 else 28)
  else if (m =? 4) || (m =? 6) || (m =? 9) || (m =? 11) then 30
  else 31.

(** Go's [daysBefore] table: days before month [m] in a common year. *)
Definition daysBefore (m : Z) : Z :=
  nth (Z.to_nat (m - 1)) [0; 31; 59; 90; 120; 151; 181; 212; 243; 273; 304; 334; 365] 365.

(** Days from 0001-01-01 to January 1st of [y]. *)
Definition days_before_year (y : Z) : Z :=
  let p := y - 1 in 365 * p + p / 4 - p / 100 + p / 400.

(** The day count [time.Date] computes: year, then [daysBefore[month-1]],
    then one more day after February of a leap year, then the day. *)
Definition day_number (y m d : Z) : Z :=
  days_before_year y + daysBefore m + (if isLeap y && (3 <=? m) then 1 else 0) + (d - 1).

(** [time.Weekday]: Sunday = 0; 0001-01-01 was a Monday. *)
Definition weekday (y m d : Z) : Z := (day_number y m d + 1) mod 7.

(** [month++; if month > 12 { month = 1; year++ }] *)
Definition next_month (y m : Z) : Z * Z :=
  if 12 <? m + 1 then (y + 1, 1) else (y, m + 1).

Definition valid_date (y m d : Z) : Prop := 1 <= m <= 12 /\ 1 <= d <= daysIn m y.

(** The civil fields of a [time.Time] in its location (nanoseconds and the
    location itself are carried unchanged by [NextRun] and not modelled). *)
Record datetime := mk_datetime {
  dt_year : Z; dt_month : Z; dt_day : Z; dt_hour : Z; dt_minute : Z; dt_second : Z
}.

Definition valid_dt (t : datetime) : Prop :=
  valid_date (dt_year t) (dt_month t) (dt_day t) /\
  0 <= dt_hour t <= 23 /\ 0 <= dt_minute t <= 59 /\ 0 <= dt_second t <= 59.

Definition dt_day_number (t : datetime) : Z := day_number (dt_year t) (dt_month t) (dt_day t).

(** Minutes and seconds since 0001-01-01T00:00:00 in the time's location. *)
Definition stamp (t : datetime) : Z := dt_day_number t * 1440 + dt_hour t * 60 + dt_minute t.
Definition instant (t : datetime) : Z := stamp t * 60 + dt_second t.

Definition dt_weekday (t : datetime) : Z := weekday (dt_year t) (dt_month t) (dt_day t).

#[export] Instance valid_dt_dec t : Decision (valid_dt t).
Proof. unfold valid_dt, valid_date. apply _. Defined.

(** ** Lemmas *)

Lemma daysIn_bounds m y : 28 <= daysIn m y <= 31.
Proof. unfold daysIn. destruct (isLeap y); zcase; simpl; lia. Qed.

(** Facts [lia] needs about [a / k] and [a mod k] for a constant [k]. *)
Ltac div_facts a k :=
  pose proof (Z.div_mod a k ltac:(lia)); pose proof (Z.mod_pos_bound a k ltac:(lia)).

Lemma days_before_year_succ y :
  days_before_year (y + 1) = days_before_year y + (if isLeap y then 366 else 365).
Proof.
  unfold days_before_year, isLeap. replace (y + 1 - 1) with y by lia.
  div_facts y 4; div_facts y 100; div_facts y 400;
  div_facts (y - 1) 4; div_facts (y - 1) 100; div_facts (y - 1) 400.
  zcase; simpl; lia.
Qed.

Lemma days_before_year_mono y1 y2 : y1 <= y2 -> days_before_year y1 <= days_before_year y2.
Proof.
  intros Hle. replace y2 with (y1 + Z.of_nat (Z.to_nat (y2 - y1))) by lia.
  induction (Z.to_nat (y2 - y1)) as [|n IH]; [rewrite Z.add_0_r; lia|].
  rewrite Nat2Z.inj_succ, <- Z.add_1_r, Z.add_assoc, days_before_year_succ.
  destruct (isLeap _); lia.
Qed.

(** Offset of the first day of month [m] from the first day of its year. *)
Definition month_offset (y m : Z) : Z :=
  daysBefore m + (if isLeap y && (3 <=? m) then 1 else 0).

Lemma day_number_offset y m d :
  day_number y m d = days_before_year y + month_offset y m + (d - 1).
Proof. unfold day_number, month_offset. lia. Qed.

(** The month table, checked once for common and leap years. *)
Definition month_table_ok (leap : bool) : bool :=
  forallb (fun m =>
    let off m := daysBefore m + (if leap && (3 <=? m) then 1 else 0) in
    let len := if m =? 2 then (if leap then 29 else 28)
               else if (m =? 4) || (m =? 6) || (m =? 9) || (m =? 11) then 30 else 31 in
    (off m + len =? (if m =? 12 then (if leap then 366 else 365) else off (m + 1))))
    (zrange 1 12).

Lemma month_table_ok_all leap : month_table_ok leap = true.
Proof. destruct leap; reflexivity. Qed.

Lemma month_offset_succ y m :
  1 <= m <= 12 ->
  month_offset y m + daysIn m y =
    (if m =? 12 then (if isLeap y then 366 else 365) else month_offset y (m + 1)).
Proof.
  intros Hm. pose proof (month_table_ok_all (isLeap y)) as Hok.
  unfold month_table_ok in Hok. rewrite forallb_forall in Hok.
  specialize (Hok m ltac:(apply list_elem_of_In, elem_of_zrange; lia)).
  apply Z.eqb_eq in Hok. exact Hok.
Qed.

Lemma month_offset_1 y : month_offset y 1 = 0.
Proof. unfold month_offset. destruct (isLeap y); reflexivity. Qed.

(** The day after the last day of a month is the first day of the next one. *)
Lemma day_number_next_month y m :
  1 <= m <= 12 ->
  let '(y', m') := next_month y m in
  day_number y' m' 1 = day_number y m (daysIn m y + 1).
Proof.
  intros Hm. unfold next_month.
  pose proof (month_offset_succ y m Hm) as Hs.
  destruct (Z.ltb_spec 12 (m + 1)); cbn iota; rewrite !day_number_offset.
  - assert (m = 12) as -> by lia. rewrite Z.eqb_refl in Hs.
    rewrite days_before_year_succ, month_offset_1. destruct (isLeap y); lia.
  - revert Hs. zcase; intros Hs; lia.
Qed.

Lemma month_offset_mono y m1 m2 :
  1 <= m1 -> m1 < m2 -> m2 <= 12 -> month_offset y m1 + daysIn m1 y <= month_offset y m2.
Proof.
  intros H1 H12 H2. replace m2 with (m1 + 1 + Z.of_nat (Z.to_nat (m2 - m1 - 1))) in * by lia.
  induction (Z.to_nat (m2 - m1 - 1)) as [|n IH].
  - cbn [Z.of_nat] in *. rewrite Z.add_0_r, month_offset_succ by lia. zcase; lia.
  - rewrite Nat2Z.inj_succ in *.
    pose proof (month_offset_succ y (m1 + 1 + Z.of_nat n) ltac:(lia)) as Hs.
    pose proof (daysIn_bounds (m1 + 1 + Z.of_nat n) y). revert Hs; zcase; [lia|].
    intros Hs. replace (m1 + 1 + Z.succ (Z.of_nat n)) with (m1 + 1 + Z.of_nat n + 1) by lia.
    lia.
Qed.

Lemma month_offset_last y m :
  1 <= m <= 12 -> month_offset y m + daysIn m y <= (if isLeap y then 366 else 365).
Proof.
  intros Hm. destruct (Z.eq_dec m 12) as [->|Hne].
  - rewrite month_offset_succ by lia. reflexivity.
  - pose proof (month_offset_mono y m 12 ltac:(lia) ltac:(lia) ltac:(lia)).
    pose proof (month_offset_succ y 12 ltac:(lia)). pose proof (daysIn_bounds 12 y). simpl in *. lia.
Qed.

(** ** The day count orders valid dates lexicographically *)
Definition date_lt (y1 m1 d1 y2 m2 d2 : Z) : Prop :=
  y1 < y2 \/ (y1 = y2 /\ (m1 < m2 \/ (m1 = m2 /\ d1 < d2))).

Lemma month_offset_nonneg y m : 1 <= m <= 12 -> 0 <= month_offset y m.
Proof.
  intros Hm. destruct (Z.eq_dec m 1) as [->|Hne]; [rewrite month_offset_1; lia|].
  pose proof (month_offset_mono y 1 m ltac:(lia) ltac:(lia) ltac:(lia)).
  rewrite month_offset_1 in *. pose proof (daysIn_bounds 1 y). lia.
Qed.

Lemma day_number_year_bounds y m d :
  valid_date y m d -> days_before_year y <= day_number y m d < days_before_year (y + 1).
Proof.
  intros [Hm Hd]. rewrite day_number_offset, days_before_year_succ.
  pose proof (month_offset_nonneg y m Hm). pose proof (month_offset_last y m Hm). lia.
Qed.

Lemma day_number_lt y1 m1 d1 y2 m2 d2 :
  valid_date y1 m1 d1 -> valid_date y2 m2 d2 -> date_lt y1 m1 d1 y2 m2 d2 ->
  day_number y1 m1 d1 < day_number y2 m2 d2.
Proof.
  intros H1 H2 [Hy|[-> [Hm|[-> Hd]]]].
  - pose proof (day_number_year_bounds _ _ _ H1). pose proof (day_number_year_bounds _ _ _ H2).
    pose proof (days_before_year_mono (y1 + 1) y2 ltac:(lia)). lia.
  - destruct H1 as [Hm1 Hd1], H2 as [Hm2 Hd2]. rewrite !day_number_offset.
    pose proof (month_offset_mono y2 m1 m2 ltac:(lia) Hm ltac:(lia)). lia.
  - rewrite !day_number_offset. lia.
Qed.

Lemma date_lt_trichotomy y1 m1 d1 y2 m2 d2 :
  date_lt y1 m1 d1 y2 m2 d2 \/ (y1 = y2 /\ m1 = m2 /\ d1 = d2) \/ date_lt y2 m2 d2 y1 m1 d1.
Proof. unfold date_lt. lia. Qed.

Lemma day_number_inj y1 m1 d1 y2 m2 d2 :
  valid_date y1 m1 d1 -> valid_date y2 m2 d2 ->
  day_number y1 m1 d1 = day_number y2 m2 d2 -> y1 = y2 /\ m1 = m2 /\ d1 = d2.
Proof.
  intros H1 H2 Heq.
  destruct (date_lt_trichotomy y1 m1 d1 y2 m2 d2) as [Hlt|[Hs|Hlt]]; [|exact Hs|].
  - pose proof (day_number_lt _ _ _ _ _ _ H1 H2 Hlt). lia.
  - pose proof (day_number_lt _ _ _ _ _ _ H2 H1 Hlt). lia.
Qed.

(** A valid date whose day count falls inside month [(y, m)] is in that month. *)
Lemma day_number_in_month y m ty tm td :
  1 <= m <= 12 -> valid_date ty tm td ->
  day_number y m 1 <= day_number ty tm td < day_number y m 1 + daysIn m y ->
  ty = y /\ tm = m.
Proof.
  intros Hm Ht Hr. pose proof (daysIn_bounds m y).
  destruct (date_lt_trichotomy ty tm td y m 1) as [Hlt|[Hs|Hlt]]; [| lia |].
  - pose proof (day_number_lt ty tm td y m 1 Ht ltac:(split; lia) Hlt). lia.
  - destruct (date_lt_trichotomy ty tm td y m (daysIn m y)) as [Hlt'|[Hs|Hlt']].
    + destruct Hlt as [?|[? [?|[? ?]]]], Hlt' as [?|[? [?|[? ?]]]]; lia.
    + lia.
    + pose proof (day_number_lt y m (daysIn m y) ty tm td ltac:(split; lia) Ht Hlt').
      rewrite !day_number_offset in *. lia.
Qed.

Lemma stamp_day t :
  valid_dt t -> dt_day_number t * 1440 <= stamp t < dt_day_number t * 1440 + 1440.
Proof. unfold valid_dt, stamp. lia. Qed.

Lemma day_number_succ y m d : day_number y m (d + 1) = day_number y m d + 1.
Proof. unfold day_number. lia. Qed.

(** A valid time whose minute count lies in a window of one day is on that
    day, at a minute of the day inside the window. *)
Lemma same_day_window t y m d a b :
  valid_dt t -> valid_date y m d -> 0 <= a -> b <= 1440 ->
  day_number y m d * 1440 + a <= stamp t < day_number y m d * 1440 + b ->
  dt_year t = y /\ dt_month t = m /\ dt_day t = d /\ a <= dt_hour t * 60 + dt_minute t < b.
Proof.
  intros Ht Hd Ha Hb Hw. pose proof (stamp_day t Ht) as Hs.
  assert (Hdn : dt_day_number t = day_number y m d) by lia.
  destruct Ht as [Hvd _]. unfold dt_day_number in Hdn.
  destruct (day_number_inj _ _ _ _ _ _ Hvd Hd Hdn) as (-> & -> & ->).
  unfold stamp, dt_day_number in Hw. lia.
Qed.

#[export] Hint Resolve daysIn_bounds : cron.

(** Two valid times at the same second are the same time. *)
Lemma instant_inj a b : valid_dt a -> valid_dt b -> instant a = instant b -> a = b.
Proof.
  intros Ha Hb Heq. pose proof (stamp_day a Ha). pose proof (stamp_day b Hb).
  unfold instant, valid_dt in *.
  assert (Hs : stamp a = stamp b) by lia.
  assert (Hd : dt_day_number a = dt_day_number b) by lia.
  unfold dt_day_number in Hd. destruct (day_number_inj _ _ _ _ _ _ (proj1 Ha) (proj1 Hb) Hd) as (? & ? & ?).
  unfold stamp in Hs. destruct a, b; simpl in *. f_equal; lia.
Qed.
