(* ===== verification/Schedule.v ===== *)
(** * Schedule: the [CronSchedule] value and its membership tests

    [CronSchedule] (src/internal/cron/cron.go, lines 12-18) holds five sorted
    value sets.  [contains] (lines 307-310) tests membership by binary search,
    and [dayMatches] (lines 174-189) combines day of month and day of week
    with the cron OR rule, detecting a full field by its length and end
    points.  This file states what a schedule means ([cron_match]: the
    abstract specification of a firing minute) and proves that the two
    helpers decide it on well-formed schedules.  The helpers are defined over
    any [SortedSearch] function; the program uses Go's [sort.SearchInts]. *)

From S2P Require Import Prelude GoSort Calendar.

Record CronSchedule := mkCronSchedule {
  minutes : list Z; hours : list Z; days : list Z; months : list Z; weekDays : list Z
}.

(** A field value set: strictly increasing, inside the field's bounds. *)
Definition field_ok (lo hi : Z) (l : list Z) : Prop := strictly_sorted l /\ in_bounds lo hi l.

Record schedule_wf (c : CronSchedule) : Prop := {
  wf_minutes : field_ok 0 59 (minutes c);
  wf_hours : field_ok 0 23 (hours c);
  wf_days : field_ok 1 31 (days c);
  wf_months : field_ok 1 12 (months c);
  wf_weekDays : field_ok 0 6 (weekDays c)
}.

(** ** Abstract specification of a firing minute *)

(** The day rule of cron: a full day-of-month field defers to a restricted
    day-of-week field, a full day-of-week field defers to a restricted
    day-of-month field, otherwise either may match. *)
Definition day_rule (ds wds : list Z) (d wd : Z) : Prop :=
  if decide (ds = zrange 1 31 /\ wds <> zrange 0 6) then wd ∈ wds
  else if decide (wds = zrange 0 6 /\ ds <> zrange 1 31) then d ∈ ds
  else d ∈ ds \/ wd ∈ wds.

Definition cron_match (c : CronSchedule) (t : datetime) : Prop :=
  dt_minute t ∈ minutes c /\ dt_hour t ∈ hours c /\ dt_month t ∈ months c /\
  day_rule (days c) (weekDays c) (dt_day t) (dt_weekday t).

#[export] Instance day_rule_dec ds wds d wd : Decision (day_rule ds wds d wd).
Proof. unfold day_rule. repeat case_decide; apply _. Defined.

#[export] Instance cron_match_dec c t : Decision (cron_match c t).
Proof. unfold cron_match. apply _. Defined.

#[export] Instance field_ok_dec lo hi l : Decision (field_ok lo hi l).
Proof. unfold field_ok, in_bounds. apply _. Defined.

Lemma schedule_wf_intro c :
  bool_decide (field_ok 0 59 (minutes c)) && bool_decide (field_ok 0 23 (hours c)) &&
  bool_decide (field_ok 1 31 (days c)) && bool_decide (field_ok 1 12 (months c)) &&
  bool_decide (field_ok 0 6 (weekDays c)) = true -> schedule_wf c.
Proof. rewrite !andb_true_iff, !bool_decide_eq_true. intros ((((? & ?) & ?) & ?) & ?). by split. Qed.

Section WithSearch.
Context (SearchInts : list Z -> Z -> nat).

(** [contains(sorted, value)]: [i := sort.SearchInts(sorted, value);
    return i < len(sorted) && sorted[i] == value]. *)
Definition contains (sorted : list Z) (value : Z) : bool :=
  let i := SearchInts sorted value in
  (i <? length sorted)%nat && (nth i sorted 0 =? value).

(** [dayMatches(day, weekDay, days, weekDays)]; Go's [&&] short-circuits,
    so [days[0]] and [days[30]] are read only when [len(days) == 31]. *)
Definition dayMatches (day weekDay : Z) (days weekDays : list Z) : bool :=
  let daysAll := (length days =? 31)%nat && (nth 0 days 0 =? 1) && (nth 30 days 0 =? 31) in
  let weekDaysAll :=
    (length weekDays =? 7)%nat && (nth 0 weekDays 0 =? 0) && (nth 6 weekDays 0 =? 6) in
  if daysAll && negb weekDaysAll then contains weekDays weekDay
  else if weekDaysAll && negb daysAll then contains days day
  else contains days day || contains weekDays weekDay.

Context `{!SortedSearch SearchInts}.

Lemma contains_spec l v : strictly_sorted l -> contains l v = true <-> v ∈ l.
Proof.
  intros Hs. unfold contains.
  rewrite (sorted_search_lower_bound l v (strictly_sorted_le l Hs)).
  destruct (Nat.ltb_spec (lower_bound l v) (length l)) as [Hlt|Hge]; simpl.
  - destruct (lower_bound_found l v Hs Hlt) as (Hin & Hle & Hmin).
    rewrite Z.eqb_eq. split; [intros <-; exact Hin|].
    intros Hv. specialize (Hmin v Hv ltac:(lia)). lia.
  - split; [discriminate|]. intros Hv. pose proof (lower_bound_none l v Hge v Hv). lia.
Qed.

(** What the program learns from [idx := sort.SearchInts(l, x)]. *)
Lemma search_found l x :
  strictly_sorted l -> (SearchInts l x <? length l)%nat = true ->
  let y := nth (SearchInts l x) l 0 in
  y ∈ l /\ x <= y /\ forall z, z ∈ l -> x <= z -> y <= z.
Proof.
  intros Hs Hlt. rewrite (sorted_search_lower_bound l x (strictly_sorted_le l Hs)) in *.
  apply Nat.ltb_lt in Hlt. exact (lower_bound_found l x Hs Hlt).
Qed.

Lemma search_none l x :
  strictly_sorted l -> (SearchInts l x <? length l)%nat = false -> forall z, z ∈ l -> z < x.
Proof.
  intros Hs Hge. rewrite (sorted_search_lower_bound l x (strictly_sorted_le l Hs)) in *.
  apply Nat.ltb_ge in Hge. exact (lower_bound_none l x Hge).
Qed.

Lemma contains_false l v : strictly_sorted l -> contains l v = false <-> v ∉ l.
Proof.
  intros Hs. rewrite <- (contains_spec l v Hs).
  destruct (contains l v); split; intros H; try congruence; exfalso; auto.
Qed.

(** The structural fullness test of [dayMatches] recognises exactly the
    full range on a well-formed field. *)
Lemma full_test_spec l lo hi :
  field_ok lo hi l -> lo <= hi ->
  ((length l =? Z.to_nat (hi - lo + 1))%nat && (nth 0 l 0 =? lo) &&
     (nth (Z.to_nat (hi - lo)) l 0 =? hi)) = true <-> l = zrange lo hi.
Proof.
  intros [Hs Hb] Hlh. split.
  - intros Ht. apply andb_true_iff in Ht as [Ht _]. apply andb_true_iff in Ht as [Ht _].
    apply Nat.eqb_eq in Ht. apply strictly_sorted_full_range; auto.
  - intros ->. rewrite length_zrange, Nat.eqb_refl. unfold zrange.
    rewrite !nth_lookup, !lookup_zrange_from by lia. cbn [default andb id].
    apply andb_true_iff; split; apply Z.eqb_eq; lia.
Qed.

Lemma days_all_spec ds :
  field_ok 1 31 ds ->
  ((length ds =? 31)%nat && (nth 0 ds 0 =? 1) && (nth 30 ds 0 =? 31)) = true <-> ds = zrange 1 31.
Proof. intros H. exact (full_test_spec ds 1 31 H ltac:(lia)). Qed.

Lemma weekDays_all_spec wds :
  field_ok 0 6 wds ->
  ((length wds =? 7)%nat && (nth 0 wds 0 =? 0) && (nth 6 wds 0 =? 6)) = true <-> wds = zrange 0 6.
Proof. intros H. exact (full_test_spec wds 0 6 H ltac:(lia)). Qed.

Lemma dayMatches_spec d wd ds wds :
  field_ok 1 31 ds -> field_ok 0 6 wds ->
  dayMatches d wd ds wds = true <-> day_rule ds wds d wd.
Proof.
  intros Hd Hw. unfold dayMatches, day_rule.
  pose proof (days_all_spec ds Hd) as Fd. pose proof (weekDays_all_spec wds Hw) as Fw.
  destruct Hd as [Hds _], Hw as [Hws _].
  revert Fd Fw.
  destruct ((length ds =? 31)%nat && _ && _), ((length wds =? 7)%nat && _ && _);
    intros Fd Fw; cbn [andb negb];
    repeat case_decide; rewrite ?orb_true_iff, ?contains_spec by assumption;
    naive_solver.
Qed.

(** ** Theorems *)

(** C6 *)
(** The membership tests of the evaluator decide the abstract meaning of
    a schedule: on a well-formed schedule, [contains] (a binary search with
    [sort.SearchInts]) on the minute, hour and month sets and [dayMatches]
    (which recognises a full field by its length and end points) all
    succeed at an instant exactly when the schedule fires at it by the
    cron rule, and [contains] agrees with a linear scan. *)
Theorem schedule_tests_decide c t :
  schedule_wf c ->
  (contains (minutes c) (dt_minute t) && contains (hours c) (dt_hour t) &&
   contains (months c) (dt_month t) && dayMatches (dt_day t) (dt_weekday t) (days c) (weekDays c) = true
   <-> cron_match c t) /\
  (forall l v, strictly_sorted l -> contains l v = existsb (Z.eqb v) l).
Proof.
  intros [[Hm _] [Hh _] Hd [Hmo _] Hw]. split.
  - rewrite !andb_true_iff, (dayMatches_spec _ _ _ _ Hd Hw). unfold cron_match.
    pose proof (contains_spec _ (dt_minute t) Hm). pose proof (contains_spec _ (dt_hour t) Hh).
    pose proof (contains_spec _ (dt_month t) Hmo). tauto.
  - intros l v Hs. pose proof (contains_spec l v Hs) as H. destruct (existsb (Z.eqb v) l) eqn:F.
    + apply existsb_exists in F as (x & Hx & ->%Z.eqb_eq). apply H, list_elem_of_In, Hx.
    + apply not_true_iff_false. intros Hc%H%list_elem_of_In. apply not_true_iff_false in F.
      apply F, existsb_exists. exists v. split; [exact Hc|apply Z.eqb_refl].
Qed.
End WithSearch.

(** The evaluator's tests on the schedule [0 12 * * 1-5] at noon on
    9 November 2026. *)
Lemma schedule_tests_decide_witness :
  let c := mkCronSchedule [0] [12] (zrange 1 31) (zrange 1 12) (zrange 1 5) in
  let t := mk_datetime 2026 11 9 12 0 0 in
  ((contains search_ints (minutes c) (dt_minute t) && contains search_ints (hours c) (dt_hour t) &&
    contains search_ints (months c) (dt_month t) &&
    dayMatches search_ints (dt_day t) (dt_weekday t) (days c) (weekDays c) = true
    <-> cron_match c t) /\
   (forall l v, strictly_sorted l -> contains search_ints l v = existsb (Z.eqb v) l)).
Proof.
  apply (schedule_tests_decide search_ints).
  apply schedule_wf_intro. vm_compute. reflexivity.
Defined.
