(* ===== verification/CronParse.v ===== *)
(** * CronParse: the cron expression parser

    [parseCronField] (src/internal/cron/cron.go, lines 191-303) turns one
    field into a sorted set of integers; [NewCronSchedule] (lines 20-51)
    parses the five fields with their bounds and [NewCronScheduleFromString]
    (lines 53-62) splits a string on single spaces first.  Each Go error
    message is a constructor of [field_error] or [schedule_error]; a parse
    either fails as a whole or returns a schedule. *)

From S2P Require Import Prelude GoSort GoStrings Schedule.
From Stdlib Require Import Ascii.

(** The [fmt.Errorf] messages of [parseCronField], with the offending text. *)
Inductive field_error :=
| InvalidRangeFormat (part : string)       (** "invalid range format: %s" *)
| InvalidRangeValues (part : string)       (** "invalid range values: %s" *)
| RangeOutOfBounds (part : string)         (** "range out of bounds: %s" *)
| InvalidStepFormat (part : string)        (** "invalid step format: %s" *)
| InvalidStepValue (stepStr : string)      (** "invalid step value: %s" *)
| InvalidRangeInStep (base : string)       (** "invalid range in step: %s" *)
| RangeOutOfBoundsInStep (base : string)   (** "range out of bounds in step: %s" *)
| InvalidStepBase (base : string)          (** "invalid step base: %s" *)
| StepBaseOutOfRange (base : string)       (** "step base out of range: %s" *)
| InvalidValue (part : string)             (** "invalid value: %s" *)
| ValueOutOfRange (part : string).         (** "value out of range: %s" *)

Inductive cron_field := FieldMinute | FieldHour | FieldDay | FieldMonth | FieldWeekday.

(** The errors of [NewCronSchedule] and [NewCronScheduleFromString]. *)
Inductive schedule_error :=
| InvalidField (which : cron_field) (raw : string) (err : field_error)
    (** "invalid minute field %q: %w", ... *)
| InvalidCronString (s : string) (nparts : nat).
    (** "invalid cron string: %q, expected 5 parts, got %d" *)

Local Open Scope go_scope.

(** [start < min || end > max || start > end] *)
Definition range_bad (start end_ min max : Z) : bool := (start <? min) || (max <? end_) || (end_ <? start).

(** Lines 209-225: a simple range ["A-B"]. *)
Definition parse_range (part : string) (min max : Z) : field_error + list Z :=
  match split "-"%char part with
  | [a; b] =>
      match atoi a, atoi b with
      | Some start, Some end_ =>
          if range_bad start end_ min max then inl (RangeOutOfBounds part) else inr (zrange start end_)
      | _, _ => inl (InvalidRangeValues part)
      end
  | _ => inl (InvalidRangeFormat part)
  end.

(** Lines 240-273: the values a step applies to. *)
Definition step_base (base : string) (min max : Z) : field_error + list Z :=
  if String.eqb base "*"%string then inr (zrange min max)
  else if contains_byte base "-"%char then
    match split "-"%char base with
    | [a; b] =>
        match atoi a, atoi b with
        | Some start, Some end_ =>
            if range_bad start end_ min max then inl (RangeOutOfBoundsInStep base)
            else inr (zrange start end_)
        | _, _ => inl (InvalidRangeInStep base)
        end
    | _ => inl (InvalidRangeInStep base)
    end
  else
    match atoi base with
    | Some val => if (val <? min) || (max <? val) then inl (StepBaseOutOfRange base) else inr [val]
    | None => inl (InvalidStepBase base)
    end.

(** Lines 276-278: [for i := 0; i < len(allValues); i += step { ... allValues[i] }],
    one pass per element at most. *)
Fixpoint take_every (fuel : nat) (i step : Z) (allValues : list Z) : list Z :=
  match fuel with
  | O => []
  | S f =>
      if i <? Z.of_nat (length allValues)
      then nth (Z.to_nat i) allValues 0 :: take_every f (i + step) step allValues
      else []
  end.

Definition every_step (step : Z) (allValues : list Z) : list Z :=
  take_every (length allValues) 0 step allValues.

(** Lines 226-278: a step ["BASE/STEP"]. *)
Definition parse_step (part : string) (min max : Z) : field_error + list Z :=
  match split "/"%char part with
  | [base; stepStr] =>
      match atoi stepStr with
      | Some step =>
          if step <=? 0 then inl (InvalidStepValue stepStr)
          else let? allValues := step_base base min max in inr (every_step step allValues)
      | None => inl (InvalidStepValue stepStr)
      end
  | _ => inl (InvalidStepFormat part)
  end.

(** Lines 279-289: a single value. *)
Definition parse_single (part : string) (min max : Z) : field_error + list Z :=
  match atoi part with
  | Some value => if (value <? min) || (max <? value) then inl (ValueOutOfRange part) else inr [value]
  | None => inl (InvalidValue part)
  end.

(** Lines 208-290: one comma-separated part. *)
Definition parse_part (part : string) (min max : Z) : field_error + list Z :=
  if contains_byte part "-"%char && negb (contains_byte part "/"%char) then parse_range part min max
  else if contains_byte part "/"%char then parse_step part min max
  else parse_single part min max.

(** Lines 207-290: [for _, part := range parts], appending to [result]. *)
Fixpoint parse_parts (parts : list string) (min max : Z) (result : list Z) : field_error + list Z :=
  match parts with
  | [] => inr result
  | part :: rest => let? vs := parse_part part min max in parse_parts rest min max (result ++ vs)
  end.

(** Lines 293-300: drop repeated values, keeping first occurrences, with the
    [unique] map as a set. *)
Fixpoint dedup (result : list Z) (unique : gset Z) : list Z :=
  match result with
  | [] => []
  | v :: rest =>
      if decide (v ∈ unique) then dedup rest unique else v :: dedup rest ({[v]} ∪ unique)
  end.

(** [parseCronField(field, min, max)] *)
Definition parseCronField (field : string) (min max : Z) : field_error + list Z :=
  if String.eqb field "*"%string then inr (zrange min max)
  else if String.eqb field ""%string then inr []
  else let? result := parse_parts (split ","%char field) min max [] in
       inr (sort_ints (dedup result ∅)).

Definition field_result (which : cron_field) (raw : string) (r : field_error + list Z)
  : schedule_error + list Z :=
  match r with inl e => inl (InvalidField which raw e) | inr v => inr v end.

(** [NewCronSchedule(minute, hour, day, month, weekDay)] *)
Definition NewCronSchedule (minute hour day month weekDay : string) : schedule_error + CronSchedule :=
  let? minutes := field_result FieldMinute minute (parseCronField minute 0 59) in
  let? hours := field_result FieldHour hour (parseCronField hour 0 23) in
  let? days := field_result FieldDay day (parseCronField day 1 31) in
  let? months := field_result FieldMonth month (parseCronField month 1 12) in
  let? weekDays := field_result FieldWeekday weekDay (parseCronField weekDay 0 6) in
  inr (mkCronSchedule minutes hours days months weekDays).

(** [NewCronScheduleFromString(cronString)] *)
Definition NewCronScheduleFromString (cronString : string) : schedule_error + CronSchedule :=
  let parts := split " "%char (trim_space cronString) in
  match parts with
  | [p0; p1; p2; p3; p4] => NewCronSchedule p0 p1 p2 p3 p4
  | _ => inl (InvalidCronString cronString (length parts))
  end.

(** ** Lemmas *)

Lemma in_bounds_zrange min max lo hi :
  min <= lo -> hi <= max -> in_bounds min max (zrange lo hi).
Proof.
  intros H1 H2. apply Forall_forall. intros x Hx%elem_of_zrange. lia.
Qed.

Lemma range_bad_false start end_ min max :
  range_bad start end_ min max = false -> min <= start /\ end_ <= max /\ start <= end_.
Proof. unfold range_bad. intros H. repeat rewrite orb_false_iff in H. zcase; lia. Qed.

(** The step loop visits the indices [i, i + step, ...] below the length. *)
Lemma elem_of_take_every fuel i step l x :
  0 <= i -> 0 < step ->
  x ∈ take_every fuel i step l <->
  exists k : nat, (k < fuel)%nat /\ i + Z.of_nat k * step < Z.of_nat (length l) /\
                  x = nth (Z.to_nat (i + Z.of_nat k * step)) l 0.
Proof.
  revert i. induction fuel as [|fuel IH]; intros i Hi Hs; simpl.
  - rewrite elem_of_nil. split; [done|]. intros (k & Hk & _). lia.
  - destruct (Z.ltb_spec i (Z.of_nat (length l))) as [Hlt|Hge].
    + rewrite elem_of_cons, IH by lia. split.
      * intros [->|(k & Hk & Hb & ->)].
        -- exists 0%nat. split; [lia|]. split; [lia|]. f_equal. lia.
        -- exists (S k). split; [lia|]. split; [lia|]. f_equal. lia.
      * intros ([|k] & Hk & Hb & ->); [left; f_equal; lia|].
        right. exists k. split; [lia|]. split; [lia|]. f_equal. lia.
    + rewrite elem_of_nil. split; [done|]. intros (k & _ & Hb & _). nia.
Qed.

Lemma every_step_subset step l x : 0 < step -> x ∈ every_step step l -> x ∈ l.
Proof.
  intros Hs Hx. apply elem_of_take_every in Hx as (k & _ & Hb & ->); [|lia|lia].
  apply nth_elem_of. lia.
Qed.

(** Every [step]-th value of [zrange lo hi], from [lo]. *)
Lemma every_step_zrange step lo hi x :
  0 < step -> x ∈ every_step step (zrange lo hi) <-> lo <= x <= hi /\ (x - lo) mod step = 0.
Proof.
  intros Hs. unfold every_step. rewrite elem_of_take_every by lia. rewrite length_zrange.
  split.
  - intros (k & Hk & Hb & ->). unfold zrange.
    rewrite nth_lookup, lookup_zrange_from by lia. simpl.
    rewrite Z2Nat.id by lia. split; [lia|].
    replace (lo + (0 + Z.of_nat k * step) - lo) with (Z.of_nat k * step) by lia.
    apply Z.mod_mul. lia.
  - intros [Hx Hm]. pose proof (Z.div_mod (x - lo) step ltac:(lia)) as Hd.
    rewrite Hm, Z.add_0_r in Hd. pose proof (Z.div_pos (x - lo) step ltac:(lia) Hs).
    exists (Z.to_nat ((x - lo) / step)). rewrite Z2Nat.id by lia.
    split; [nia|]. split; [nia|]. unfold zrange.
    rewrite nth_lookup, lookup_zrange_from by nia. simpl. f_equal. nia.
Qed.

Lemma in_bounds_every_step min max step l :
  0 < step -> in_bounds min max l -> in_bounds min max (every_step step l).
Proof.
  intros Hs Hl. unfold in_bounds in *. rewrite Forall_forall in *.
  intros x Hx. apply Hl. exact (every_step_subset step l x Hs Hx).
Qed.

(** Turn the failed bound checks of the parser into arithmetic facts. *)
Ltac bound_checks :=
  repeat match goal with
  | H : range_bad _ _ _ _ = false |- _ => apply range_bad_false in H
  | H : (_ <? _) || (_ <? _) = false |- _ => apply orb_false_iff in H as [? ?]
  end; zcase; try discriminate.

Lemma step_base_in base min max vs :
  step_base base min max = inr vs -> in_bounds min max vs.
Proof.
  unfold step_base. destruct (String.eqb _ _); [intros [= <-]; apply in_bounds_zrange; lia|].
  destruct (contains_byte _ _).
  - repeat case_match; try discriminate; intros [= <-]; bound_checks; apply in_bounds_zrange; lia.
  - repeat case_match; try discriminate; intros [= <-]; bound_checks; constructor; [lia|constructor].
Qed.

Lemma parse_part_in part min max vs :
  parse_part part min max = inr vs -> in_bounds min max vs.
Proof.
  unfold parse_part, parse_range, parse_step, parse_single.
  destruct (_ && _).
  - repeat case_match; try discriminate; intros [= <-]; bound_checks; apply in_bounds_zrange; lia.
  - destruct (contains_byte _ _).
    + repeat case_match; try discriminate; intros [= <-]; bound_checks;
        apply in_bounds_every_step; [lia| eapply step_base_in; eauto].
    + repeat case_match; try discriminate; intros [= <-]; bound_checks;
        constructor; [lia|constructor].
Qed.

Lemma parse_parts_ok parts min max acc r :
  parse_parts parts min max acc = inr r ->
  exists vss, Forall2 (fun p vs => parse_part p min max = inr vs) parts vss /\ r = acc ++ concat vss.
Proof.
  revert acc. induction parts as [|p ps IH]; intros acc; simpl.
  - intros [= <-]. exists []. split; [constructor|]. by rewrite app_nil_r.
  - destruct (parse_part p min max) as [e|vs] eqn:Hp; [discriminate|].
    intros (vss & Hall & ->)%IH. exists (vs :: vss). split; [constructor; auto|].
    simpl. by rewrite app_assoc.
Qed.

Lemma parse_parts_ok_inv parts min max acc vss :
  Forall2 (fun p vs => parse_part p min max = inr vs) parts vss ->
  parse_parts parts min max acc = inr (acc ++ concat vss).
Proof.
  intros Hall. revert acc. induction Hall as [|p vs ps vss Hp _ IH]; intros acc; simpl.
  - by rewrite app_nil_r.
  - rewrite Hp, IH. by rewrite app_assoc.
Qed.

Lemma parse_parts_fail parts min max acc p e :
  p ∈ parts -> parse_part p min max = inl e -> exists e', parse_parts parts min max acc = inl e'.
Proof.
  revert acc. induction parts as [|q qs IH]; intros acc Hin He; [apply elem_of_nil in Hin; done|].
  simpl. destruct (parse_part q min max) as [e'|vs] eqn:Hq; [eauto|].
  apply elem_of_cons in Hin as [->|Hin]; [congruence|]. apply IH; auto.
Qed.

Lemma elem_of_dedup l (s : gset Z) x : x ∈ dedup l s <-> x ∈ l /\ x ∉ s.
Proof.
  revert s. induction l as [|v l IH]; intros s; simpl.
  - rewrite elem_of_nil. tauto.
  - case_decide as Hv.
    + rewrite IH, elem_of_cons. split; [tauto|]. intros [[->|?] ?]; [contradiction|tauto].
    + rewrite elem_of_cons, IH, elem_of_union, elem_of_singleton, elem_of_cons.
      destruct (decide (x = v)) as [->|]; tauto.
Qed.

Lemma NoDup_dedup l s : NoDup (dedup l s).
Proof.
  revert s. induction l as [|v l IH]; intros s; simpl; [constructor|].
  case_decide; [apply IH|]. constructor; [|apply IH].
  rewrite elem_of_dedup, elem_of_union, elem_of_singleton. tauto.
Qed.

Lemma dedup_id l (s : gset Z) : NoDup l -> (forall x, x ∈ l -> x ∉ s) -> dedup l s = l.
Proof.
  revert s. induction l as [|v l IH]; intros s Hnd Hs; simpl; [reflexivity|].
  apply NoDup_cons in Hnd as [Hv Hnd].
  rewrite decide_False by (apply Hs, list_elem_of_here).
  f_equal. apply IH; [exact Hnd|]. intros x Hx. rewrite elem_of_union, elem_of_singleton.
  intros [->|Hxs]; [contradiction|]. exact (Hs x (list_elem_of_further _ _ _ Hx) Hxs).
Qed.

Lemma sort_ints_elem l x : x ∈ sort_ints l <-> x ∈ l.
Proof. apply elem_of_Permutation_proper, sort_ints_perm. Qed.

Lemma sort_ints_strict l : NoDup l -> strictly_sorted (sort_ints l).
Proof.
  intros Hnd. pose proof (sort_ints_sorted l) as Hs.
  assert (Hnd' : NoDup (sort_ints l)) by (rewrite sort_ints_perm; exact Hnd).
  clear Hnd. induction Hs as [|a l' Hs IH Hall]; constructor.
  - apply IH. apply NoDup_cons in Hnd' as [_ ?]. assumption.
  - apply NoDup_cons in Hnd' as [Ha _]. rewrite Forall_forall in *. intros y Hy.
    specialize (Hall y Hy). destruct (Z.eq_dec a y) as [->|]; [contradiction|lia].
Qed.

Lemma sort_ints_id l : strictly_sorted l -> sort_ints l = l.
Proof.
  intros Hs. apply (StronglySorted_unique Z.le).
  - apply sort_ints_sorted.
  - clear -Hs. induction Hs as [|a l Hs IH Hall]; constructor; auto.
    eapply Forall_impl; [exact Hall|]. intros; simpl; lia.
  - apply sort_ints_perm.
Qed.

Lemma parts_elem parts min max vss x :
  Forall2 (fun p vs => parse_part p min max = inr vs) parts vss ->
  x ∈ concat vss <-> exists part vs, part ∈ parts /\ parse_part part min max = inr vs /\ x ∈ vs.
Proof.
  induction 1 as [|p vs ps vss Hp _ IH]; simpl.
  - rewrite elem_of_nil. split; [done|]. intros (? & ? & []%elem_of_nil & _).
  - rewrite elem_of_app, IH. split.
    + intros [Hx|(q & ws & Hq & Hw & Hx)]; [exists p, vs; rewrite elem_of_cons; auto|].
      exists q, ws. rewrite elem_of_cons. auto.
    + intros (q & ws & [->|Hq]%elem_of_cons & Hw & Hx); [left; congruence|].
      right. exists q, ws. auto.
Qed.

Lemma parse_ok_shape field min max l :
  String.eqb field "*" = false -> String.eqb field "" = false ->
  parseCronField field min max = inr l ->
  exists vss, Forall2 (fun p vs => parse_part p min max = inr vs) (split ","%char field) vss /\
              l = sort_ints (dedup (concat vss) ∅).
Proof.
  intros H1 H2. unfold parseCronField. rewrite H1, H2.
  destruct (parse_parts _ _ _ []) as [e|r] eqn:Hp; [discriminate|]. intros [= <-].
  apply parse_parts_ok in Hp as (vss & Hall & ->). exists vss. split; auto.
Qed.

Lemma parse_field_ok field min max l :
  parseCronField field min max = inr l -> field_ok min max l.
Proof.
  destruct (String.eqb field "*") eqn:H1.
  { unfold parseCronField. rewrite H1. intros [= <-]. split; auto with cron. }
  destruct (String.eqb field "") eqn:H2.
  { unfold parseCronField. rewrite H1, H2. intros [= <-]. split; constructor. }
  intros (vss & Hall & ->)%parse_ok_shape; auto.
  split; [apply sort_ints_strict, NoDup_dedup|].
  apply Forall_forall. intros x Hx. rewrite sort_ints_elem, elem_of_dedup in Hx.
  destruct Hx as [Hx _]. apply (parts_elem _ _ _ _ x Hall) in Hx as (p & vs & _ & Hp & Hx).
  exact (in_bounds_elem _ _ _ _ (parse_part_in p min max vs Hp) Hx).
Qed.

(** C7 *)
(** Type invariant of the parser: every value set [parseCronField] returns
    is strictly increasing and lies within the field's bounds. *)
Theorem parseCronField_wf field min max l :
  parseCronField field min max = inr l -> field_ok min max l.
Proof. apply parse_field_ok. Qed.

(** C8 *)
(** The parsed set is the union of the values of the comma-separated parts
    of the field, each part parsed on its own. *)
Theorem parseCronField_elem field min max l x :
  String.eqb field "*" = false -> String.eqb field "" = false ->
  parseCronField field min max = inr l ->
  x ∈ l <-> exists part vs, part ∈ split ","%char field /\ parse_part part min max = inr vs /\ x ∈ vs.
Proof.
  intros H1 H2 (vss & Hall & ->)%parse_ok_shape; auto.
  rewrite sort_ints_elem, elem_of_dedup, <- (parts_elem _ _ _ _ x Hall). set_solver.
Qed.

(** C9 *)
(** No partial result: if one comma-separated part of a field fails to
    parse, the whole field fails. *)
Theorem parseCronField_fail field min max part e :
  String.eqb field "*" = false -> String.eqb field "" = false ->
  part ∈ split ","%char field -> parse_part part min max = inl e ->
  exists e', parseCronField field min max = inl e'.
Proof.
  intros H1 H2 Hin He. unfold parseCronField. rewrite H1, H2.
  destruct (parse_parts_fail _ min max [] part e Hin He) as [e' ->]. eauto.
Qed.

(** The canonical printing of a value set: [strings.Join] of the decimal
    values with commas. *)
Definition format_field (l : list Z) : string := join ","%char (map itoa l).

Lemma digit_head_not_special a r :
  is_digit a = true -> String.eqb (String a r) "*"%string = false /\ String.eqb (String a r) ""%string = false.
Proof.
  intros Ha. split; [|reflexivity]. cbn. destruct (Ascii.eqb_spec a "*"%char) as [->|]; [discriminate|reflexivity].
Qed.

Lemma join_head sep a r ws : exists r', join sep (String a r :: ws) = String a r'.
Proof. destruct ws; eexists; reflexivity. Qed.

Lemma itoa_no_byte n c : 0 <= n -> is_digit c = false -> contains_byte (itoa n) c = false.
Proof. intros Hn Hc. apply contains_byte_digits; [apply itoa_digits, Hn|exact Hc]. Qed.

Lemma parse_part_itoa v min max :
  0 <= v <= go_int_max -> min <= v <= max -> parse_part (itoa v) min max = inr [v].
Proof.
  intros Hv Hb. unfold parse_part.
  rewrite !itoa_no_byte by (try lia; reflexivity). simpl.
  unfold parse_single. rewrite atoi_itoa by lia. zcase; simpl; try lia; reflexivity.
Qed.

(** C10 *)
(** Round trip: a non-empty, strictly increasing set of values within the
    bounds, printed as a comma-separated list of decimals, parses back to
    itself. *)
Theorem parseCronField_format l min max :
  0 <= min -> max <= go_int_max -> l <> [] -> field_ok min max l ->
  parseCronField (format_field l) min max = inr l.
Proof.
  intros Hmin Hmax Hne [Hs Hb].
  destruct l as [|v l']; [congruence|].
  pose proof (in_bounds_elem _ _ _ v Hb (list_elem_of_here _ _)).
  destruct (itoa_first v ltac:(lia)) as (a & r & Ha & Hdig).
  unfold format_field. simpl map. rewrite Ha.
  destruct (join_head ","%char a r (map itoa l')) as [r' Hr']. rewrite Hr'.
  destruct (digit_head_not_special a r' Hdig) as [H1 H2].
  unfold parseCronField. rewrite H1, H2, <- Hr', <- Ha.
  rewrite split_join.
  2: { discriminate. }
  2: { apply Forall_forall. intros w Hw. change (itoa v :: map itoa l') with (map itoa (v :: l')) in Hw.
       apply list_elem_of_fmap in Hw as (x & -> & Hx).
       pose proof (in_bounds_elem _ _ _ x Hb Hx). apply itoa_no_byte; [lia|reflexivity]. }
  change (itoa v :: map itoa l') with (map itoa (v :: l')).
  rewrite (parse_parts_ok_inv _ min max [] (map (fun x => [x]) (v :: l'))).
  2: { apply Forall2_fmap, Forall_Forall2_diag, Forall_forall. intros x Hx.
       pose proof (in_bounds_elem _ _ _ x Hb Hx). apply parse_part_itoa; lia. }
  assert (Hc : forall k : list Z, concat (map (fun x => [x]) k) = k)
    by (intros k; induction k as [|y k IH]; simpl; [reflexivity|by rewrite IH]).
  rewrite app_nil_l, Hc.
  assert (Hd : dedup (v :: l') ∅ = v :: l').
  { apply dedup_id; [apply strictly_sorted_NoDup, Hs|]. intros x _. apply not_elem_of_empty. }
  rewrite Hd, sort_ints_id by exact Hs. reflexivity.
Qed.

Lemma no_byte_app s t c :
  contains_byte s c = false -> contains_byte t c = false -> contains_byte (String.append s t) c = false.
Proof.
  unfold contains_byte. induction s as [|a s IH]; simpl; [auto|].
  intros [-> Hs]%orb_false_iff Ht. simpl. auto.
Qed.

(** C11 *)
(** A step over the wildcard, ["*/N"] with [N >= 1], parses to every
    [N]-th value of the field starting at its minimum. *)
Theorem parseCronField_step n min max :
  1 <= n <= go_int_max ->
  exists l, parseCronField (String "*" (String "/" (itoa n))) min max = inr l /\
            forall x, x ∈ l <-> min <= x <= max /\ (x - min) mod n = 0.
Proof.
  intros Hn. destruct (itoa_first n ltac:(lia)) as (a & r & Ha & Hdig).
  unfold parseCronField. rewrite Ha. cbn [String.eqb Ascii.eqb Bool.eqb andb]. rewrite <- Ha.
  rewrite split_no_sep.
  2: { apply (no_byte_app "*/"); [reflexivity|]. apply itoa_no_byte; [lia|reflexivity]. }
  cbn [parse_parts]. unfold parse_part.
  replace (contains_byte (String "*" (String "/" (itoa n))) "-") with false
    by (symmetry; apply (no_byte_app "*/"); [reflexivity|apply itoa_no_byte; [lia|reflexivity]]).
  cbn [andb negb]. replace (contains_byte (String "*" (String "/" (itoa n))) "/") with true by reflexivity.
  unfold parse_step. cbn [split Ascii.eqb Bool.eqb andb].
  rewrite split_no_sep by (apply itoa_no_byte; [lia|reflexivity]).
  rewrite atoi_itoa by lia. destruct (Z.leb_spec n 0); [lia|]. cbn.
  eexists. split; [reflexivity|]. intros x.
  change (merge_sort Z.le ?l) with (sort_ints l).
  rewrite sort_ints_elem, elem_of_dedup, every_step_zrange by lia. set_solver.
Qed.

(** C12 *)
(** A range ["A-B"] of decimals with [min <= A <= B <= max] parses to the
    whole integer interval from [A] to [B]. *)
Theorem parseCronField_range a b min max :
  0 <= min -> min <= a -> a <= b -> b <= max -> max <= go_int_max ->
  parseCronField (String.append (itoa a) (String "-" (itoa b))) min max = inr (zrange a b).
Proof.
  intros H0 Ha Hab Hb Hmax.
  destruct (itoa_first a ltac:(lia)) as (c & r & Hc & Hdig).
  assert (Hf : exists r', String.append (itoa a) (String "-" (itoa b)) = String c r')
    by (rewrite Hc; eexists; reflexivity).
  destruct Hf as [r' Hr']. destruct (digit_head_not_special c r' Hdig) as [H1 H2].
  unfold parseCronField. rewrite Hr', H1, H2, <- Hr'.
  assert (Hna : forall k, 0 <= k -> forall ch, is_digit ch = false -> contains_byte (itoa k) ch = false)
    by (intros; apply itoa_no_byte; auto).
  rewrite split_no_sep by (apply no_byte_app; [apply Hna; [lia|reflexivity]|];
                           apply (no_byte_app "-"); [reflexivity|apply Hna; [lia|reflexivity]]).
  cbn [parse_parts]. unfold parse_part.
  replace (contains_byte (String.append (itoa a) (String "-" (itoa b))) "-") with true.
  2: { symmetry. unfold contains_byte. clear. induction (itoa a) as [|x r IH]; simpl;
       [reflexivity|rewrite IH; apply orb_true_r]. }
  rewrite no_byte_app by (try apply Hna; try lia; reflexivity). cbn [andb negb].
  unfold parse_range. rewrite split_app_sep by (apply Hna; [lia|reflexivity]).
  rewrite split_no_sep by (apply Hna; [lia|reflexivity]).
  rewrite !atoi_itoa by lia. unfold range_bad. zcase; try lia. cbn.
  rewrite dedup_id; [|apply strictly_sorted_NoDup, zrange_sorted|intros; apply not_elem_of_empty].
  rewrite sort_ints_id by apply zrange_sorted. reflexivity.
Qed.

(** C13 *)
(** A decimal value outside the field's bounds is rejected with the
    "value out of range" error naming it. *)
Theorem parseCronField_out_of_range v min max :
  0 <= v <= go_int_max -> v < min \/ max < v ->
  parseCronField (itoa v) min max = inl (ValueOutOfRange (itoa v)).
Proof.
  intros Hv Hout. destruct (itoa_first v ltac:(lia)) as (c & r & Hc & Hdig).
  destruct (digit_head_not_special c r Hdig) as [H1 H2].
  unfold parseCronField. rewrite Hc, H1, H2, <- Hc.
  rewrite split_no_sep by (apply itoa_no_byte; [lia|reflexivity]). cbn [parse_parts].
  unfold parse_part. rewrite !itoa_no_byte by (try lia; reflexivity). cbn [andb negb].
  unfold parse_single. rewrite atoi_itoa by lia.
  replace ((v <? min) || (max <? v)) with true by (symmetry; apply orb_true_iff; zcase; lia).
  reflexivity.
Qed.

Lemma new_schedule_wf minute hour day month weekDay c :
  NewCronSchedule minute hour day month weekDay = inr c -> schedule_wf c.
Proof.
  unfold NewCronSchedule, field_result.
  destruct (parseCronField minute 0 59) as [|ms] eqn:Hm; [discriminate|].
  destruct (parseCronField hour 0 23) as [|hs] eqn:Hh; [discriminate|].
  destruct (parseCronField day 1 31) as [|ds] eqn:Hd; [discriminate|].
  destruct (parseCronField month 1 12) as [|mos] eqn:Hmo; [discriminate|].
  destruct (parseCronField weekDay 0 6) as [|ws] eqn:Hw; [discriminate|].
  intros [= <-]. split; simpl; eapply parse_field_ok; eauto.
Qed.

(** Every schedule [NewCronSchedule] builds is well formed: each of its
    five value sets is strictly increasing within its field's bounds, which
    is what the evaluator's theorems assume. *)
Theorem NewCronSchedule_wf minute hour day month weekDay c :
  NewCronSchedule minute hour day month weekDay = inr c -> schedule_wf c.
Proof. apply new_schedule_wf. Qed.

Lemma NewCronScheduleFromString_wf s c : NewCronScheduleFromString s = inr c -> schedule_wf c.
Proof.
  unfold NewCronScheduleFromString. repeat case_match; try discriminate. apply new_schedule_wf.
Qed.

(** ** Witnesses *)

Lemma parseCronField_format_witness :
  parseCronField (format_field [0; 15; 30; 45]) 0 59 = inr [0; 15; 30; 45].
Proof.
  apply parseCronField_format; [lia|unfold go_int_max; lia|discriminate|].
  split; [decide_goal|unfold in_bounds; repeat constructor; lia].
Defined.

Lemma parseCronField_step_witness :
  exists l, parseCronField (String "*" (String "/" (itoa 15))) 0 59 = inr l /\
            forall x, x ∈ l <-> 0 <= x <= 59 /\ (x - 0) mod 15 = 0.
Proof. apply (parseCronField_step 15 0 59). unfold go_int_max. lia. Defined.

Lemma parseCronField_range_witness :
  parseCronField (String.append (itoa 1) (String "-" (itoa 5))) 0 6 = inr (zrange 1 5).
Proof. apply (parseCronField_range 1 5 0 6); unfold go_int_max; lia. Defined.

Lemma parseCronField_out_of_range_witness :
  parseCronField (itoa 60) 0 59 = inl (ValueOutOfRange (itoa 60)).
Proof. apply (parseCronField_out_of_range 60 0 59); unfold go_int_max; lia. Defined.

Lemma NewCronSchedule_wf_witness :
  schedule_wf (mkCronSchedule [0; 15; 30; 45] [0] [1] (zrange 1 12) (zrange 1 5)).
Proof. apply (NewCronSchedule_wf "*/15" "0" "1" "*" "1-5"). vm_compute. reflexivity. Defined.

Lemma parseCronField_wf_witness : field_ok 0 59 [5; 10; 20].
Proof. apply (parseCronField_wf "20,5,10,5" 0 59). vm_compute. reflexivity. Defined.

Lemma parseCronField_elem_witness :
  3 ∈ [1; 2; 3; 10] <-> exists part vs, part ∈ split ","%char "1-3,10" /\
                                        parse_part part 0 59 = inr vs /\ 3 ∈ vs.
Proof. apply (parseCronField_elem "1-3,10" 0 59 [1; 2; 3; 10] 3); vm_compute; reflexivity. Defined.

Lemma parseCronField_fail_witness : exists e', parseCronField "1,60" 0 59 = inl e'.
Proof.
  apply (parseCronField_fail "1,60" 0 59 "60" (ValueOutOfRange "60"));
    [reflexivity|reflexivity|decide_goal|vm_compute; reflexivity].
Defined.
