(* ===== verification/NextRun.v ===== *)
(** * NextRun: the forward search of the schedule evaluator

    [CronSchedule.NextRun] (src/internal/cron/cron.go, lines 68-169) is a
    [for { ... }] loop over five local variables [year, month, day, hour,
    minute].  Each pass normalises minute and hour overflow, then either
    restarts the loop ([continue]) with a later cursor, returns a time, or
    (when the minute set is empty) panics on [c.minutes[0]].  The pass is
    [NextRun_body], built from one definition per block of the source; the
    loop is [NextRun_loop], run on a fuel budget since the Go loop need not
    terminate.  [loop_step] is the same loop as a step relation.  The
    theorems at the end say when the loop panics: never with a non-empty
    minute set, and it can never return a time with an empty one. *)

From S2P Require Import Prelude GoSort Calendar Schedule.

(** The loop variables of [NextRun]. *)
Record loop_state := mk_ls {
  ls_year : Z; ls_month : Z; ls_day : Z; ls_hour : Z; ls_minute : Z
}.

(** Result of one pass of the loop body. *)
Inductive step_result :=
| Continue (s : loop_state)      (** [continue] with new loop variables *)
| Return (t : datetime)          (** [return time.Date(...)] *)
| Panic.                          (** index out of range on [c.minutes[0]] *)

(** Outcome of a call of [NextRun]. *)
Inductive run_outcome := Fired (t : datetime) | Panicked.

(** ** Fixtures of src/internal/cron/cron_test.go *)

(** [now := time.Date(2025, 1, 1, 12, 0, 0, 0, time.UTC)] *)
Definition test_now : datetime := mk_datetime 2025 1 1 12 0 0.

Definition test_every_minute : CronSchedule :=
  mkCronSchedule (zrange 0 59) (zrange 0 23) (zrange 1 31) (zrange 1 12) (zrange 0 6).
Definition test_specific_minute : CronSchedule := mkCronSchedule [30] [12] [1] [1] [3].
Definition test_specific_hour : CronSchedule := mkCronSchedule [15] [14] [1] [1] [4].
Definition test_next_day : CronSchedule := mkCronSchedule [0] [0] [1; 2] [1] [3; 4].
Definition test_next_week : CronSchedule := mkCronSchedule [0] [0] (zrange 1 31) [1] [0].

Section Evaluator.
Context (SearchInts : list Z -> Z -> nat).

#[local] Abbreviation contains := (contains SearchInts).
#[local] Abbreviation dayMatches := (dayMatches SearchInts).

(** Lines 69-74: start at [now + 1 minute], seconds dropped. *)
Definition start (now : datetime) : loop_state :=
  mk_ls (dt_year now) (dt_month now) (dt_day now) (dt_hour now) (dt_minute now + 1).

(** Lines 78-86: minute overflow, then hour overflow. *)
Definition carry (s : loop_state) : loop_state :=
  let '(hour, minute) :=
    if 59 <? ls_minute s then (ls_hour s + 1, 0) else (ls_hour s, ls_minute s) in
  let '(day, hour) := if 23 <? hour then (ls_day s + 1, 0) else (ls_day s, hour) in
  mk_ls (ls_year s) (ls_month s) day hour minute.

(** Lines 93-101 and 107-115: first day of the next month, 00:00. *)
Definition to_next_month (s : loop_state) : loop_state :=
  let '(year, month) := next_month (ls_year s) (ls_month s) in
  mk_ls year month 1 0 0.

(** Lines 123-125, 138-140 and 158-160: next day, 00:00. *)
Definition to_next_day (s : loop_state) : loop_state :=
  mk_ls (ls_year s) (ls_month s) (ls_day s + 1) 0 0.

(** [time.Date(year, month, day, hour, minute, 0, 0, now.Location())] *)
Definition to_time (s : loop_state) : datetime :=
  mk_datetime (ls_year s) (ls_month s) (ls_day s) (ls_hour s) (ls_minute s) 0.

(** Lines 130-143: [None] is the [continue] to the next day. *)
Definition hour_check (hours : list Z) (s : loop_state) : option loop_state :=
  if contains hours (ls_hour s) then Some s
  else
    let hourIdx := SearchInts hours (ls_hour s) in
    if (hourIdx <? length hours)%nat
    then Some (mk_ls (ls_year s) (ls_month s) (ls_day s) (nth hourIdx hours 0) 0)
    else None.

(** Lines 146-167. [c.minutes[0]] is Go indexing: [None] panics. *)
Definition minute_check (c : CronSchedule) (s : loop_state) : step_result :=
  if contains (minutes c) (ls_minute s) then Return (to_time s)
  else
    let minuteIdx := SearchInts (minutes c) (ls_minute s) in
    if (minuteIdx <? length (minutes c))%nat
    then Return (to_time (mk_ls (ls_year s) (ls_month s) (ls_day s) (ls_hour s)
                                (nth minuteIdx (minutes c) 0)))
    else
      let hourIdx := SearchInts (hours c) (ls_hour s + 1) in
      if (hourIdx <? length (hours c))%nat then
        match minutes c !! 0%nat with
        | Some m0 => Return (to_time (mk_ls (ls_year s) (ls_month s) (ls_day s)
                                            (nth hourIdx (hours c) 0) m0))
        | None => Panic
        end
      else Continue (to_next_day s).

(** One pass of the [for] loop, lines 77-167. *)
Definition NextRun_body (c : CronSchedule) (s0 : loop_state) : step_result :=
  let s := carry s0 in
  if daysIn (ls_month s) (ls_year s) <? ls_day s then Continue (to_next_month s)
  else if negb (contains (months c) (ls_month s)) then Continue (to_next_month s)
  else if negb (dayMatches (ls_day s) (weekday (ls_year s) (ls_month s) (ls_day s))
                  (days c) (weekDays c))
  then Continue (to_next_day s)
  else match hour_check (hours c) s with
       | None => Continue (to_next_day s)
       | Some s' => minute_check c s'
       end.

(** The loop, with a bound on the number of passes: [None] means the
    budget ran out while Go would still be looping. *)
Fixpoint NextRun_loop (fuel : nat) (c : CronSchedule) (s : loop_state) : option run_outcome :=
  match fuel with
  | O => None
  | S fuel' =>
      match NextRun_body c s with
      | Continue s' => NextRun_loop fuel' c s'
      | Return t => Some (Fired t)
      | Panic => Some Panicked
      end
  end.

Definition NextRun (fuel : nat) (c : CronSchedule) (now : datetime) : option run_outcome :=
  NextRun_loop fuel c (start now).

(** The loop as a transition system: one [continue] per step. *)
Inductive loop_step (c : CronSchedule) : loop_state -> loop_state -> Prop :=
| loop_step_continue s s' : NextRun_body c s = Continue s' -> loop_step c s s'.

Inductive reachable (c : CronSchedule) (now : datetime) : loop_state -> Prop :=
| reach_start : reachable c now (start now)
| reach_step s s' : reachable c now s -> loop_step c s s' -> reachable c now s'.
End Evaluator.

(** ** One pass of the loop, block by block *)

(** Reduce record projections and pattern [let]s, nothing else. *)
Ltac ls_simpl :=
  cbn [ls_year ls_month ls_day ls_hour ls_minute dt_year dt_month dt_day dt_hour dt_minute
       dt_second fst snd] in *.

(** Minutes since 0001-01-01 denoted by the loop variables; it is linear in
    the day, so an overflowing day or minute still denotes an instant. *)
Definition ls_stamp (s : loop_state) : Z :=
  day_number (ls_year s) (ls_month s) (ls_day s) * 1440 + ls_hour s * 60 + ls_minute s.

(** Minute of the day. *)
Definition ls_mod (s : loop_state) : Z := ls_hour s * 60 + ls_minute s.

(** The loop variables at the head of the loop. *)
Definition ls_wf (s : loop_state) : Prop :=
  1 <= ls_month s <= 12 /\ 1 <= ls_day s <= daysIn (ls_month s) (ls_year s) + 1 /\
  0 <= ls_hour s <= 23 /\ 0 <= ls_minute s <= 60 /\
  (ls_day s = daysIn (ls_month s) (ls_year s) + 1 -> ls_hour s = 0 /\ ls_minute s = 0).

(** Loop variables naming a real minute. *)
Definition ls_valid (s : loop_state) : Prop :=
  valid_date (ls_year s) (ls_month s) (ls_day s) /\ 0 <= ls_hour s <= 23 /\ 0 <= ls_minute s <= 59.

(** Progress measure of the loop: the day count, with a day that overflows
    its month ranked just below the first day of the next month. *)
Definition ls_rank (s : loop_state) : Z :=
  2 * day_number (ls_year s) (ls_month s) (ls_day s) -
  (if ls_day s =? daysIn (ls_month s) (ls_year s) + 1 then 1 else 0).

(** No minute of [[a, b)] is a firing minute of [c]. *)
Definition skip_free (c : CronSchedule) (a b : Z) : Prop :=
  forall t, valid_dt t -> cron_match c t -> a <= stamp t -> b <= stamp t.

(** No minute of the day in [[a, b)] has its hour in [hs] and its minute in [ms]. *)
Definition window_free (hs ms : list Z) (a b : Z) : Prop :=
  forall h mi, 0 <= h <= 23 -> 0 <= mi <= 59 -> a <= h * 60 + mi < b -> h ∈ hs -> mi ∈ ms -> False.

Lemma skip_free_trans c a b d : skip_free c a b -> skip_free c b d -> skip_free c a d.
Proof. intros H1 H2 t Ht Hm Ha. apply H2; auto. Qed.

Lemma skip_free_le c a b : b <= a -> skip_free c a b.
Proof. intros Hb t _ _ Ha. lia. Qed.

Lemma to_time_valid s : ls_valid s -> valid_dt (to_time s).
Proof. unfold ls_valid, valid_dt, valid_date, to_time. simpl. lia. Qed.

Lemma to_time_stamp s : stamp (to_time s) = ls_stamp s.
Proof. reflexivity. Qed.

Lemma carry_stamp s : ls_wf s -> ls_stamp (carry s) = ls_stamp s.
Proof.
  intros Hw. unfold ls_wf in Hw. unfold carry. destruct (Z.ltb_spec 59 (ls_minute s)); ls_simpl; zcase;
    unfold ls_stamp; ls_simpl; rewrite ?day_number_succ; lia.
Qed.

Lemma carry_wf s :
  ls_wf s ->
  let s' := carry s in
  ls_wf s' /\ ls_minute s' <= 59 /\ ls_year s' = ls_year s /\ ls_month s' = ls_month s /\
  (ls_day s' = ls_day s \/ (ls_day s' = ls_day s + 1 /\ ls_day s <= daysIn (ls_month s) (ls_year s))).
Proof.
  unfold ls_wf, carry. intros Hw. destruct (Z.ltb_spec 59 (ls_minute s)); ls_simpl;
    zcase; ls_simpl; lia.
Qed.

Lemma to_next_month_stamp s :
  1 <= ls_month s <= 12 ->
  ls_stamp (to_next_month s) =
    day_number (ls_year s) (ls_month s) (daysIn (ls_month s) (ls_year s) + 1) * 1440.
Proof.
  intros Hm. pose proof (day_number_next_month (ls_year s) (ls_month s) Hm) as Hn.
  unfold to_next_month, ls_stamp. destruct (next_month _ _). ls_simpl. lia.
Qed.

Lemma next_month_valid y m : 1 <= m <= 12 -> 1 <= snd (next_month y m) <= 12.
Proof. unfold next_month. zcase; simpl; lia. Qed.

Lemma to_next_month_wf s : 1 <= ls_month s <= 12 -> ls_wf (to_next_month s).
Proof.
  intros Hm. pose proof (next_month_valid (ls_year s) (ls_month s) Hm).
  unfold to_next_month, ls_wf. destruct (next_month _ _) as [y m]. simpl in *.
  pose proof (daysIn_bounds m y). lia.
Qed.

Lemma to_next_month_rank s : 1 <= ls_month s <= 12 ->
  ls_rank (to_next_month s) =
    2 * day_number (ls_year s) (ls_month s) (daysIn (ls_month s) (ls_year s) + 1).
Proof.
  intros Hm. pose proof (day_number_next_month (ls_year s) (ls_month s) Hm) as Hn.
  unfold to_next_month, ls_rank. destruct (next_month _ _) as [y m].
  ls_simpl. pose proof (daysIn_bounds m y). zcase; lia.
Qed.

Lemma to_next_day_stamp s :
  ls_stamp (to_next_day s) = (day_number (ls_year s) (ls_month s) (ls_day s) + 1) * 1440.
Proof. unfold ls_stamp, to_next_day. ls_simpl. rewrite day_number_succ. lia. Qed.

Lemma to_next_day_wf s : ls_valid s -> ls_wf (to_next_day s).
Proof. unfold ls_valid, valid_date, ls_wf, to_next_day. simpl. lia. Qed.

Lemma to_next_day_rank s :
  ls_valid s -> ls_rank (to_next_day s) >= 2 * day_number (ls_year s) (ls_month s) (ls_day s) + 1.
Proof.
  unfold ls_rank, to_next_day. ls_simpl. rewrite day_number_succ. zcase; lia.
Qed.

(** A window of the day with no matching hour and minute contains no firing
    minute. *)
Lemma window_skip c s a b :
  ls_valid s -> 0 <= a -> b <= 1440 -> window_free (hours c) (minutes c) a b ->
  skip_free c (day_number (ls_year s) (ls_month s) (ls_day s) * 1440 + a)
              (day_number (ls_year s) (ls_month s) (ls_day s) * 1440 + b).
Proof.
  intros [Hd _] Ha Hb Hw t Ht [Hmi [Hh _]] Hle.
  destruct (Z_lt_le_dec (stamp t) (day_number (ls_year s) (ls_month s) (ls_day s) * 1440 + b))
    as [Hlt|]; [|assumption].
  destruct (same_day_window t _ _ _ a b Ht Hd Ha Hb ltac:(lia)) as (_ & _ & _ & Hwin).
  destruct Ht as (_ & ? & ? & _). exfalso. eapply Hw; eauto.
Qed.

(** A day that fails the day rule contains no firing minute. *)
Lemma day_skip c s :
  ls_valid s -> ~ day_rule (days c) (weekDays c) (ls_day s)
                      (weekday (ls_year s) (ls_month s) (ls_day s)) ->
  skip_free c (ls_stamp s) (ls_stamp (to_next_day s)).
Proof.
  intros Hs Hr t Ht (_ & _ & _ & Hday) Hle. rewrite to_next_day_stamp.
  destruct (Z_lt_le_dec (stamp t) ((day_number (ls_year s) (ls_month s) (ls_day s) + 1) * 1440))
    as [Hlt|]; [|assumption].
  destruct Hs as [Hd Hhm]. unfold ls_stamp in Hle.
  destruct (same_day_window t _ _ _ 0 1440 Ht Hd ltac:(lia) ltac:(lia) ltac:(lia))
    as (Hy & Hm & Hdd & _).
  unfold dt_weekday in Hday. rewrite Hy, Hm, Hdd in Hday. contradiction.
Qed.

(** A month outside the month set contains no firing minute. *)
Lemma month_skip c s :
  ls_valid s -> ls_month s ∉ months c ->
  skip_free c (ls_stamp s) (ls_stamp (to_next_month s)).
Proof.
  intros Hs Hnm t Ht (_ & _ & Hmt & _) Hle.
  destruct Hs as [[Hm Hd] Hhm].
  rewrite to_next_month_stamp by lia.
  destruct (Z_lt_le_dec (stamp t)
              (day_number (ls_year s) (ls_month s) (daysIn (ls_month s) (ls_year s) + 1) * 1440))
    as [Hlt|]; [|assumption].
  exfalso. pose proof (stamp_day t Ht) as Hst.
  unfold ls_stamp in Hle. unfold dt_day_number in Hst. rewrite !day_number_offset in *.
  destruct (day_number_in_month (ls_year s) (ls_month s) (dt_year t) (dt_month t) (dt_day t) Hm
              (proj1 Ht)) as [_ Heq].
  { rewrite !day_number_offset. lia. }
  rewrite Heq in Hmt. contradiction.
Qed.

Section PassLemmas.
Context (SearchInts : list Z -> Z -> nat) `{!SortedSearch SearchInts}.

Lemma hour_check_some hs s s' :
  field_ok 0 23 hs -> ls_valid s -> hour_check SearchInts hs s = Some s' ->
  ls_year s' = ls_year s /\ ls_month s' = ls_month s /\ ls_day s' = ls_day s /\
  ls_valid s' /\ ls_hour s' ∈ hs /\ ls_mod s <= ls_mod s' /\
  (forall ms, window_free hs ms (ls_mod s) (ls_mod s')).
Proof.
  intros [Hs Hb] Hv. unfold hour_check, ls_valid, valid_date, ls_mod in *.
  destruct (contains SearchInts hs (ls_hour s)) eqn:Hc.
  - intros [= <-]. apply (contains_spec SearchInts) in Hc; auto.
    repeat split; try lia; auto. intros ms h mi _ _ Hw. lia.
  - destruct ((SearchInts hs (ls_hour s) <? length hs)%nat) eqn:Hi; [|discriminate].
    intros [= <-]. ls_simpl.
    destruct (search_found SearchInts hs (ls_hour s) Hs Hi) as (Hin & Hge & Hmin).
    apply (contains_false SearchInts) in Hc; auto.
    set (y := nth (SearchInts hs (ls_hour s)) hs 0) in *.
    pose proof (in_bounds_elem _ _ _ _ Hb Hin).
    assert (y <> ls_hour s) by (intros Heq; rewrite Heq in Hin; contradiction).
    repeat split; try lia; auto.
    intros ms h mi Hh Hmi Hw Hh2 _. specialize (Hmin h Hh2 ltac:(lia)). lia.
Qed.

Lemma hour_check_none hs s :
  field_ok 0 23 hs -> ls_valid s -> hour_check SearchInts hs s = None ->
  forall ms, window_free hs ms (ls_mod s) 1440.
Proof.
  intros [Hs Hb] Hv. unfold hour_check, ls_valid, valid_date, ls_mod in *.
  destruct (contains SearchInts hs (ls_hour s)) eqn:Hc; [discriminate|].
  destruct ((SearchInts hs (ls_hour s) <? length hs)%nat) eqn:Hi; [discriminate|].
  intros _ ms h mi Hh Hmi Hw Hh2 _.
  pose proof (search_none SearchInts hs (ls_hour s) Hs Hi h Hh2). lia.
Qed.

Lemma minute_check_return c s r :
  schedule_wf c -> ls_valid s -> ls_hour s ∈ hours c ->
  minute_check SearchInts c s = Return r ->
  dt_year r = ls_year s /\ dt_month r = ls_month s /\ dt_day r = ls_day s /\
  dt_second r = 0 /\ 0 <= dt_hour r <= 23 /\ 0 <= dt_minute r <= 59 /\
  dt_hour r ∈ hours c /\ dt_minute r ∈ minutes c /\
  ls_mod s <= dt_hour r * 60 + dt_minute r /\
  window_free (hours c) (minutes c) (ls_mod s) (dt_hour r * 60 + dt_minute r).
Proof.
  intros Hwf Hv Hh. destruct (wf_minutes c Hwf) as [Hms Hmb], (wf_hours c Hwf) as [Hhs Hhb].
  unfold minute_check, ls_valid, valid_date, ls_mod in *.
  destruct (contains SearchInts (minutes c) (ls_minute s)) eqn:Hc.
  { intros [= <-]. apply (contains_spec SearchInts) in Hc; auto. unfold to_time. ls_simpl.
    repeat split; try lia; auto. intros h mi _ _ Hw. lia. }
  apply (contains_false SearchInts) in Hc; auto.
  destruct ((SearchInts (minutes c) (ls_minute s) <? length (minutes c))%nat) eqn:Hi.
  { intros [= <-]. unfold to_time. ls_simpl.
    destruct (search_found SearchInts _ _ Hms Hi) as (Hin & Hge & Hmin).
    set (y := nth _ (minutes c) 0) in *.
    pose proof (in_bounds_elem _ _ _ _ Hmb Hin).
    assert (y <> ls_minute s) by (intros Heq; rewrite Heq in Hin; contradiction).
    repeat split; try lia; auto.
    intros h mi Hh2 Hmi Hw _ Hmi2. specialize (Hmin mi Hmi2 ltac:(lia)). lia. }
  pose proof (search_none SearchInts _ _ Hms Hi) as Hall.
  destruct ((SearchInts (hours c) (ls_hour s + 1) <? length (hours c))%nat) eqn:Hj;
    [|discriminate].
  destruct (minutes c) as [|m0 ms] eqn:Em; [discriminate|]. simpl.
  intros [= <-]. unfold to_time. ls_simpl.
  destruct (search_found SearchInts _ _ Hhs Hj) as (Hin & Hge & Hmin).
  set (y := nth _ (hours c) 0) in *.
  pose proof (in_bounds_elem _ _ _ _ Hhb Hin).
  assert (Hm0 : m0 ∈ m0 :: ms) by apply list_elem_of_here.
  pose proof (in_bounds_elem _ _ _ _ Hmb Hm0).
  repeat split; try lia; auto.
  intros h mi Hh2 Hmi Hw Hhin Hmin2.
  destruct (Z.lt_total h (ls_hour s)) as [|[->|Hgt]]; [lia| |].
  - specialize (Hall mi Hmin2). lia.
  - destruct (Z.lt_total h y) as [|[->|]]; [specialize (Hmin h Hhin ltac:(lia)); lia| |lia].
    apply elem_of_cons in Hmin2 as [->|Hmin2]; [lia|].
    pose proof (strictly_sorted_head_min m0 ms mi Hms Hmin2). lia.
Qed.

Lemma minute_check_continue c s s' :
  schedule_wf c -> ls_valid s -> minute_check SearchInts c s = Continue s' ->
  s' = to_next_day s /\ window_free (hours c) (minutes c) (ls_mod s) 1440.
Proof.
  intros Hwf Hv. destruct (wf_minutes c Hwf) as [Hms Hmb], (wf_hours c Hwf) as [Hhs Hhb].
  unfold minute_check, ls_valid, valid_date, ls_mod in *.
  destruct (contains SearchInts (minutes c) (ls_minute s)) eqn:Hc; [discriminate|].
  apply (contains_false SearchInts) in Hc; auto.
  destruct ((SearchInts (minutes c) (ls_minute s) <? length (minutes c))%nat) eqn:Hi;
    [discriminate|].
  destruct ((SearchInts (hours c) (ls_hour s + 1) <? length (hours c))%nat) eqn:Hj.
  { destruct (minutes c !! 0%nat); discriminate. }
  intros [= <-]. split; [reflexivity|].
  intros h mi Hh Hmi Hw Hhin Hmin.
  pose proof (search_none SearchInts _ _ Hms Hi mi Hmin).
  pose proof (search_none SearchInts _ _ Hhs Hj h Hhin). lia.
Qed.

Lemma minute_check_panic c s :
  minute_check SearchInts c s = Panic -> minutes c = [].
Proof.
  unfold minute_check. repeat case_match; try discriminate.
  intros _. destruct (minutes c); simpl in *; congruence.
Qed.
End PassLemmas.

Lemma window_free_trans hs ms a b d :
  window_free hs ms a b -> window_free hs ms b d -> window_free hs ms a d.
Proof.
  intros H1 H2 h mi Hh Hmi Hw Hhs Hms.
  destruct (Z_lt_le_dec (h * 60 + mi) b); [eapply H1|eapply H2]; eauto; lia.
Qed.

Lemma carry_rank s : ls_wf s -> ls_rank s <= ls_rank (carry s).
Proof.
  intros Hw. destruct (carry_wf s Hw) as (Hw' & _ & Hy & Hm & Hd).
  unfold ls_rank. rewrite Hy, Hm.
  destruct Hd as [Hd|[Hd Hle]]; rewrite Hd; [lia|].
  rewrite day_number_succ. zcase; lia.
Qed.

Lemma ls_stamp_mod s :
  ls_stamp s = day_number (ls_year s) (ls_month s) (ls_day s) * 1440 + ls_mod s.
Proof. unfold ls_stamp, ls_mod. lia. Qed.

Section BodyLemmas.
Context (SearchInts : list Z -> Z -> nat) `{!SortedSearch SearchInts}.
Context (c : CronSchedule) (Hwf : schedule_wf c).

(** The checks that precede the hour check, on normalised variables. *)
Lemma day_accepted s :
  ls_wf s -> ls_minute s <= 59 ->
  (daysIn (ls_month s) (ls_year s) <? ls_day s) = false ->
  contains SearchInts (months c) (ls_month s) = true ->
  dayMatches SearchInts (ls_day s) (weekday (ls_year s) (ls_month s) (ls_day s))
    (days c) (weekDays c) = true ->
  ls_valid s /\ ls_month s ∈ months c /\
  day_rule (days c) (weekDays c) (ls_day s) (weekday (ls_year s) (ls_month s) (ls_day s)).
Proof.
  intros Hw Hmi Hd Hm Hdm. apply Z.ltb_ge in Hd.
  apply (contains_spec SearchInts) in Hm; [|apply (wf_months c Hwf)].
  apply (dayMatches_spec SearchInts) in Hdm; [|apply (wf_days c Hwf)|apply (wf_weekDays c Hwf)].
  unfold ls_wf, ls_valid, valid_date in *. repeat split; auto; lia.
Qed.

Lemma body_continue s s' :
  ls_wf s -> NextRun_body SearchInts c s = Continue s' ->
  ls_wf s' /\ skip_free c (ls_stamp s) (ls_stamp s') /\
  ls_stamp s <= ls_stamp s' /\ ls_rank s < ls_rank s'.
Proof.
  intros Hw. unfold NextRun_body.
  destruct (carry_wf s Hw) as (Hn & Hmi & _ & _ & _).
  rewrite <- (carry_stamp s Hw). pose proof (carry_rank s Hw) as Hr.
  set (n := carry s) in *. clearbody n. clear Hw.
  pose proof (daysIn_bounds (ls_month n) (ls_year n)).
  assert (Hm : 1 <= ls_month n <= 12) by (unfold ls_wf in Hn; lia).
  destruct (daysIn (ls_month n) (ls_year n) <? ls_day n) eqn:Hd.
  { (* the day ran past the end of the month *)
    intros [= <-]. apply Z.ltb_lt in Hd.
    assert (ls_day n = daysIn (ls_month n) (ls_year n) + 1 /\ ls_hour n = 0 /\ ls_minute n = 0)
      as (Hd' & Hh0 & Hm0) by (unfold ls_wf in Hn; lia).
    rewrite to_next_month_stamp, to_next_month_rank by lia.
    split; [apply to_next_month_wf; lia|]. unfold ls_stamp, ls_rank in *.
    rewrite Hd', Hh0, Hm0 in *. rewrite Z.eqb_refl in Hr.
    split; [apply skip_free_le; lia|]. lia. }
  assert (Hv : ls_valid n) by (apply Z.ltb_ge in Hd; unfold ls_wf, ls_valid, valid_date in *; lia).
  assert (Hrn : ls_rank n = 2 * day_number (ls_year n) (ls_month n) (ls_day n)).
  { unfold ls_rank. destruct Hv as [[_ ?] _]. zcase; lia. }
  pose proof (to_next_day_rank n Hv). pose proof (to_next_day_stamp n).
  pose proof (ls_stamp_mod n). assert (0 <= ls_mod n < 1440) by (unfold ls_valid, ls_mod in *; lia).
  destruct (contains SearchInts (months c) (ls_month n)) eqn:Hmc; simpl.
  2:{ (* the month is not in the month set *)
    intros [= <-]. apply (contains_false SearchInts) in Hmc; [|apply (wf_months c Hwf)].
    rewrite to_next_month_rank by lia. split; [apply to_next_month_wf; lia|].
    split; [exact (month_skip c n Hv Hmc)|]. rewrite to_next_month_stamp by lia.
    destruct Hv as [[_ ?] _]. rewrite !day_number_offset in *. lia. }
  destruct (dayMatches SearchInts _ _ (days c) (weekDays c)) eqn:Hdm; simpl.
  2:{ (* the day does not match *)
    intros [= <-]. split; [apply to_next_day_wf, Hv|].
    split; [|lia]. apply day_skip; auto.
    rewrite <- (dayMatches_spec SearchInts) by (apply Hwf). congruence. }
  destruct (hour_check SearchInts (hours c) n) as [n'|] eqn:Hh.
  - destruct (hour_check_some SearchInts (hours c) n n' (wf_hours c Hwf) Hv Hh)
      as (Hy & Hmo & Hda & Hv' & Hin & Hle & Hwin).
    intros Hmc'. destruct (minute_check_continue SearchInts c n' _ Hwf Hv' Hmc') as [-> Hwin'].
    split; [apply to_next_day_wf, Hv'|]. rewrite to_next_day_stamp, Hy, Hmo, Hda.
    split; [|pose proof (to_next_day_rank n' Hv'); unfold ls_rank, to_next_day in *; ls_simpl;
              rewrite Hy, Hmo, Hda in *; lia].
    rewrite ls_stamp_mod. replace ((day_number _ _ _ + 1) * 1440)
      with (day_number (ls_year n) (ls_month n) (ls_day n) * 1440 + 1440) by lia.
    apply window_skip; auto; try lia.
    eapply window_free_trans; [apply Hwin|exact Hwin'].
  - intros [= <-]. split; [apply to_next_day_wf, Hv|]. split; [|lia].
    rewrite to_next_day_stamp, ls_stamp_mod. replace ((day_number _ _ _ + 1) * 1440)
      with (day_number (ls_year n) (ls_month n) (ls_day n) * 1440 + 1440) by lia.
    apply window_skip; auto; try lia.
    apply (hour_check_none SearchInts (hours c) n (wf_hours c Hwf) Hv Hh).
Qed.

Lemma body_return s r :
  ls_wf s -> NextRun_body SearchInts c s = Return r ->
  valid_dt r /\ dt_second r = 0 /\ cron_match c r /\
  ls_stamp s <= stamp r /\ skip_free c (ls_stamp s) (stamp r).
Proof.
  intros Hw. unfold NextRun_body.
  destruct (carry_wf s Hw) as (Hn & Hmi & _ & _ & _).
  rewrite <- (carry_stamp s Hw). set (n := carry s) in *. clearbody n. clear Hw.
  destruct (daysIn (ls_month n) (ls_year n) <? ls_day n) eqn:Hd; [discriminate|].
  destruct (contains SearchInts (months c) (ls_month n)) eqn:Hmc; [|discriminate].
  destruct (dayMatches SearchInts _ _ (days c) (weekDays c)) eqn:Hdm; [|discriminate]. simpl.
  destruct (day_accepted n Hn Hmi Hd Hmc Hdm) as (Hv & Hmon & Hday).
  destruct (hour_check SearchInts (hours c) n) as [n'|] eqn:Hh; [|discriminate].
  destruct (hour_check_some SearchInts (hours c) n n' (wf_hours c Hwf) Hv Hh)
    as (Hy & Hmo & Hda & Hv' & Hin & Hle & Hwin).
  intros Hr. destruct (minute_check_return SearchInts c n' r Hwf Hv' Hin Hr)
    as (Hry & Hrm & Hrd & Hrs & Hrh & Hrmi & Hrhin & Hrmin & Hle' & Hwin').
  rewrite Hy, Hmo, Hda in *.
  destruct Hv as [Hvd Hhm].
  assert (Hst : stamp r = day_number (ls_year n) (ls_month n) (ls_day n) * 1440 +
                          (dt_hour r * 60 + dt_minute r))
    by (unfold stamp, dt_day_number; rewrite Hry, Hrm, Hrd; lia).
  split; [unfold valid_dt; rewrite Hry, Hrm, Hrd; split; [exact Hvd|lia]|].
  split; [exact Hrs|].
  split; [unfold cron_match, dt_weekday; rewrite Hry, Hrm, Hrd; auto|].
  rewrite ls_stamp_mod, Hst. unfold ls_mod in *. split; [lia|].
  apply window_skip; [split; auto|unfold ls_mod; lia|lia|].
  eapply window_free_trans; [apply Hwin|exact Hwin'].
Qed.
End BodyLemmas.

Lemma body_panic SearchInts c s : NextRun_body SearchInts c s = Panic -> minutes c = [].
Proof.
  unfold NextRun_body. repeat case_match; try discriminate.
  apply minute_check_panic.
Qed.

Lemma loop_no_panic SearchInts c fuel s :
  minutes c <> [] -> NextRun_loop SearchInts fuel c s <> Some Panicked.
Proof.
  intros Hne. revert s. induction fuel as [|fuel IH]; intros s; simpl; [discriminate|].
  destruct (NextRun_body SearchInts c s) eqn:Hb; [apply IH|discriminate|].
  apply body_panic in Hb. contradiction.
Qed.

Lemma minute_check_empty SearchInts c s r : minutes c = [] -> minute_check SearchInts c s <> Return r.
Proof.
  intros Hm. unfold minute_check, contains. rewrite Hm. simpl.
  destruct (SearchInts [] (ls_minute s) <? 0)%nat eqn:E; [apply Nat.ltb_lt in E; lia|].
  simpl. case_match; discriminate.
Qed.

(** ** Theorems: when [NextRun] panics *)

(** C3 *)
(** [NextRun] never panics on a schedule whose minute set is non-empty,
    whatever the other fields hold. *)
Theorem NextRun_no_panic c now fuel :
  minutes c <> [] -> NextRun search_ints fuel c now <> Some Panicked.
Proof. intros Hne. apply loop_no_panic, Hne. Qed.

(** C5 *)
(** With an empty minute set (a [NewCronSchedule] call with an empty
    minute field) [NextRun] never returns a time: each call either loops
    forever or panics on [c.minutes[0]]. *)
Theorem NextRun_empty_minutes c now fuel r :
  minutes c = [] -> NextRun search_ints fuel c now <> Some (Fired r).
Proof.
  intros Hm. unfold NextRun. generalize (start now).
  induction fuel as [|fuel IH]; intros s; simpl; [discriminate|].
  destruct (NextRun_body search_ints c s) as [s'|t|] eqn:Hb; [apply IH| |discriminate].
  unfold NextRun_body in Hb. repeat case_match; try discriminate.
  intros [= ->]. exact (minute_check_empty search_ints c _ r Hm Hb).
Qed.

(** ** Witnesses *)

Lemma NextRun_no_panic_witness :
  NextRun search_ints 5 test_every_minute test_now <> Some Panicked.
Proof. apply NextRun_no_panic. discriminate. Defined.

Lemma NextRun_empty_minutes_witness :
  NextRun search_ints 3 (mkCronSchedule [] (zrange 0 23) (zrange 1 31) (zrange 1 12) (zrange 0 6))
    test_now <> Some (Fired (mk_datetime 2025 1 1 12 1 0)).
Proof. apply NextRun_empty_minutes. reflexivity. Defined.
