(* ===== verification/NextRunSpec.v ===== *)
(** * NextRunSpec: what [NextRun] computes

    The contract of [NextRun] ([is_next]): the result is the earliest
    second-zero instant strictly after [now] at which the schedule fires.
    The loop invariant [loop_inv] (no firing minute between the first
    candidate and the loop variables) holds on every reachable state of the
    loop; from it follow soundness for any fuel, completeness with an
    explicit bound on the number of passes, and non-termination when
    nothing matches.  The panic theorems are in NextRun.v. *)

From S2P Require Import Prelude GoSort Calendar Schedule NextRun.

(** [r] is the first firing instant of [c] strictly after [now]. *)
Definition is_next (c : CronSchedule) (now r : datetime) : Prop :=
  valid_dt r /\ dt_second r = 0 /\ cron_match c r /\ instant now < instant r /\
  forall t, valid_dt t -> dt_second t = 0 -> cron_match c t ->
            instant now < instant t -> instant r <= instant t.

(** Some valid instant with zero seconds strictly after [now] fires. *)
Definition fires_after (c : CronSchedule) (now : datetime) : Prop :=
  exists t, valid_dt t /\ dt_second t = 0 /\ instant now < instant t /\ cron_match c t.

(** Loop invariant, relative to the first candidate minute [p0]. *)
Record loop_inv (c : CronSchedule) (p0 : Z) (s : loop_state) : Prop := {
  inv_wf : ls_wf s;
  inv_after : p0 <= ls_stamp s;
  inv_skip : skip_free c p0 (ls_stamp s)
}.

(** Passes enough for [NextRun] to reach a firing instant [T]. *)
Definition next_run_fuel (now T : datetime) : nat :=
  Z.to_nat (2 * (dt_day_number T - dt_day_number now) + 1).

(** A schedule no date satisfies: midnight of February 30th. *)
Definition feb30 : CronSchedule := mkCronSchedule [0] [0] [30] [2] (zrange 0 6).

Section Spec.
Context (SearchInts : list Z -> Z -> nat) `{!SortedSearch SearchInts}.
Context (c : CronSchedule) (Hwf : schedule_wf c).

Lemma start_inv now : valid_dt now -> loop_inv c (stamp now + 1) (start now).
Proof.
  intros Hv. pose proof (daysIn_bounds (dt_month now) (dt_year now)).
  destruct Hv as ((Hm & Hd) & Hh & Hmi & _).
  split; unfold ls_wf, start, ls_stamp, stamp, dt_day_number; ls_simpl; try lia.
  apply skip_free_le. lia.
Qed.

Lemma step_inv p0 s s' : loop_inv c p0 s -> loop_step SearchInts c s s' -> loop_inv c p0 s'.
Proof.
  intros [Hw Ha Hs] Hstep. inversion Hstep as [? ? Hb]; subst.
  destruct (body_continue SearchInts c Hwf s s' Hw Hb) as (Hw' & Hsk & Hle & _).
  split; [exact Hw'|lia|]. eapply skip_free_trans; eauto.
Qed.

Lemma reachable_inv now s :
  valid_dt now -> reachable SearchInts c now s -> loop_inv c (stamp now + 1) s.
Proof.
  intros Hv. induction 1 as [|s s' _ IH Hstep]; [apply start_inv, Hv|].
  eapply step_inv; eauto.
Qed.

Lemma loop_sound fuel p0 s r :
  loop_inv c p0 s -> NextRun_loop SearchInts fuel c s = Some (Fired r) ->
  valid_dt r /\ dt_second r = 0 /\ cron_match c r /\ p0 <= stamp r /\ skip_free c p0 (stamp r).
Proof.
  revert s. induction fuel as [|fuel IH]; intros s Hi; simpl; [discriminate|].
  destruct (NextRun_body SearchInts c s) as [s'|t|] eqn:Hb; [| |discriminate].
  - apply IH. eapply step_inv; eauto. constructor. exact Hb.
  - intros [= <-]. destruct Hi as [Hw Ha Hs].
    destruct (body_return SearchInts c Hwf s t Hw Hb) as (Hv & Hsec & Hm & Hle & Hsk).
    split; [exact Hv|]. split; [exact Hsec|]. split; [exact Hm|]. split; [lia|].
    eapply skip_free_trans; eauto.
Qed.

Lemma rank_bound p0 s T :
  loop_inv c p0 s -> valid_dt T -> cron_match c T -> p0 <= stamp T ->
  ls_rank s <= 2 * dt_day_number T.
Proof.
  intros [Hw Ha Hs] HT Hm Hle. specialize (Hs T HT Hm Hle).
  pose proof (stamp_day T HT). unfold ls_rank, ls_stamp, ls_wf in *.
  destruct (_ =? _); lia.
Qed.

Lemma loop_complete p0 T :
  valid_dt T -> cron_match c T -> p0 <= stamp T -> minutes c <> [] ->
  forall n s, loop_inv c p0 s -> (Z.to_nat (2 * dt_day_number T - ls_rank s) < n)%nat ->
  exists r, NextRun_loop SearchInts n c s = Some (Fired r).
Proof.
  intros HT Hm Hle Hne n. induction n as [|n IH]; intros s Hi Hn; [lia|]. simpl.
  destruct (NextRun_body SearchInts c s) as [s'|t|] eqn:Hb; [|eauto|].
  - destruct (body_continue SearchInts c Hwf s s' (inv_wf _ _ _ Hi) Hb) as (_ & _ & _ & Hr).
    assert (Hi' : loop_inv c p0 s') by (eapply step_inv; eauto; constructor; exact Hb).
    pose proof (rank_bound p0 s' T Hi' HT Hm Hle).
    apply IH; [exact Hi'|lia].
  - apply body_panic in Hb. contradiction.
Qed.
End Spec.

Lemma instant_after now t :
  valid_dt now -> dt_second t = 0 -> instant now < instant t <-> stamp now + 1 <= stamp t.
Proof. unfold valid_dt, instant. lia. Qed.

Lemma start_rank now : valid_dt now -> ls_rank (start now) = 2 * dt_day_number now.
Proof.
  intros ((_ & Hd) & _). unfold ls_rank, start, dt_day_number. ls_simpl. zcase; lia.
Qed.

Lemma next_run_is_next c now fuel r :
  schedule_wf c -> valid_dt now -> NextRun search_ints fuel c now = Some (Fired r) -> is_next c now r.
Proof.
  intros Hwf Hv Hrun.
  destruct (loop_sound search_ints c Hwf fuel (stamp now + 1) (start now) r
              (start_inv c now Hv) Hrun) as (Hr & Hs & Hm & Hle & Hsk).
  split; [exact Hr|]. split; [exact Hs|]. split; [exact Hm|].
  split; [apply instant_after; auto|].
  intros t Ht Hts Htm Hlt. apply (instant_after now t Hv Hts) in Hlt.
  specialize (Hsk t Ht Htm Hlt). unfold instant. lia.
Qed.

Lemma feb30_never t : valid_dt t -> ~ cron_match feb30 t.
Proof.
  intros ((Hm & Hd) & _) (_ & _ & Hmo & Hday).
  apply list_elem_of_singleton in Hmo. unfold day_rule in Hday.
  rewrite decide_False, decide_True in Hday by (vm_compute; intuition congruence).
  apply list_elem_of_singleton in Hday. unfold daysIn in Hd. rewrite Hmo in Hd.
  simpl in Hd. destruct (isLeap _); lia.
Qed.

Lemma next_run_complete c now T :
  schedule_wf c -> valid_dt now -> minutes c <> [] ->
  valid_dt T -> dt_second T = 0 -> cron_match c T -> instant now < instant T ->
  exists r, NextRun search_ints (next_run_fuel now T) c now = Some (Fired r) /\ is_next c now r.
Proof.
  intros Hwf Hv Hne HT HTs HTm Hlt. apply (instant_after now T Hv HTs) in Hlt.
  destruct (loop_complete search_ints c Hwf (stamp now + 1) T HT HTm Hlt Hne
              (next_run_fuel now T) (start now) (start_inv c now Hv)) as [r Hr].
  { rewrite start_rank by exact Hv. unfold next_run_fuel.
    pose proof (stamp_day T HT). pose proof (stamp_day now Hv). lia. }
  exists r. split; [exact Hr|]. eapply next_run_is_next; eauto.
Qed.

(** ** Theorems about the program: [NextRun] with Go's [sort.SearchInts] *)

(** C1 *)
(** Soundness: whatever fuel is given, a time returned by [NextRun] is the
    earliest instant with zero seconds strictly after [now] at which every
    field of the schedule matches, day of month and day of week combined by
    the cron rule. *)
Theorem NextRun_sound c now fuel r :
  schedule_wf c -> valid_dt now -> NextRun search_ints fuel c now = Some (Fired r) -> is_next c now r.
Proof. apply next_run_is_next. Qed.

(** C2 *)
(** Termination and completeness: when some valid instant [T] with zero
    seconds after [now] fires, [NextRun] returns within
    [2 * (days from now to T) + 1] passes of its loop, and what it returns is
    the first firing instant after [now]. *)
Theorem NextRun_complete c now T :
  schedule_wf c -> valid_dt now -> minutes c <> [] ->
  valid_dt T -> dt_second T = 0 -> cron_match c T -> instant now < instant T ->
  exists r, NextRun search_ints (next_run_fuel now T) c now = Some (Fired r) /\ is_next c now r.
Proof. apply next_run_complete. Qed.

(** C4 *)
(** [NextRun] returns exactly when the schedule fires again: on a
    well-formed schedule with a non-empty minute set, every fuel runs out
    (the Go loop never returns) if and only if no instant after [now]
    fires, as for day 30 in February. *)
Theorem NextRun_never_fires c now :
  schedule_wf c -> valid_dt now -> minutes c <> [] ->
  (forall fuel, NextRun search_ints fuel c now = None) <-> ~ fires_after c now.
Proof.
  intros Hwf Hv Hne. split.
  - intros Hnone (T & HT & HTs & HTlt & HTm).
    destruct (next_run_complete c now T Hwf Hv Hne HT HTs HTm HTlt) as (r & Hr & _).
    by rewrite Hnone in Hr.
  - intros Hno fuel.
    destruct (NextRun search_ints fuel c now) as [[r|]|] eqn:Hr; [|exfalso|reflexivity].
    + destruct (next_run_is_next c now fuel r Hwf Hv Hr) as (Hr' & Hs & Hm & Hlt & _).
      exfalso. apply Hno. by exists r.
    + exact (loop_no_panic search_ints c fuel (start now) Hne Hr).
Qed.

(** ** Witnesses *)

Lemma NextRun_sound_witness :
  is_next test_next_week test_now (mk_datetime 2025 1 5 0 0 0).
Proof.
  apply (NextRun_sound test_next_week test_now 20).
  - apply schedule_wf_intro. vm_compute. reflexivity.
  - decide_goal.
  - vm_compute. reflexivity.
Defined.

Lemma NextRun_complete_witness :
  exists r, NextRun search_ints (next_run_fuel test_now (mk_datetime 2025 1 2 0 0 0))
              test_next_day test_now = Some (Fired r) /\ is_next test_next_day test_now r.
Proof.
  apply (NextRun_complete test_next_day test_now (mk_datetime 2025 1 2 0 0 0)).
  - apply schedule_wf_intro. vm_compute. reflexivity.
  - decide_goal.
  - discriminate.
  - decide_goal.
  - reflexivity.
  - decide_goal.
  - vm_compute. reflexivity.
Defined.

Lemma NextRun_never_fires_witness :
  (forall fuel, NextRun search_ints fuel feb30 test_now = None) <-> ~ fires_after feb30 test_now.
Proof.
  apply NextRun_never_fires; [apply schedule_wf_intro; vm_compute; reflexivity|decide_goal|discriminate].
Defined.

