(* ===== verification/UTF8.v ===== *)
(** * UTF8: Go's conversions between strings and rune slices

    [sendMessage] ([internal/api/tele.go]) turns the message into runes
    with [[]rune(message)] and every part back into a string with
    [string(textRunes[:k])].  Go compiles the two conversions to the
    runtime's [stringtoslicerune] (the [range] loop over a string, which
    decodes non-ASCII bytes with [decoderune]) and [slicerunetostring]
    (which appends [encoderune] of each rune); both live in
    [runtime/utf8.go] and [runtime/string.go] of the Go distribution.  A Go
    string is its bytes, a list of [Z] in [0..255]; a rune is an [int32], a
    [Z].  Bit operations are written as the runtime writes them, with
    [Z.land], [Z.lor], [Z.shiftl] and [Z.shiftr].

    The theorems: the decoder consumes one to four bytes and yields only
    valid runes; the encoder yields bytes and replaces an invalid rune by
    U+FFFD; and decoding the encoding of any [int32] runes gives them back,
    each invalid one replaced by U+FFFD.  The encoding round trip is proved
    by reflection: the check of every rune from U+0080 to U+10FFFF is a
    boolean computed by [vm_compute]. *)

From S2P Require Import Prelude.

(** ** Constants of [runtime/utf8.go] *)

Definition runeError : Z := 0xFFFD.
Definition runeSelf : Z := 0x80.
Definition maxRune : Z := 0x10FFFF.
Definition surrogateMin : Z := 0xD800.
Definition surrogateMax : Z := 0xDFFF.
Definition t2 : Z := 0xC0.
Definition t3 : Z := 0xE0.
Definition t4 : Z := 0xF0.
Definition t5 : Z := 0xF8.
Definition tx : Z := 0x80.
Definition maskx : Z := 0x3F.
Definition mask2 : Z := 0x1F.
Definition mask3 : Z := 0x0F.
Definition mask4 : Z := 0x07.
Definition rune1Max : Z := 0x7F.
Definition rune2Max : Z := 0x7FF.
Definition rune3Max : Z := 0xFFFF.
Definition locb : Z := 0x80.
Definition hicb : Z := 0xBF.

(** Go's conversion [byte(x)]: the low eight bits. *)
Definition byte (x : Z) : Z := Z.land x 255.

(** Go's conversion [uint32(x)]: the low 32 bits. *)
Definition uint32 (x : Z) : Z := Z.land x 0xFFFFFFFF.

(** [locb <= b && b <= hicb]: a continuation byte. *)
Definition is_cont (b : Z) : bool := (locb <=? b) && (b <=? hicb).

(** ** [encoderune] *)

(** [encoderune(p, r)]: the switch on [i := uint32(r)]; an out-of-range
    rune or a surrogate becomes [runeError] and falls through to the
    three-byte case. *)
Definition encoderune (r : Z) : list Z :=
  let i := uint32 r in
  let three r := [Z.lor t3 (byte (Z.shiftr r 12));
                  Z.lor tx (Z.land (byte (Z.shiftr r 6)) maskx);
                  Z.lor tx (Z.land (byte r) maskx)] in
  if i <=? rune1Max then [byte r]
  else if i <=? rune2Max then [Z.lor t2 (byte (Z.shiftr r 6)); Z.lor tx (Z.land (byte r) maskx)]
  else if (maxRune <? i) || (surrogateMin <=? i) && (i <=? surrogateMax) then three runeError
  else if i <=? rune3Max then three r
  else [Z.lor t4 (byte (Z.shiftr r 18)); Z.lor tx (Z.land (byte (Z.shiftr r 12)) maskx);
        Z.lor tx (Z.land (byte (Z.shiftr r 6)) maskx); Z.lor tx (Z.land (byte r) maskx)].

(** [slicerunetostring]: [string(rs)], the encodings one after the other. *)
Definition slicerunetostring (rs : list Z) : list Z := concat (map encoderune rs).

(** ** [decoderune] *)

(** [decoderune(s, k)] on the bytes [s[k:]]: the rune and the number of
    bytes it takes ([pos - k]).  Every failed test ends in the final
    [return runeError, k + 1]. *)
Definition decoderune (s : list Z) : Z * nat :=
  match s with
  | [] => (runeError, 1%nat)
  | s0 :: s' =>
      if (t2 <=? s0) && (s0 <? t3) then
        match s' with
        | s1 :: _ =>
            if is_cont s1 then
              let r := Z.lor (Z.shiftl (Z.land s0 mask2) 6) (Z.land s1 maskx) in
              if rune1Max <? r then (r, 2%nat) else (runeError, 1%nat)
            else (runeError, 1%nat)
        | _ => (runeError, 1%nat)
        end
      else if (t3 <=? s0) && (s0 <? t4) then
        match s' with
        | s1 :: s2 :: _ =>
            if is_cont s1 && is_cont s2 then
              let r := Z.lor (Z.lor (Z.shiftl (Z.land s0 mask3) 12) (Z.shiftl (Z.land s1 maskx) 6))
                             (Z.land s2 maskx) in
              if (rune2Max <? r) && negb ((surrogateMin <=? r) && (r <=? surrogateMax)) then (r, 3%nat)
              else (runeError, 1%nat)
            else (runeError, 1%nat)
        | _ => (runeError, 1%nat)
        end
      else if (t4 <=? s0) && (s0 <? t5) then
        match s' with
        | s1 :: s2 :: s3 :: _ =>
            if is_cont s1 && is_cont s2 && is_cont s3 then
              let r := Z.lor (Z.lor (Z.lor (Z.shiftl (Z.land s0 mask4) 18) (Z.shiftl (Z.land s1 maskx) 12))
                                    (Z.shiftl (Z.land s2 maskx) 6)) (Z.land s3 maskx) in
              if (rune3Max <? r) && (r <=? maxRune) then (r, 4%nat) else (runeError, 1%nat)
            else (runeError, 1%nat)
        | _ => (runeError, 1%nat)
        end
      else (runeError, 1%nat)
  end.

(** [for _, r := range s]: a byte below [runeSelf] is its own rune, any
    other byte starts a [decoderune].  The loop consumes at least one byte
    per pass, so [length s] passes are enough ([decode_loop_fuel]). *)
Fixpoint decode_loop (fuel : nat) (s : list Z) : list Z :=
  match fuel with
  | O => []
  | S f =>
      match s with
      | [] => []
      | c :: s' =>
          if c <? runeSelf then c :: decode_loop f s'
          else let '(r, w) := decoderune s in r :: decode_loop f (drop w s)
      end
  end.

(** [stringtoslicerune]: [[]rune(s)]. *)
Definition stringtoslicerune (s : list Z) : list Z := decode_loop (length s) s.

(** ** Valid runes and bytes *)

(** [utf8.ValidRune]. *)
Definition valid_rune (r : Z) : bool :=
  (0 <=? r) && (r <? surrogateMin) || (surrogateMax <? r) && (r <=? maxRune).

(** The rune a conversion keeps: a valid rune, or U+FFFD in its place. *)
Definition rune_or_error (r : Z) : Z := if valid_rune r then r else runeError.

Definition is_byte (b : Z) : Prop := 0 <= b < 256.
Definition is_rune32 (r : Z) : Prop := -2 ^ 31 <= r < 2 ^ 31.

(** ** Lemmas on bits *)

Lemma lor_shiftl_low a b n :
  0 <= n -> 0 <= b < 2 ^ n -> Z.lor (Z.shiftl a n) b = a * 2 ^ n + b.
Proof.
  intros Hn Hb. rewrite <- (Z.shiftl_mul_pow2 a n Hn), <- Z.add_lor_land.
  enough (Z.land (Z.shiftl a n) b = 0) by lia.
  apply Z.bits_inj'. intros i Hi. rewrite Z.land_spec, Z.bits_0, Z.shiftl_spec by lia.
  destruct (Z.ltb_spec i n).
  - by rewrite Z.testbit_neg_r by lia.
  - rewrite <- (Z.mod_small b (2 ^ n)), Z.mod_pow2_bits_high by lia. apply andb_false_r.
Qed.

Lemma lor_lt_pow2 a b n :
  0 < n -> 0 <= a < 2 ^ n -> 0 <= b < 2 ^ n -> 0 <= Z.lor a b < 2 ^ n.
Proof.
  intros Hn Ha Hb. split; [apply Z.lor_nonneg; lia|].
  assert (Hlog : forall x, 0 <= x < 2 ^ n -> Z.log2 x < n).
  { intros x Hx. destruct (Z.eq_dec x 0) as [->|]; [simpl; lia|]. apply Z.log2_lt_pow2; lia. }
  destruct (Z.eq_dec (Z.lor a b) 0) as [->|]; [lia|].
  apply Z.log2_lt_pow2; [pose proof (proj2 (Z.lor_nonneg a b)); lia|].
  rewrite Z.log2_lor by lia. apply Z.max_lub_lt; apply Hlog; lia.
Qed.

Lemma byte_is_byte x : is_byte (byte x).
Proof. unfold is_byte, byte. change 255 with (Z.ones 8). rewrite Z.land_ones by lia. apply Z.mod_pos_bound. lia. Qed.

(** A lead or continuation byte: a tag [t] or-ed with payload bits. *)
Lemma tag_is_byte t x m k :
  is_byte t -> m = Z.ones k -> 0 <= k <= 8 -> is_byte (Z.lor t (Z.land x m)).
Proof.
  intros Ht -> Hk. unfold is_byte in *. apply (lor_lt_pow2 _ _ 8); [lia|lia|].
  rewrite Z.land_ones by lia. pose proof (Z.mod_pos_bound x (2 ^ k)).
  assert (2 ^ k <= 2 ^ 8) by (apply Z.pow_le_mono_r; lia). lia.
Qed.

(** ** Lemmas on the decoder *)

Lemma decoderune_width s : (1 <= snd (decoderune s) <= 4)%nat.
Proof. unfold decoderune. repeat case_match; simpl; lia. Qed.

(** A successful decoding reads only the bytes it consumes. *)
Lemma decoderune_app s rest r w :
  decoderune s = (r, w) -> (1 < w)%nat -> decoderune (s ++ rest) = (r, w).
Proof.
  destruct s as [|s0 [|s1 [|s2 [|s3 s]]]]; unfold decoderune; simpl;
    repeat case_match; intros; simplify_eq; try lia; reflexivity.
Qed.

Lemma decode_loop_fuel f1 f2 s :
  (length s <= f1)%nat -> (length s <= f2)%nat -> decode_loop f1 s = decode_loop f2 s.
Proof.
  revert f2 s. induction f1 as [|f1 IH]; intros [|f2] [|c s] H1 H2; cbn [decode_loop length] in *; try lia; try reflexivity.
  pose proof (decoderune_width (c :: s)) as Hw.
  destruct (c <? runeSelf); [f_equal; apply IH; lia|].
  destruct (decoderune (c :: s)) as [r w]. cbn [snd] in Hw. f_equal.
  apply IH; rewrite length_drop; cbn [length]; lia.
Qed.

(** ** The encoding of every rune, checked by evaluation *)

(** What [stringtoslicerune] needs of the encoding of a non-ASCII rune:
    its first byte is not ASCII, and [decoderune] reads the rune back from
    all of its bytes. *)
Definition encode_check (r : Z) : bool :=
  let bs := encoderune r in
  match bs, decoderune bs with
  | b0 :: _, (r', w) => (runeSelf <=? b0) && (r' =? r) && (w =? length bs)%nat && (1 <? w)%nat
  | _, _ => false
  end.

Lemma encode_check_low : forallb encode_check (zrange 0x80 0xD7FF) = true.
Proof. vm_compute. exact eq_refl. Qed.

Lemma encode_check_high : forallb encode_check (zrange 0xE000 maxRune) = true.
Proof. vm_compute. exact eq_refl. Qed.

Lemma encode_check_valid r : valid_rune r = true -> runeSelf <= r -> encode_check r = true.
Proof.
  unfold valid_rune, runeSelf, surrogateMin, surrogateMax. intros Hv Hr.
  destruct (Z.ltb_spec r 0xD800).
  - apply (forallb_zrange _ _ _ encode_check_low). lia.
  - apply (forallb_zrange _ _ _ encode_check_high). unfold maxRune in *. zcase; simpl in Hv; lia.
Qed.

Lemma encoderune_ascii r : 0 <= r < runeSelf -> encoderune r = [r].
Proof.
  unfold runeSelf. intros Hr. unfold encoderune, byte, uint32.
  change 0xFFFFFFFF with (Z.ones 32). rewrite Z.land_ones, Z.mod_small by lia.
  destruct (Z.leb_spec r rune1Max); [|unfold rune1Max in *; lia].
  change 255 with (Z.ones 8). rewrite Z.land_ones, Z.mod_small by lia. reflexivity.
Qed.

(** An invalid [int32] rune is encoded as U+FFFD. *)
Lemma encoderune_invalid r :
  is_rune32 r -> valid_rune r = false -> encoderune r = encoderune runeError.
Proof.
  unfold is_rune32, valid_rune. intros Hr Hv. unfold encoderune at 1.
  assert (Hi : r mod 2 ^ 32 = if r <? 0 then r + 2 ^ 32 else r).
  { destruct (Z.ltb_spec r 0).
    - rewrite <- (Z.mod_add _ 1) by lia. apply Z.mod_small. lia.
    - apply Z.mod_small. lia. }
  unfold uint32. change 0xFFFFFFFF with (Z.ones 32). rewrite Z.land_ones, Hi by lia.
  unfold surrogateMin, surrogateMax, maxRune, rune1Max, rune2Max, rune3Max in *.
  zcase; simpl in *; try lia; reflexivity.
Qed.

(** One valid rune read back by the [range] loop, whatever follows it. *)
Lemma stringtoslicerune_cons r rest :
  valid_rune r = true -> stringtoslicerune (encoderune r ++ rest) = r :: stringtoslicerune rest.
Proof.
  intros Hv. unfold stringtoslicerune. destruct (Z.ltb_spec r runeSelf) as [Hlt|Hge].
  - assert (0 <= r) by (unfold valid_rune, surrogateMin, surrogateMax, maxRune in Hv; zcase; simpl in Hv; lia).
    rewrite encoderune_ascii by lia. cbn [app length decode_loop].
    by destruct (Z.ltb_spec r runeSelf); [|lia].
  - pose proof (encode_check_valid r Hv Hge) as Hc. unfold encode_check in Hc.
    destruct (encoderune r) as [|b0 bs] eqn:E; [discriminate|].
    destruct (decoderune (b0 :: bs)) as [r' w] eqn:D.
    destruct (Z.leb_spec runeSelf b0), (Z.eqb_spec r' r), (Nat.eqb_spec w (length (b0 :: bs))),
      (Nat.ltb_spec 1 w); try discriminate. subst.
    cbn [app length decode_loop]. destruct (Z.ltb_spec b0 runeSelf); [lia|].
    rewrite app_comm_cons, (decoderune_app _ _ _ _ D) by lia.
    rewrite drop_app_length. f_equal.
    apply decode_loop_fuel; rewrite ?length_app; lia.
Qed.

Lemma valid_rune_intro r :
  0 <= r < surrogateMin \/ surrogateMax < r <= maxRune -> valid_rune r = true.
Proof. unfold valid_rune. intros H. apply orb_true_iff. rewrite !andb_true_iff, !Z.leb_le, !Z.ltb_lt. lia. Qed.

Lemma decode2_bound s0 s1 :
  0 <= Z.lor (Z.shiftl (Z.land s0 mask2) 6) (Z.land s1 maskx) <= rune2Max.
Proof.
  change mask2 with (Z.ones 5). change maskx with (Z.ones 6). rewrite !Z.land_ones by lia.
  pose proof (Z.mod_pos_bound s0 (2 ^ 5)). pose proof (Z.mod_pos_bound s1 (2 ^ 6)).
  rewrite lor_shiftl_low by lia. unfold rune2Max. lia.
Qed.

Lemma decode3_bound s0 s1 s2 :
  0 <= Z.lor (Z.lor (Z.shiftl (Z.land s0 mask3) 12) (Z.shiftl (Z.land s1 maskx) 6)) (Z.land s2 maskx) <= rune3Max.
Proof.
  change mask3 with (Z.ones 4). change maskx with (Z.ones 6). rewrite !Z.land_ones by lia.
  pose proof (Z.mod_pos_bound s0 (2 ^ 4)). pose proof (Z.mod_pos_bound s1 (2 ^ 6)).
  pose proof (Z.mod_pos_bound s2 (2 ^ 6)).
  rewrite <- (Z.shiftl_shiftl _ 6 6), <- Z.shiftl_lor by lia.
  rewrite !lor_shiftl_low by lia. unfold rune3Max. lia.
Qed.

(** [decoderune] yields a valid rune, whatever the bytes. *)
Lemma decoderune_valid s : valid_rune (fst (decoderune s)) = true.
Proof.
  destruct s as [|s0 [|s1 [|s2 [|s3 s]]]]; unfold decoderune; [reflexivity|..];
    try pose proof (decode2_bound s0 s1); try pose proof (decode3_bound s0 s1 s2);
    repeat case_match; simplify_eq; cbn [fst]; try reflexivity; apply valid_rune_intro; zhyps;
    unfold rune1Max, rune2Max, rune3Max, surrogateMin, surrogateMax, maxRune in *; lia.
Qed.


Lemma tag_byte_is_byte t x : is_byte t -> is_byte (Z.lor t (byte x)).
Proof. intros Ht. unfold byte. by apply (tag_is_byte _ _ _ 8). Qed.

Lemma encoderune_bytes r : Forall is_byte (encoderune r).
Proof.
  assert (Hb : forall t, t = t2 \/ t = t3 \/ t = t4 \/ t = tx -> is_byte t)
    by (unfold is_byte, t2, t3, t4, tx; lia).
  unfold encoderune. cbv beta zeta.
  repeat case_match; repeat apply List.Forall_cons; try apply List.Forall_nil;
    first [ apply byte_is_byte | apply tag_byte_is_byte; auto
          | apply (tag_is_byte _ _ _ 6); auto; lia ].
Qed.

Lemma slicerunetostring_app a b :
  slicerunetostring (a ++ b) = slicerunetostring a ++ slicerunetostring b.
Proof. unfold slicerunetostring. by rewrite map_app, concat_app. Qed.

Lemma slicerunetostring_cons r rs :
  slicerunetostring (r :: rs) = encoderune r ++ slicerunetostring rs.
Proof. reflexivity. Qed.

Lemma slicerunetostring_bytes rs : Forall is_byte (slicerunetostring rs).
Proof.
  induction rs as [|r rs IH]; [constructor|].
  rewrite slicerunetostring_cons. apply Forall_app. split; [apply encoderune_bytes|exact IH].
Qed.

Lemma encoderune_length r : (1 <= length (encoderune r) <= 4)%nat.
Proof. unfold encoderune. cbv beta zeta. repeat case_match; simpl; lia. Qed.

Lemma slicerunetostring_length rs : (length rs <= length (slicerunetostring rs) <= 4 * length rs)%nat.
Proof.
  induction rs as [|r rs IH]; [simpl; lia|].
  rewrite slicerunetostring_cons, length_app. pose proof (encoderune_length r). simpl. lia.
Qed.

Lemma decode_loop_valid f s :
  Forall is_byte s -> Forall (fun r => valid_rune r = true) (decode_loop f s).
Proof.
  revert s. induction f as [|f IH]; intros [|c s] Hs; cbn [decode_loop]; try constructor.
  destruct (Z.ltb_spec c runeSelf).
  - apply Forall_cons in Hs as [Hc Hs]. constructor; [|by apply IH].
    apply valid_rune_intro. unfold is_byte, runeSelf, surrogateMin in *. lia.
  - pose proof (decoderune_valid (c :: s)) as Hv. destruct (decoderune (c :: s)) as [r w].
    constructor; [exact Hv|]. apply IH, Forall_drop, Hs.
Qed.

Lemma rune_or_error_valid r : valid_rune r = true -> rune_or_error r = r.
Proof. unfold rune_or_error. by intros ->. Qed.

(** Valid runes are read back unchanged. *)
Lemma decode_encode_valid rs :
  Forall (fun r => valid_rune r = true) rs -> stringtoslicerune (slicerunetostring rs) = rs.
Proof. induction 1 as [|r rs Hr _ IH]; [reflexivity|]. by rewrite slicerunetostring_cons, stringtoslicerune_cons, IH. Qed.

(** [string(...)] of runes cut into pieces with separators between them. *)
Lemma slicerunetostring_rebuild ps ds :
  length ds = length ps ->
  slicerunetostring (concat (zip_with app ps ds)) =
  concat (zip_with app (map slicerunetostring ps) (map slicerunetostring ds)).
Proof.
  revert ds. induction ps as [|p ps IH]; intros [|d ds] Hl; cbn [length] in Hl; try lia; [reflexivity|].
  cbn [zip_with concat map]. by rewrite !slicerunetostring_app, IH by lia.
Qed.

(** ** Theorems *)

(** [[]rune(string(rs))]: converting [int32] runes to a string and back
    gives the runes again, each invalid one (a surrogate, a negative rune
    or one above U+10FFFF) replaced by U+FFFD. *)
Theorem runes_roundtrip rs :
  Forall is_rune32 rs -> stringtoslicerune (slicerunetostring rs) = map rune_or_error rs.
Proof.
  induction 1 as [|r rs Hr _ IH]; [reflexivity|].
  rewrite slicerunetostring_cons. cbn [map]. destruct (valid_rune r) eqn:Hv.
  - by rewrite rune_or_error_valid, stringtoslicerune_cons, IH.
  - rewrite encoderune_invalid, stringtoslicerune_cons, IH by done. unfold rune_or_error. by rewrite Hv.
Qed.

(** The conversions stay in range: [[]rune(s)] of any bytes yields only
    valid runes, [decoderune] takes one to four bytes, and [string(rs)]
    of any runes yields bytes. *)
Theorem conversions_bounds s rs :
  Forall is_byte s ->
  Forall (fun r => valid_rune r = true) (stringtoslicerune s) /\
  (1 <= snd (decoderune s) <= 4)%nat /\
  Forall is_byte (slicerunetostring rs).
Proof.
  intros Hs. split; [apply decode_loop_valid, Hs|]. split; [apply decoderune_width|].
  apply slicerunetostring_bytes.
Qed.

(** ** Witnesses *)

(** "A", "Ж", an emoji, a lone surrogate and a negative rune. *)
Lemma runes_roundtrip_witness :
  stringtoslicerune (slicerunetostring [0x41; 0x416; 0x1F600; 0xD800; -1]) =
  [0x41; 0x416; 0x1F600; runeError; runeError].
Proof.
  rewrite runes_roundtrip; [reflexivity|].
  repeat apply List.Forall_cons; try apply List.Forall_nil; unfold is_rune32; lia.
Defined.

(** "Ж" followed by a stray byte: the byte becomes U+FFFD. *)
Lemma conversions_bounds_witness :
  Forall (fun r => valid_rune r = true) (stringtoslicerune [0xD0; 0x96; 0xFF]) /\
  (1 <= snd (decoderune [0xD0; 0x96; 0xFF]%Z) <= 4)%nat /\
  Forall is_byte (slicerunetostring [0x416; -5]).
Proof.
  apply conversions_bounds.
  repeat apply List.Forall_cons; try apply List.Forall_nil; unfold is_byte; lia.
Defined.

Example invalid_bytes_replaced :
  stringtoslicerune [0xD0; 0x96; 0xFF] = [0x416; runeError] /\
  slicerunetostring [0xD800] = [0xEF; 0xBF; 0xBD].
Proof. split; reflexivity. Qed.
