(* ===== verification/Telegram.v ===== *)
(** * Telegram: splitting and sending a report message

    [internal/api/tele.go]: [sendMessage] parses the chat id with
    [strconv.ParseInt], cuts the message, as a sequence of runes, into parts
    of at most 3000 runes (at the last white-space rune before the limit when
    there is one, dropping that rune), and sends the parts in order, stopping
    at the first failed send; [TgSendWorker] does this for each message of
    its channel in turn.  The message is a Go string, a list of bytes; it
    is decoded with [[]rune(message)] and every part encoded back with
    [string(...)] (UTF8.v).  Runes are Unicode code points ([Z]); a failed
    [Send] is an input of the model (a list of outcomes, consumed in order). *)

From S2P Require Import Prelude GoStrings UTF8.
From Stdlib Require Import Ascii.

(** ** [unicode.IsSpace] *)

(** Latin-1 runes are tested against the switch of [unicode.IsSpace], the
    others against the [White_Space] range table of package [unicode]. *)
Definition is_space (r : Z) : bool :=
  if (0 <=? r) && (r <=? 255) then
    (9 <=? r) && (r <=? 13) || (r =? 32) || (r =? 133) || (r =? 160)
  else
    (r =? 5760) || (8192 <=? r) && (r <=? 8202) || (r =? 8232) || (r =? 8233) ||
    (r =? 8239) || (r =? 8287) || (r =? 12288).

(** ** [strconv.ParseInt(s, 10, 64)] *)

Inductive num_error := ErrSyntax | ErrRange.

Definition max_uint64 : Z := 2 ^ 64 - 1.

(** The digit loop of [strconv.ParseUint] in base 10: an overflow returns
    the maximum at once, before the rest of the string is looked at. *)
Fixpoint parse_uint_loop (n : Z) (s : string) : Z * option num_error :=
  match s with
  | EmptyString => (n, None)
  | String c r =>
      match digit_value c with
      | None => (0, Some ErrSyntax)
      | Some d =>
          if max_uint64 / 10 + 1 <=? n then (max_uint64, Some ErrRange)
          else let n1 := n * 10 + d in
               if max_uint64 <? n1 then (max_uint64, Some ErrRange)
               else parse_uint_loop n1 r
      end
  end.

Definition ParseUint (s : string) : Z * option num_error :=
  match s with
  | EmptyString => (0, Some ErrSyntax)
  | _ => parse_uint_loop 0 s
  end.

Definition ParseInt (s : string) : Z * option num_error :=
  match s with
  | EmptyString => (0, Some ErrSyntax)
  | String c r =>
      let '(neg, s') := if Ascii.eqb c "+"%char then (false, r)
                        else if Ascii.eqb c "-"%char then (true, r) else (false, s) in
      match ParseUint s' with
      | (_, Some ErrSyntax) => (0, Some ErrSyntax)
      | (un, _) =>
          if negb neg && (2 ^ 63 <=? un) then (2 ^ 63 - 1, Some ErrRange)
          else if neg && (2 ^ 63 <? un) then (- 2 ^ 63, Some ErrRange)
          else ((if neg then - un else un), None)
      end
  end.

(** ** Cutting the message *)

Definition maxLen : nat := 3000.
#[global] Opaque maxLen.

(** The backward scan [for i := maxLen - 1; i >= 0; i--] for the last
    white-space rune; -1 when there is none. *)
Fixpoint scan_back (i : nat) (t : list Z) : Z :=
  if is_space (nth i t 0) then Z.of_nat i
  else match i with
       | O => -1
       | S j => scan_back j t
       end.

Definition lastSpace (t : list Z) : Z := scan_back (maxLen - 1) t.

(** One pass of [for len(textRunes) > maxLen]: the part it appends and the
    runes left. *)
Definition cut (t : list Z) : list Z * list Z :=
  let ls := lastSpace t in
  if 0 <? ls then (take (Z.to_nat ls) t, drop (Z.to_nat ls + 1) t)
  else (take maxLen t, drop maxLen t).

(** The loop, then the final [if len(textRunes) > 0]; [None] when the fuel
    runs out. *)
Fixpoint split_loop (fuel : nat) (t : list Z) (parts : list (list Z)) : option (list (list Z)) :=
  match fuel with
  | O => None
  | S f =>
      if (maxLen <? length t)%nat then
        let '(p, rest) := cut t in split_loop f rest (parts ++ [p])
      else Some (if (0 <? length t)%nat then parts ++ [t] else parts)
  end.

(** Each pass removes at least one rune, so [length t + 1] passes suffice. *)
Definition split_message (t : list Z) : option (list (list Z)) :=
  split_loop (S (length t)) t [].

(** ** Sending *)

(** The sends of [for _, part := range parts]: each part goes to [chat];
    the first failed send ends [sendMessage].  [outs] are the outcomes of
    the successive [b.Send] calls (missing ones succeed); the result is the
    list of attempted sends and the outcomes left. *)
Fixpoint send_parts (chat : Z) (parts : list (list Z)) (outs : list bool)
  : list (Z * list Z) * list bool :=
  match parts with
  | [] => ([], outs)
  | p :: ps =>
      let '(ok, outs') := match outs with [] => (true, []) | o :: os => (o, os) end in
      if ok then let '(sent, rest) := send_parts chat ps outs' in ((chat, p) :: sent, rest)
      else ([(chat, p)], outs')
  end.

(** [sendMessage]: the chat id is used even when [ParseInt] fails (the
    error is only logged); [message] is the bytes of the Go string, and
    each part is sent as [string(textRunes[:k])]. *)
Definition sendMessage (chatID : string) (message : list Z) (outs : list bool)
  : list (Z * list Z) * list bool :=
  let chat := fst (ParseInt chatID) in
  let textRunes := stringtoslicerune message in
  match split_message textRunes with
  | Some parts => send_parts chat (map slicerunetostring parts) outs
  | None => ([], outs)
  end.

(** [TgSendWorker]: the messages received from the channel, in order. *)
Fixpoint TgSendWorker (chatID : string) (msgs : list (list Z)) (outs : list bool)
  : list (Z * list Z) :=
  match msgs with
  | [] => []
  | m :: ms => let '(sent, outs') := sendMessage chatID m outs in
               sent ++ TgSendWorker chatID ms outs'
  end.

(** A rune dropped between two parts: none, or one white-space rune. *)
Definition sep_ok (d : list Z) : Prop := d = [] \/ exists r, d = [r] /\ is_space r = true.

Definition part_ok (p : list Z) : Prop := (1 <= length p <= maxLen)%nat.

(** ** Lemmas on the scan and the cut *)

Lemma maxLen_ge : (2 <= maxLen)%nat.
Proof. apply Nat.leb_le. reflexivity. Qed.

Lemma scan_back_range i t : -1 <= scan_back i t <= Z.of_nat i.
Proof. induction i; simpl; destruct (is_space _); lia. Qed.

Lemma scan_back_space i t : 0 <= scan_back i t -> is_space (nth (Z.to_nat (scan_back i t)) t 0) = true.
Proof.
  induction i as [|i IH]; simpl; [destruct (is_space (nth 0 t 0)) eqn:E; simpl; auto; lia|].
  destruct (is_space (nth (S i) t 0)) eqn:E; intros; rewrite ?Nat2Z.id; auto.
Qed.

Lemma scan_back_after i t j :
  scan_back i t < Z.of_nat j -> (j <= i)%nat -> is_space (nth j t 0) = false.
Proof.
  induction i as [|i IH]; simpl; intros Hlt Hj.
  - replace j with O by lia. destruct (is_space (nth 0 t 0)); [lia|reflexivity].
  - destruct (is_space (nth (S i) t 0)) eqn:E; [lia|].
    destruct (decide (j = S i)) as [->|]; [exact E|]. apply IH; lia.
Qed.

Lemma scan_back_eq i t k :
  (k <= i)%nat -> is_space (nth k t 0) = true ->
  (forall j, (k < j <= i)%nat -> is_space (nth j t 0) = false) -> scan_back i t = Z.of_nat k.
Proof.
  induction i as [|i IH]; intros Hk Hs Hno; simpl.
  - replace k with O in * by lia. by rewrite Hs.
  - destruct (decide (k = S i)) as [->|]; [by rewrite Hs|].
    rewrite Hno by lia. apply IH; auto with lia.
Qed.

Lemma take_nth_drop (t : list Z) k :
  (k < length t)%nat -> t = take k t ++ [nth k t 0] ++ drop (S k) t.
Proof.
  intros Hk. destruct (lookup_lt_is_Some_2 t k Hk) as [x Hx].
  rewrite (nth_lookup_Some t k 0 x Hx). symmetry. by apply take_drop_middle.
Qed.

Lemma cut_spec t : (maxLen < length t)%nat ->
  part_ok (fst (cut t)) /\ (length (snd (cut t)) < length t)%nat /\
  exists d, sep_ok d /\ t = fst (cut t) ++ d ++ snd (cut t).
Proof.
  intros Hlen. unfold cut, lastSpace, part_ok in *. pose proof maxLen_ge.
  pose proof (scan_back_range (maxLen - 1) t) as Hr. pose proof (scan_back_space (maxLen - 1) t) as Hs.
  destruct (Z.ltb_spec 0 (scan_back (maxLen - 1) t)) as [Hp|Hp]; cbn [fst snd].
  - rewrite length_take, length_drop. split; [lia|]. split; [lia|].
    exists [nth (Z.to_nat (scan_back (maxLen - 1) t)) t 0]. split.
    + right. eexists. split; [reflexivity|]. apply Hs. lia.
    + rewrite Nat.add_1_r. apply take_nth_drop. lia.
  - rewrite length_take, length_drop. split; [lia|]. split; [lia|].
    exists []. split; [by left|]. by rewrite app_nil_l, take_drop.
Qed.

Lemma split_loop_spec fuel t acc : (length t < fuel)%nat ->
  exists ps, split_loop fuel t acc = Some (acc ++ ps) /\ Forall part_ok ps /\
  exists ds, Forall sep_ok ds /\ length ds = length ps /\ t = concat (zip_with app ps ds).
Proof.
  revert t acc. induction fuel as [|f IH]; intros t acc Hf; [lia|]. simpl.
  destruct (Nat.ltb_spec maxLen (length t)) as [Hl|Hl].
  - destruct (cut_spec t Hl) as (Hp & Hr & d & Hd & Ht).
    destruct (cut t) as [p rest]. simpl in *.
    destruct (IH rest (acc ++ [p]) ltac:(lia)) as (ps & -> & Hps & ds & Hds & Hlen & Hrest).
    exists (p :: ps). rewrite <- app_assoc. split; [reflexivity|]. split; [by constructor|].
    exists (d :: ds). split; [by constructor|]. split; [simpl; lia|].
    simpl. rewrite <- app_assoc, <- Hrest. exact Ht.
  - destruct (Nat.ltb_spec 0 (length t)).
    + exists [t]. split; [reflexivity|]. split; [constructor; [unfold part_ok; lia|constructor]|].
      exists [[]]. split; [repeat constructor|]. simpl. by rewrite !app_nil_r.
    + destruct t; [|simpl in *; lia]. exists []. rewrite app_nil_r. split; [reflexivity|].
      split; [constructor|]. exists []. repeat constructor.
Qed.

Lemma parts_of_split_message t ps : split_message t = Some ps ->
  Forall part_ok ps /\ exists ds, Forall sep_ok ds /\ length ds = length ps /\ t = concat (zip_with app ps ds).
Proof.
  unfold split_message. destruct (split_loop_spec (S (length t)) t [] ltac:(lia)) as (ps' & -> & H).
  intros [= <-]. exact H.
Qed.

Lemma no_space_between t a b :
  forallb (fun j => negb (is_space (nth j t 0))) (seq a (b - a)) = true ->
  forall j, (a <= j < b)%nat -> is_space (nth j t 0) = false.
Proof.
  intros H j Hj. rewrite forallb_forall in H. specialize (H j).
  rewrite in_seq in H. apply negb_true_iff, H. lia.
Qed.

(** ** Theorems *)

(** C14 *)
(** Termination and bounds of the cutting loop: on every message the loop
    of [sendMessage] ends, and every part it produces holds between 1 and
    3000 runes. *)
Theorem split_message_parts t :
  exists ps, split_message t = Some ps /\ Forall (fun p => 1 <= length p <= maxLen)%nat ps.
Proof.
  unfold split_message. destruct (split_loop_spec (S (length t)) t [] ltac:(lia)) as (ps & -> & Hps & _).
  by exists ps.
Qed.

(** Nothing of the message is lost but the white space it is cut at: the
    message is the concatenation of its parts, each followed by nothing or
    by one white-space rune. *)
Theorem split_message_rebuild t ps :
  split_message t = Some ps ->
  exists ds, Forall (fun d => d = [] \/ exists r, d = [r] /\ is_space r = true) ds /\
             length ds = length ps /\ t = concat (zip_with app ps ds).
Proof. intros H. apply parts_of_split_message in H as [_ H]. exact H. Qed.

(** A message of at most 3000 runes is sent as one part; an empty message
    is not sent at all. *)
Theorem split_message_short t :
  (length t <= maxLen)%nat -> split_message t = Some (if (0 <? length t)%nat then [t] else []).
Proof.
  intros Hl. unfold split_message. simpl. destruct (Nat.ltb_spec maxLen (length t)); [lia|].
  by destruct (0 <? length t)%nat.
Qed.

(** C16 *)
(** Where the cut falls: when the first 3000 runes contain a white-space
    rune after the first position, the part ends just before the last such
    rune and the rune is dropped; otherwise the part is the first 3000
    runes. *)
Theorem cut_at_last_space t :
  (forall k, (0 < k < maxLen)%nat -> is_space (nth k t 0) = true ->
     (forall j, (k < j < maxLen)%nat -> is_space (nth j t 0) = false) ->
     cut t = (take k t, drop (S k) t)) /\
  ((forall j, (0 < j < maxLen)%nat -> is_space (nth j t 0) = false) ->
     cut t = (take maxLen t, drop maxLen t)).
Proof.
  unfold cut, lastSpace. split.
  - intros k Hk Hs Hno. pose proof maxLen_ge.
    rewrite (scan_back_eq _ t k) by (try exact Hs; try lia; intros; apply Hno; lia).
    destruct (Z.ltb_spec 0 (Z.of_nat k)); [|lia]. by rewrite Nat2Z.id, Nat.add_1_r.
  - intros Hno. destruct (Z.ltb_spec 0 (scan_back (maxLen - 1) t)) as [Hp|]; [|reflexivity].
    pose proof (scan_back_range (maxLen - 1) t). pose proof (scan_back_space (maxLen - 1) t ltac:(lia)) as Hs.
    rewrite Hno in Hs; [discriminate|]. pose proof maxLen_ge. lia.
Qed.

(** ** Parsing the chat id *)

Lemma digit_value_range c d : digit_value c = Some d -> 0 <= d <= 9.
Proof.
  unfold digit_value. destruct (_ && _) eqn:E; [|discriminate]. intros [= <-].
  apply andb_true_iff in E as [E1 E2]. apply Nat.leb_le in E1, E2. lia.
Qed.

Lemma digits_acc_mono acc s v : digits_acc acc s = Some v -> 0 <= acc -> acc <= v.
Proof.
  revert acc. induction s as [|c s IH]; intros acc; simpl; [intros [= ->]; lia|].
  destruct (digit_value c) as [d|] eqn:Hd; [|discriminate]. apply digit_value_range in Hd.
  intros H Ha. specialize (IH _ H). lia.
Qed.

Lemma parse_uint_loop_digits acc s v :
  digits_acc acc s = Some v -> 0 <= acc -> v <= max_uint64 -> parse_uint_loop acc s = (v, None).
Proof.
  revert acc. induction s as [|c s IH]; intros acc; simpl; [by intros [= ->]|].
  destruct (digit_value c) as [d|] eqn:Hd; [|discriminate]. apply digit_value_range in Hd.
  intros H Ha Hv. pose proof (digits_acc_mono _ _ _ H ltac:(lia)).
  assert (Hc : max_uint64 / 10 + 1 = 1844674407370955162) by reflexivity.
  rewrite Hc. unfold max_uint64 in *. zcase; try lia. apply IH; auto; lia.
Qed.

Lemma ParseUint_itoa n : 0 <= n <= max_uint64 -> ParseUint (itoa n) = (n, None).
Proof.
  intros Hn. destruct (itoa_first n ltac:(lia)) as (a & r & E & _). unfold ParseUint. rewrite E, <- E.
  apply parse_uint_loop_digits; [apply itoa_value|..]; lia.
Qed.

(** ** Sending *)

(** Every send goes to [chat] with one of the parts. *)
Lemma send_parts_Forall (P : list Z -> Prop) chat ps outs :
  Forall P ps -> Forall (fun s => fst s = chat /\ P (snd s)) (fst (send_parts chat ps outs)).
Proof.
  revert outs. induction ps as [|p ps IH]; intros outs Hps; simpl; [constructor|].
  apply Forall_cons in Hps as [Hp Hps].
  destruct (match outs with [] => (true, []) | o :: os => (o, os) end) as [[|] outs'].
  - specialize (IH outs' Hps). destruct (send_parts chat ps outs'). by constructor.
  - by repeat constructor.
Qed.

Lemma send_parts_chat chat ps outs : Forall (fun s => fst s = chat) (fst (send_parts chat ps outs)).
Proof.
  eapply Forall_impl; [apply (send_parts_Forall (fun _ => True)), Forall_true; auto|]. by intros ? [].
Qed.

Lemma send_parts_all chat ps : send_parts chat ps [] = (map (pair chat) ps, []).
Proof. induction ps as [|p ps IH]; simpl; [reflexivity|]. by rewrite IH. Qed.

Lemma send_parts_fail chat ps k os :
  (k < length ps)%nat -> fst (send_parts chat ps (repeat true k ++ false :: os)) = map (pair chat) (take (S k) ps).
Proof.
  revert ps. induction k as [|k IH]; intros [|p ps] Hk; simpl in *; try lia; [reflexivity|].
  specialize (IH ps ltac:(lia)). destruct (send_parts chat ps _). simpl in *. by rewrite IH.
Qed.

(** The digit loop never leaves [0 .. max_uint64], and an overflow
    returns the maximum. *)
Lemma parse_uint_loop_bounds n s :
  0 <= n <= max_uint64 ->
  (0 <= fst (parse_uint_loop n s) <= max_uint64) /\
  (snd (parse_uint_loop n s) = Some ErrRange -> fst (parse_uint_loop n s) = max_uint64).
Proof.
  revert n. induction s as [|c s IH]; intros n Hn; simpl; [split; [lia|discriminate]|].
  destruct (digit_value c) as [d|] eqn:Hd; [|cbn [fst snd]; split; [unfold max_uint64; lia|discriminate]].
  apply digit_value_range in Hd.
  assert (Hc : max_uint64 / 10 + 1 = 1844674407370955162) by reflexivity. rewrite Hc.
  destruct (Z.leb_spec 1844674407370955162 n); [cbn [fst snd]; split; [unfold max_uint64; lia|done]|].
  destruct (Z.ltb_spec max_uint64 (n * 10 + d)); [cbn [fst snd]; split; [unfold max_uint64; lia|done]|].
  apply IH. lia.
Qed.

Lemma ParseUint_bounds s :
  (0 <= fst (ParseUint s) <= max_uint64) /\
  (snd (ParseUint s) = Some ErrRange -> fst (ParseUint s) = max_uint64).
Proof.
  destruct s as [|c r]; [cbn [fst snd ParseUint]; split; [unfold max_uint64; lia|discriminate]|].
  apply parse_uint_loop_bounds. unfold max_uint64. lia.
Qed.

(** [strconv.ParseInt] reads back the decimal printing of every 64-bit integer. *)
Lemma ParseInt_itoa n :
  0 <= n <= 2 ^ 63 -> ParseInt (String "-" (itoa n)) = (- n, None) /\
                      (n < 2 ^ 63 -> ParseInt (itoa n) = (n, None)).
Proof.
  intros Hn. split.
  - cbn [ParseInt Ascii.eqb Bool.eqb]. rewrite ParseUint_itoa by (unfold max_uint64; lia).
    cbn [negb andb]. destruct (Z.ltb_spec (2 ^ 63) n); [lia|reflexivity].
  - intros Hlt. destruct (itoa_first n ltac:(lia)) as (a & r & E & Ha).
    pose proof (ParseUint_itoa n ltac:(unfold max_uint64; lia)) as Hu.
    unfold ParseInt. rewrite E in *. destruct (is_digit_sign a Ha) as [-> ->].
    rewrite Hu. cbn [negb andb]. destruct (Z.leb_spec (2 ^ 63) n); [lia|reflexivity].
Qed.

(** C15 *)
(** The message as Telegram receives it: when every send succeeds, the
    parts go out in order to the chat, each the encoding of 1 to 3000 runes
    that decodes back to them, so that no part ends inside a character; and
    the parts, each followed by the white space it was cut at, spell the
    message re-encoded, in which an invalid byte has become U+FFFD (the
    message itself when it is valid UTF-8). *)
Theorem sendMessage_utf8 chatID m :
  Forall is_byte m ->
  exists ps ds,
    fst (sendMessage chatID m []) = map (fun p => (fst (ParseInt chatID), slicerunetostring p)) ps /\
    Forall (fun p => stringtoslicerune (slicerunetostring p) = p /\ (1 <= length p <= maxLen)%nat) ps /\
    Forall sep_ok ds /\ length ds = length ps /\
    slicerunetostring (stringtoslicerune m) =
      concat (zip_with app (map slicerunetostring ps) (map slicerunetostring ds)).
Proof.
  intros Hm. pose proof (decode_loop_valid (length m) m Hm) as Hv.
  destruct (split_message_parts (stringtoslicerune m)) as (ps & Hs & _).
  destruct (parts_of_split_message _ _ Hs) as (Hok & ds & Hds & Hlen & Ht).
  exists ps, ds. unfold sendMessage. rewrite Hs, send_parts_all. cbn [fst].
  split; [by rewrite map_map|]. split; [|split; [exact Hds|split; [exact Hlen|]]].
  - apply Forall_and. split; [|exact Hok]. change (decode_loop (length m) m) with (stringtoslicerune m) in Hv.
    rewrite Ht in Hv. apply Forall_concat_zip_app in Hv; [|exact Hlen].
    eapply Forall_impl; [exact Hv|]. apply decode_encode_valid.
  - rewrite Ht. apply slicerunetostring_rebuild, Hlen.
Qed.

(** C17 *)
(** A chat id written in decimal, with a minus sign or without, reaches
    that chat: when every send succeeds, each part of the message goes to
    the 64-bit id the string denotes (Telegram group chats have negative
    ids). *)
Theorem sendMessage_chat n m ps :
  0 <= n <= 2 ^ 63 -> split_message (stringtoslicerune m) = Some ps ->
  fst (sendMessage (String "-" (itoa n)) m []) = map (pair (- n)) (map slicerunetostring ps) /\
  (n < 2 ^ 63 -> fst (sendMessage (itoa n) m []) = map (pair n) (map slicerunetostring ps)).
Proof.
  intros Hn Hs. destruct (ParseInt_itoa n Hn) as [H1 H2]. unfold sendMessage.
  rewrite Hs, H1, send_parts_all. split; [reflexivity|]. intros Hlt. by rewrite H2, send_parts_all.
Qed.

(** C20 *)
(** What Telegram receives, whatever the message and the send outcomes:
    every send goes to the parsed chat id with a part of 1 to 12000 bytes
    (3000 runes of at most four bytes each), all in [0..255]. *)
Theorem sendMessage_part_bounds chatID m outs :
  Forall (fun s => fst s = fst (ParseInt chatID) /\
            Forall is_byte (snd s) /\ (1 <= length (snd s) <= 4 * maxLen)%nat)
    (fst (sendMessage chatID m outs)).
Proof.
  unfold sendMessage. destruct (split_message_parts (stringtoslicerune m)) as (ps & Hs & Hok). rewrite Hs.
  apply (send_parts_Forall (fun p => Forall is_byte p /\ (1 <= length p <= 4 * maxLen)%nat)).
  apply List.Forall_map. eapply Forall_impl; [exact Hok|]. intros p Hp.
  split; [apply slicerunetostring_bytes|]. pose proof (slicerunetostring_length p). cbv beta in Hp. lia.
Qed.

(** [strconv.ParseInt(s, 10, 64)] returns an [int64]; on overflow the
    nearest bound, with [ErrRange]. *)
Lemma ParseInt_range chatID :
  go_int_min <= fst (ParseInt chatID) <= go_int_max /\
  (snd (ParseInt chatID) = Some ErrRange ->
     fst (ParseInt chatID) = go_int_min \/ fst (ParseInt chatID) = go_int_max).
Proof.
  unfold go_int_min, go_int_max. destruct chatID as [|c r]; [simpl; split; [lia|discriminate]|].
  unfold ParseInt. destruct (if Ascii.eqb c "+"%char then _ else _) as [neg s'].
  destruct (ParseUint_bounds s') as [Hr He]. destruct (ParseUint s') as [un e]; simpl in *.
  destruct e as [[]|]; [simpl; split; [lia|discriminate]| |];
    destruct neg; simpl; zcase; simpl; split; try lia; intros [=]; try lia.
  all: specialize (He eq_refl); unfold max_uint64 in He; lia.
Qed.

(** A malformed chat id reads as 0. *)
Lemma ParseInt_syntax chatID : snd (ParseInt chatID) = Some ErrSyntax -> fst (ParseInt chatID) = 0.
Proof.
  intros He. destruct chatID as [|c r]; [reflexivity|]. unfold ParseInt in *.
  destruct (if Ascii.eqb c "+"%char then _ else _) as [[] s'];
    destruct (ParseUint s') as [un [[]|]]; try reflexivity;
    repeat case_match; simplify_eq/=; reflexivity.
Qed.

(** C18 *)
(** A chat id that [strconv.ParseInt] rejects does not stop [sendMessage]:
    whatever the chat id, when every send succeeds every part of the
    message is sent, in order, to the id [ParseInt] returned, with or
    without an error (which is only logged); with an error that id is 0
    for a malformed id and the nearest [int64] bound for an id out of
    range, a chat other than the one configured. *)
Theorem sendMessage_bad_chat chatID m ps :
  split_message (stringtoslicerune m) = Some ps ->
  fst (sendMessage chatID m []) = map (pair (fst (ParseInt chatID))) (map slicerunetostring ps) /\
  (snd (ParseInt chatID) = Some ErrSyntax -> fst (ParseInt chatID) = 0) /\
  (snd (ParseInt chatID) = Some ErrRange ->
     fst (ParseInt chatID) = go_int_min \/ fst (ParseInt chatID) = go_int_max).
Proof.
  intros Hs. split; [|split; [apply ParseInt_syntax|apply ParseInt_range]].
  unfold sendMessage. by rewrite Hs, send_parts_all.
Qed.

(** C19 *)
(** The parts go out in order; the first failed send ends [sendMessage]:
    when the sends of the first [k] parts succeed and the next one fails,
    exactly the first [k + 1] parts have been attempted. *)
Theorem sendMessage_stops chatID m ps k os :
  split_message (stringtoslicerune m) = Some ps -> (k < length ps)%nat ->
  fst (sendMessage chatID m (repeat true k ++ false :: os)) =
  map (pair (fst (ParseInt chatID))) (take (S k) (map slicerunetostring ps)).
Proof. intros Hs Hk. unfold sendMessage. rewrite Hs. apply send_parts_fail. by rewrite length_map. Qed.


(** ** Witnesses *)

Lemma split_message_rebuild_witness :
  exists ds, Forall (fun d => d = [] \/ exists r, d = [r] /\ is_space r = true) ds /\
             length ds = length [repeat 97 2000; repeat 97 2000] /\
             repeat 97 2000 ++ [32] ++ repeat 97 2000 =
             concat (zip_with app [repeat 97 2000; repeat 97 2000] ds).
Proof. apply split_message_rebuild. vm_compute. reflexivity. Defined.

Lemma split_message_short_witness :
  split_message [104; 105] = Some (if (0 <? length [104; 105])%nat then [[104; 105]] else []).
Proof. apply split_message_short. apply Nat.leb_le. reflexivity. Defined.

Lemma cut_at_last_space_witness :
  cut (repeat 97 10 ++ [32] ++ repeat 97 3000) =
    (take 10 (repeat 97 10 ++ [32] ++ repeat 97 3000), drop 11 (repeat 97 10 ++ [32] ++ repeat 97 3000)) /\
  cut (repeat 97 3500) = (take maxLen (repeat 97 3500), drop maxLen (repeat 97 3500)).
Proof.
  split.
  - apply (proj1 (cut_at_last_space _) 10%nat); [split; apply Nat.ltb_lt; reflexivity|vm_compute; reflexivity|].
    intros j Hj. apply (no_space_between _ 11 maxLen); [vm_compute; reflexivity|exact Hj].
  - apply (proj2 (cut_at_last_space _)).
    intros j Hj. apply (no_space_between _ 1 maxLen); [vm_compute; reflexivity|exact Hj].
Defined.

(** "Ж", a space and a stray byte [0xFF]. *)
Lemma sendMessage_utf8_witness :
  exists ps ds,
    fst (sendMessage "42" [0xD0; 0x96; 0x20; 0xFF] []) =
      map (fun p => (fst (ParseInt "42"), slicerunetostring p)) ps /\
    Forall (fun p => stringtoslicerune (slicerunetostring p) = p /\ (1 <= length p <= maxLen)%nat) ps /\
    Forall sep_ok ds /\ length ds = length ps /\
    slicerunetostring (stringtoslicerune [0xD0; 0x96; 0x20; 0xFF]) =
      concat (zip_with app (map slicerunetostring ps) (map slicerunetostring ds)).
Proof.
  apply sendMessage_utf8.
  repeat apply List.Forall_cons; try apply List.Forall_nil; unfold is_byte; lia.
Defined.

(** A byte that is not UTF-8 reaches the chat as U+FFFD ([EF BF BD]). *)
Example sendMessage_replaces_invalid :
  fst (sendMessage "1" [0xD0; 0x96; 0xFF] []) = [(1, [0xD0; 0x96; 0xEF; 0xBF; 0xBD])].
Proof. vm_compute. reflexivity. Qed.

(** The message "Жук" ([U+0416 U+0443 U+043A] in UTF-8) to a group chat. *)
Lemma sendMessage_chat_witness :
  fst (sendMessage (String "-" (itoa 1001234567890)) [0xD0; 0x96; 0xD1; 0x83; 0xD0; 0xBA] []) =
    map (pair (- 1001234567890)) (map slicerunetostring [[0x416; 0x443; 0x43A]]) /\
  (1001234567890 < 2 ^ 63 -> fst (sendMessage (itoa 1001234567890) [0xD0; 0x96; 0xD1; 0x83; 0xD0; 0xBA] []) =
    map (pair 1001234567890) (map slicerunetostring [[0x416; 0x443; 0x43A]])).
Proof. apply sendMessage_chat; [lia|reflexivity]. Defined.

Lemma sendMessage_bad_chat_witness :
  fst (sendMessage "@alerts" [104; 105] []) = map (pair (fst (ParseInt "@alerts"))) (map slicerunetostring [[104; 105]]) /\
  (snd (ParseInt "@alerts") = Some ErrSyntax -> fst (ParseInt "@alerts") = 0) /\
  (snd (ParseInt "@alerts") = Some ErrRange ->
     fst (ParseInt "@alerts") = go_int_min \/ fst (ParseInt "@alerts") = go_int_max).
Proof. apply sendMessage_bad_chat. reflexivity. Defined.

Lemma sendMessage_stops_witness :
  fst (sendMessage "42" (repeat 97 3500) [false]) =
  map (pair (fst (ParseInt "42"))) (take 1 (map slicerunetostring [repeat 97 3000; repeat 97 500])).
Proof. apply (sendMessage_stops "42" (repeat 97 3500) _ 0 []); [vm_compute; reflexivity|simpl; lia]. Defined.

(** An id one past the largest [int64] is clamped, and the message goes
    to chat [2^63 - 1]. *)
Example ParseInt_overflow_clamps :
  ParseInt "9223372036854775808" = (go_int_max, Some ErrRange).
Proof. vm_compute. reflexivity. Qed.
