(* ===== verification/Agent.v ===== *)
(** * Agent: the periodic report runners and their configuration

    The two programs that own a schedule run the same loop: wait for a
    timer set to [today], do the report, then [today = schedule.NextRun(today)].
    [cmd/tgsmctl/worker-send.go] ([workerSendReports]) leaves the loop when
    its context is cancelled; [win/service.go] ([smartService.Execute])
    also answers the service manager's requests and reports its status on
    the [changes] channel.  Both are modelled as functions from a sequence
    of events (the case of the [select] that runs) to a state; the report
    itself is recorded as the time it was due.  The runners are proved
    against the interface [NextRunner] (what a next-run function promises),
    which the model of [NextRun] implements.  [cmd/tgsmctl/main.go] and
    [win/main.go] choose the modes and the schedule string. *)

From S2P Require Import Prelude GoSort GoStrings Calendar Schedule CronParse NextRun NextRunSpec.
From Stdlib Require Import Ascii.

(** ** The interface between a runner and the schedule *)

(** What a runner relies on: a time the next-run function returns is the
    first firing instant after the time it was given. *)
Class NextRunner (next : datetime -> option run_outcome) (c : CronSchedule) : Prop :=
  next_fired : forall t r, valid_dt t -> next t = Some (Fired r) -> is_next c t r.

(** ** The shared loop *)

(** [Waiting]: in the [select]; [Returned]: the loop was left; [Hung]:
    [NextRun] has not returned; [Crashed]: [NextRun] panicked. *)
Inductive mode := Waiting | Returned | Hung | Crashed.

#[export] Instance mode_eq_dec : EqDecision mode.
Proof. solve_decision. Defined.

Record runner := mk_runner { today : datetime; rmode : mode; reports : list datetime }.

(** The timer case: the report due at [today], then [today = NextRun(today)]. *)
Definition on_timer (next : datetime -> option run_outcome) (s : runner) : runner :=
  let reps := reports s ++ [today s] in
  match next (today s) with
  | Some (Fired r) => mk_runner r Waiting reps
  | Some Panicked => mk_runner (today s) Crashed reps
  | None => mk_runner (today s) Hung reps
  end.

(** [today := time.Now().Add(5 * time.Second)]: the first wake-up time is
    an input. *)
Definition runner_start (t0 : datetime) : runner := mk_runner t0 Waiting [].

(** ** [workerSendReports] *)

Inductive worker_event := TimerFired | CtxDone.

Definition worker_step (next : datetime -> option run_outcome) (s : runner) (e : worker_event) : runner :=
  match rmode s, e with
  | Waiting, TimerFired => on_timer next s
  | Waiting, CtxDone => mk_runner (today s) Returned (reports s)
  | _, _ => s
  end.

Definition workerSendReports (next : datetime -> option run_outcome) (t0 : datetime)
    (es : list worker_event) : runner :=
  fold_left (worker_step next) es (runner_start t0).

(** ** [smartService.Execute] *)

(** [svc.Interrogate], [svc.Stop], [svc.Shutdown], any other command. *)
Inductive svc_cmd := Interrogate | Stop | Shutdown | OtherCmd (n : Z).

(** The [State] of the [svc.Status] values sent on [changes]. *)
Inductive svc_state := Running | Stopped.

#[export] Instance svc_state_eq_dec : EqDecision svc_state.
Proof. solve_decision. Defined.

Inductive svc_event := SvcTimer | SvcRequest (cmd : svc_cmd).

Record service := mk_service { sv_run : runner; sv_changes : list svc_state }.

(** [changes <- svc.Status{State: svc.Running, ...}] then the loop. *)
Definition execute_start (t0 : datetime) : service := mk_service (runner_start t0) [Running].

(** The request's [CurrentStatus] is the last status the service sent, as
    package [svc] records it. *)
Definition execute_step (next : datetime -> option run_outcome) (s : service) (e : svc_event) : service :=
  let r := sv_run s in
  match rmode r with
  | Waiting =>
      match e with
      | SvcTimer => mk_service (on_timer next r) (sv_changes s)
      | SvcRequest Interrogate => mk_service r (sv_changes s ++ [default Running (last (sv_changes s))])
      | SvcRequest Stop | SvcRequest Shutdown =>
          mk_service (mk_runner (today r) Returned (reports r)) (sv_changes s ++ [Stopped])
      | SvcRequest (OtherCmd _) => s
      end
  | _ => s
  end.

Definition Execute (next : datetime -> option run_outcome) (t0 : datetime) (es : list svc_event) : service :=
  fold_left (execute_step next) es (execute_start t0).

(** ** Configuration *)

(** [cmd/tgsmctl/main.go]: the schedule string of the agent, from
    [CRON_SCHEDULE] with its quotes trimmed, or the default. *)
Definition agent_cron (env : string) : string :=
  let s := trim_byte (ascii_of_nat 34) env in
  if String.eqb s "" then "55 23 * * *"%string else s.

(** The [for _, mode := range modes] loop: [MODE] split at commas, each
    mode trimmed and compared without regard to case. *)
Definition has_mode (modes name : string) : bool :=
  fold_left (fun acc m => acc || equal_fold (trim_space m) name) (split ","%char modes) false.

(** [win/main.go]: the schedule of the service is the [cron] key of
    [settings.ini], the empty string when the file is missing. *)
Definition service_cron (settings : option string) : string := default ""%string settings.

(** The runs a runner has reported follow each other in the schedule:
    each is the first firing instant after the previous one. *)
Fixpoint follows (c : CronSchedule) (prev : datetime) (l : list datetime) : Prop :=
  match l with
  | [] => True
  | x :: l' => is_next c prev x /\ follows c x l'
  end.

(** What a runner has done so far: no report yet and still at [t0], or
    reports [t0] then a chain of next firing instants, the last of which
    precedes [today] in the same way when the runner still waits. *)
Definition runner_ok (c : CronSchedule) (t0 : datetime) (s : runner) : Prop :=
  (reports s = [] /\ today s = t0) \/
  exists rest, reports s = t0 :: rest /\ follows c t0 rest /\
    (rmode s = Waiting -> is_next c (default t0 (last rest)) (today s)).

(** ** [NextRun] implements the interface *)

Lemma NextRun_runner F c : schedule_wf c -> NextRunner (NextRun search_ints F c) c.
Proof. intros Hwf t r Ht Hr. exact (next_run_is_next c t F r Hwf Ht Hr). Qed.

(** ** Chains of next firing instants *)

Lemma is_next_valid c t r : is_next c t r -> valid_dt r.
Proof. by intros []. Qed.

Lemma default_last_cons {A} (p x : A) l : default p (last (x :: l)) = default x (last l).
Proof.
  revert p x. induction l as [|d l IH]; intros p x; [reflexivity|].
  change (last (x :: d :: l)) with (last (d :: l)). by rewrite !IH.
Qed.

Lemma follows_snoc c p l x :
  follows c p l -> is_next c (default p (last l)) x -> follows c p (l ++ [x]).
Proof.
  revert p. induction l as [|y l IH]; intros p; simpl; [tauto|].
  intros [Hy Hl] Hx. split; [exact Hy|]. apply IH; [exact Hl|].
  by rewrite default_last_cons in Hx.
Qed.

Lemma follows_sorted c p l :
  follows c p l -> StronglySorted (fun a b => instant a < instant b) (p :: l).
Proof.
  revert p. induction l as [|x l IH]; intros p; simpl; [repeat constructor|].
  intros [(_ & _ & _ & Hlt & _) Hl]. specialize (IH x Hl). constructor; [exact IH|].
  constructor; [exact Hlt|]. inversion IH as [|? ? _ Hall]; subst.
  eapply Forall_impl; [exact Hall|]. simpl. lia.
Qed.

Lemma follows_complete c p l t :
  follows c p l -> valid_dt t -> dt_second t = 0 -> cron_match c t ->
  instant p < instant t <= instant (default p (last l)) -> t ∈ l.
Proof.
  revert p. induction l as [|x l IH]; intros p; simpl; [lia|].
  intros [(Hx & _ & _ & _ & Hmin) Hl] Ht Hs Hm Hw.
  pose proof (Hmin t Ht Hs Hm ltac:(lia)) as Hle.
  destruct (Z.eq_dec (instant t) (instant x)) as [He|Hne].
  - rewrite (instant_inj t x Ht Hx He). apply list_elem_of_here.
  - apply list_elem_of_further. apply (IH x Hl Ht Hs Hm).
    rewrite default_last_cons in Hw. lia.
Qed.

(** ** The runners keep [runner_ok] *)

Section Runner.
Context (next : datetime -> option run_outcome) (c : CronSchedule) `{!NextRunner next c}.
Context (t0 : datetime) (Ht0 : valid_dt t0).

Lemma runner_ok_valid s : runner_ok c t0 s -> rmode s = Waiting -> valid_dt (today s).
Proof.
  intros [[_ ->]|(rest & _ & _ & Hn)] Hw; [exact Ht0|]. exact (is_next_valid _ _ _ (Hn Hw)).
Qed.

Lemma on_timer_ok s : runner_ok c t0 s -> rmode s = Waiting -> runner_ok c t0 (on_timer next s).
Proof.
  intros Hok Hw. pose proof (runner_ok_valid s Hok Hw) as Hv. right.
  destruct Hok as [[Hr Ht]|(rest & Hr & Hf & Hn)].
  - exists []. unfold on_timer. rewrite Hr, Ht in *.
    destruct (next t0) as [[r|]|] eqn:E; simpl; (split; [reflexivity|]); split; try done.
    intros _. exact (next_fired t0 r Hv E).
  - exists (rest ++ [today s]). specialize (Hn Hw).
    assert (Hf' : follows c t0 (rest ++ [today s])) by (apply follows_snoc; auto).
    unfold on_timer. rewrite Hr.
    destruct (next (today s)) as [[r|]|] eqn:E; simpl; (split; [reflexivity|]); split; try done.
    intros _. rewrite last_snoc. exact (next_fired _ r Hv E).
Qed.

Lemma worker_step_ok s e : runner_ok c t0 s -> runner_ok c t0 (worker_step next s e).
Proof.
  intros Hok. unfold worker_step. destruct (rmode s) eqn:Hm, e; try exact Hok.
  - by apply on_timer_ok.
  - destruct Hok as [Hok|(rest & ? & ? & _)]; [by left|right]. exists rest. by split; [|split].
Qed.

Lemma worker_ok es : runner_ok c t0 (workerSendReports next t0 es).
Proof.
  unfold workerSendReports. assert (H : runner_ok c t0 (runner_start t0)) by (by left).
  revert H. generalize (runner_start t0). induction es as [|e es IH]; intros s Hs; [exact Hs|].
  apply IH, worker_step_ok, Hs.
Qed.

Lemma execute_step_ok s e : runner_ok c t0 (sv_run s) -> runner_ok c t0 (sv_run (execute_step next s e)).
Proof.
  intros Hok. unfold execute_step. destruct (rmode (sv_run s)) eqn:Hm; try exact Hok.
  destruct e as [|[]]; simpl; try exact Hok; [by apply on_timer_ok|..];
    (destruct Hok as [Hok|(rest & ? & ? & _)]; [by left|right]; exists rest; by split; [|split]).
Qed.

Lemma execute_ok es : runner_ok c t0 (sv_run (Execute next t0 es)).
Proof.
  unfold Execute. assert (H : runner_ok c t0 (sv_run (execute_start t0))) by (by left).
  revert H. generalize (execute_start t0). induction es as [|e es IH]; intros s Hs; [exact Hs|].
  apply IH, execute_step_ok, Hs.
Qed.

End Runner.

(** ** Stuck runners stay stuck *)

Lemma worker_fold_stuck next s es : rmode s <> Waiting -> fold_left (worker_step next) es s = s.
Proof.
  intros Hm. induction es as [|e es IH]; [reflexivity|]. simpl.
  unfold worker_step at 2. by destruct (rmode s).
Qed.

Lemma execute_fold_stuck next s es : rmode (sv_run s) <> Waiting -> fold_left (execute_step next) es s = s.
Proof.
  intros Hm. induction es as [|e es IH]; [reflexivity|]. simpl.
  unfold execute_step at 2. by destruct (rmode (sv_run s)).
Qed.

Lemma on_timer_unsat next c t0 :
  NextRunner next c -> valid_dt t0 ->
  ~ fires_after c t0 ->
  rmode (on_timer next (runner_start t0)) <> Waiting.
Proof.
  intros Hn Hv Hno. unfold on_timer. simpl. destruct (next t0) as [[r|]|] eqn:E; try discriminate.
  destruct (next_fired t0 r Hv E) as (Hr & Hs & Hm & Hlt & _). exfalso. apply Hno. by exists r.
Qed.

Lemma running_repeat k : last (Running :: repeat Running k) = Some Running /\
  repeat Running k ++ [Running] = repeat Running (S k).
Proof.
  induction k as [|k [IH1 IH2]]; [done|]. split; [exact IH1|]. simpl in *. by rewrite IH2.
Qed.

Lemma execute_changes_shape next s e k :
  sv_changes s = Running :: repeat Running k ++ (if decide (rmode (sv_run s) = Returned) then [Stopped] else []) ->
  exists k', sv_changes (execute_step next s e) =
    Running :: repeat Running k' ++
      (if decide (rmode (sv_run (execute_step next s e)) = Returned) then [Stopped] else []).
Proof.
  intros Hs. unfold execute_step. destruct (rmode (sv_run s)) eqn:Hm; try (exists k; rewrite Hm; exact Hs).
  simpl in Hs.
  destruct e as [|[| | |n]]; simpl.
  - exists k. unfold on_timer. rewrite Hs. by destruct (next (today (sv_run s))) as [[]|].
  - exists (S k). rewrite Hm, Hs. simpl. rewrite !app_nil_r.
    destruct (running_repeat k) as [E1 E2]. rewrite E1. unfold default, id. rewrite E2. reflexivity.
  - exists k. rewrite Hs. by rewrite app_nil_r.
  - exists k. rewrite Hs. by rewrite app_nil_r.
  - exists k. rewrite Hm, Hs. reflexivity.
Qed.

Lemma execute_changes next t0 es : exists k, sv_changes (Execute next t0 es) =
  Running :: repeat Running k ++
    (if decide (rmode (sv_run (Execute next t0 es)) = Returned) then [Stopped] else []).
Proof.
  unfold Execute. assert (H : exists k, sv_changes (execute_start t0) = Running :: repeat Running k ++
    (if decide (rmode (sv_run (execute_start t0)) = Returned) then [Stopped] else [])) by (by exists O).
  revert H. generalize (execute_start t0). induction es as [|e es IH]; intros s [k Hs]; [by exists k|].
  apply IH. exact (execute_changes_shape next s e k Hs).
Qed.

(** ** Theorems *)

(** C21 *)
(** Both runners follow the schedule: the first report is at the start
    time, each later one at the first firing instant after the previous
    report, and a runner that still waits has its timer set to the first
    firing instant after its last report. *)
Theorem runners_follow_schedule F c t0 es ses :
  schedule_wf c -> valid_dt t0 ->
  runner_ok c t0 (workerSendReports (NextRun search_ints F c) t0 es) /\
  runner_ok c t0 (sv_run (Execute (NextRun search_ints F c) t0 ses)).
Proof.
  intros Hwf Hv. pose proof (NextRun_runner F c Hwf).
  split; [apply worker_ok|apply execute_ok]; assumption.
Qed.

(** C22 *)
(** No run is missed and none is repeated: the report times of the agent
    strictly increase, and every firing instant after the start time up to
    the last report is one of them. *)
Theorem worker_no_missed_runs F c t0 es :
  schedule_wf c -> valid_dt t0 ->
  let r := reports (workerSendReports (NextRun search_ints F c) t0 es) in
  StronglySorted (fun a b => instant a < instant b) r /\
  forall t, valid_dt t -> dt_second t = 0 -> cron_match c t ->
            instant t0 < instant t <= instant (default t0 (last r)) -> t ∈ r.
Proof.
  intros Hwf Hv r. pose proof (NextRun_runner F c Hwf).
  destruct (worker_ok _ c t0 Hv es) as [[Hr _]|(rest & Hr & Hf & _)]; subst r; rewrite Hr.
  - split; [constructor|]. simpl. lia.
  - split; [exact (follows_sorted c t0 rest Hf)|]. intros t Ht Hs Hm Hw.
    rewrite default_last_cons in Hw. apply list_elem_of_further. exact (follows_complete c t0 rest t Hf Ht Hs Hm Hw).
Qed.

(** C23 *)
(** With a schedule that never fires again (day 30 of February), the agent
    does its first report and then stays inside [NextRun]: whatever happens
    next, a cancelled context never makes [workerSendReports] return, so
    the [wg.Wait()] of [main] never ends. *)
Theorem worker_unsat_never_returns F c t0 es :
  schedule_wf c -> valid_dt t0 ->
  ~ fires_after c t0 ->
  rmode (workerSendReports (NextRun search_ints F c) t0 (TimerFired :: es)) <> Returned.
Proof.
  intros Hwf Hv Hno. pose proof (on_timer_unsat _ c t0 (NextRun_runner F c Hwf) Hv Hno) as Hs.
  unfold workerSendReports. simpl. rewrite worker_fold_stuck by exact Hs.
  cbn [worker_step runner_start rmode]. unfold on_timer, runner_start. cbn [today]. by destruct (NextRun search_ints F c t0) as [[]|].
Qed.

(** C24 *)
(** The status protocol of the Windows service: [Running] first, then only
    the answers to interrogations ([Running]), and [Stopped] once, last,
    exactly when the service loop has been left. *)
Theorem Execute_status next t0 es :
  exists k, sv_changes (Execute next t0 es) =
    Running :: repeat Running k ++
      (if decide (rmode (sv_run (Execute next t0 es)) = Returned) then [Stopped] else []).
Proof. apply execute_changes. Qed.

(** C25 *)
(** With a schedule that never fires again, the Windows service never
    reports [Stopped] after its first report: Stop and Shutdown requests of
    the service manager are never served. *)
Theorem Execute_unsat_never_stops F c t0 es :
  schedule_wf c -> valid_dt t0 ->
  ~ fires_after c t0 ->
  Stopped ∉ sv_changes (Execute (NextRun search_ints F c) t0 (SvcTimer :: es)).
Proof.
  intros Hwf Hv Hno. pose proof (on_timer_unsat _ c t0 (NextRun_runner F c Hwf) Hv Hno) as Hs.
  unfold Execute. simpl. rewrite execute_fold_stuck by exact Hs. simpl. set_solver.
Qed.

(** The configured schedules: the agent without [CRON_SCHEDULE] runs at
    23:55 every day, while the Windows service without [settings.ini] gets
    the empty string, which [NewCronScheduleFromString] rejects (one field
    instead of five), so the service exits at start. *)
Theorem configured_schedules :
  NewCronScheduleFromString (agent_cron "") =
    inr (mkCronSchedule [55] [23] (zrange 1 31) (zrange 1 12) (zrange 0 6)) /\
  NewCronScheduleFromString (service_cron None) = inl (InvalidCronString "" 1).
Proof. split; vm_compute; reflexivity. Qed.

(** C26 *)
(** A schedule string with two spaces in a row, such as ["0 0  * *"], is
    not rejected: it splits into five fields, the third one empty, so the
    day-of-month set is empty while the weekday set is full; such a
    schedule never fires, and the agent makes its first report and never
    another. *)
Theorem agent_empty_day_field env mi h mo ms hs mos :
  split " "%char (trim_space (agent_cron env)) = [mi; h; ""%string; mo; "*"%string] ->
  parseCronField mi 0 59 = inr ms -> parseCronField h 0 23 = inr hs -> parseCronField mo 1 12 = inr mos ->
  exists c, NewCronScheduleFromString (agent_cron env) = inr c /\ days c = [] /\
    forall F t0 es, valid_dt t0 ->
      (length (reports (workerSendReports (NextRun search_ints F c) t0 es)) <= 1)%nat.
Proof.
  intros Hs Hmi Hh Hmo. exists (mkCronSchedule ms hs [] mos (zrange 0 6)).
  assert (Hc : NewCronScheduleFromString (agent_cron env) = inr (mkCronSchedule ms hs [] mos (zrange 0 6))).
  { unfold NewCronScheduleFromString. rewrite Hs. unfold NewCronSchedule, field_result.
    by rewrite Hmi, Hh, Hmo. }
  split; [exact Hc|]. split; [reflexivity|]. intros F t0 es Hv.
  pose proof (NextRun_runner F _ (NewCronScheduleFromString_wf _ _ Hc)).
  destruct (worker_ok _ _ t0 Hv es) as [[-> _]|(rest & -> & Hf & _)]; [simpl; lia|].
  destruct rest as [|x rest]; [simpl; lia|]. exfalso. destruct Hf as [(_ & _ & (_ & _ & _ & Hday) & _) _].
  unfold day_rule in Hday. simpl in Hday. by apply not_elem_of_nil in Hday.
Qed.

(** ** Witnesses *)

Lemma runners_follow_schedule_witness :
  runner_ok test_every_minute test_now
    (workerSendReports (NextRun search_ints 100 test_every_minute) test_now [TimerFired; TimerFired]) /\
  runner_ok test_every_minute test_now
    (sv_run (Execute (NextRun search_ints 100 test_every_minute) test_now [SvcTimer; SvcRequest Stop])).
Proof.
  apply runners_follow_schedule; [apply schedule_wf_intro; vm_compute; reflexivity|decide_goal].
Defined.

Lemma worker_no_missed_runs_witness :
  let r := reports (workerSendReports (NextRun search_ints 100 test_every_minute) test_now
                      [TimerFired; TimerFired; CtxDone]) in
  StronglySorted (fun a b => instant a < instant b) r /\
  forall t, valid_dt t -> dt_second t = 0 -> cron_match test_every_minute t ->
            instant test_now < instant t <= instant (default test_now (last r)) -> t ∈ r.
Proof.
  apply worker_no_missed_runs; [apply schedule_wf_intro; vm_compute; reflexivity|decide_goal].
Defined.

Lemma worker_unsat_never_returns_witness :
  rmode (workerSendReports (NextRun search_ints 1000 feb30) test_now [TimerFired; CtxDone]) <> Returned.
Proof.
  apply worker_unsat_never_returns; [apply schedule_wf_intro; vm_compute; reflexivity|decide_goal|].
  intros (t & Ht & _ & _ & Hm). exact (feb30_never t Ht Hm).
Defined.

Lemma Execute_unsat_never_stops_witness :
  Stopped ∉ sv_changes (Execute (NextRun search_ints 1000 feb30) test_now [SvcTimer; SvcRequest Stop]).
Proof.
  apply Execute_unsat_never_stops; [apply schedule_wf_intro; vm_compute; reflexivity|decide_goal|].
  intros (t & Ht & _ & _ & Hm). exact (feb30_never t Ht Hm).
Defined.

Lemma agent_empty_day_field_witness :
  exists c, NewCronScheduleFromString "0 0  * *" = inr c /\ days c = [] /\
    forall F t0 es, valid_dt t0 ->
      (length (reports (workerSendReports (NextRun search_ints F c) t0 es)) <= 1)%nat.
Proof.
  apply (agent_empty_day_field "0 0  * *" "0" "0" "*" [0] [0] (zrange 1 12)); vm_compute; reflexivity.
Defined.
