(* ===== verification/Disk.v ===== *)
(** * Disk: the agents' disk scan

    [internal/disk/smartctl.go] (Linux agent) and [win/smartctl.go]
    (Windows service) list the disks with [smartctl --scan-open], run
    [smartctl -a] on each, and (on Linux) look up the mount points of each
    disk in [/host/proc/1/mounts].  The commands are inputs of the model: a
    [cmd_result] is the output of a command or its error with its output.
    The scan parser, the mount-table parser and the assembly of the report
    are modelled line by line; the [fmt.Errorf] and [fmt.Sprintf] texts
    are abstracted to constructors that keep what they print. *)

From S2P Require Import Prelude GoStrings.
From Stdlib Require Import Ascii.

(** ** Data ([internal/smartdata], [win/smartdata.go]) *)

(** [err, output] of [smartctl -a]: the [RawError] text of a device. *)
Record analysis_error := mk_analysis_error {
  ae_device : string; ae_type : string; ae_err : string; ae_output : string
}.

(** [SMARTDevice] ([DevType] is the field [Type]); an absent [RawError] is the empty string of Go. *)
Record SMARTDevice := mkDevice {
  Device : string; DevType : string; SMARTData : string;
  RawError : option analysis_error; MountPaths : list string
}.

(** The errors of [getSmartDevices] and [getMountPaths]. *)
Inductive disk_error :=
| ScanOpenFailed (err output : string)
| MountsFailed (err : string).

(** [CommonSMARTReport]; [Timestamp] is a count of nanoseconds from Go's
    zero time (January 1st of year 1), so that [IsZero] is [= 0]. *)
Record CommonSMARTReport := mkReport {
  Hostname : string; OS : string; Timestamp : Z;
  Devices : list SMARTDevice; ReportRawError : option disk_error
}.

(** The outcome of [cmd.CombinedOutput()] or [cmd.Output()]. *)
Inductive cmd_result := CmdOk (out : string) | CmdErr (err out : string).

(** ** [getSmartDevices] *)

Definition newline : ascii := ascii_of_nat 10.

Definition quote_cutset : list ascii := [ascii_of_nat 34; ascii_of_nat 39].

(** One line of the scan: comment cut at ['#'], trimmed, split into fields;
    the first field without quotes is the device, the third its type when
    the second is ["-d"]. *)
Definition device_type (parts : list string) : string :=
  match parts with
  | _ :: p1 :: p2 :: _ => if String.eqb p1 "-d" then p2 else ""%string
  | _ => ""%string
  end.

Definition scan_line (line : string) : option SMARTDevice :=
  let line := trim_space (cut_before "#"%char line) in
  if String.eqb line "" then None
  else match fields line with
       | [] => None
       | p0 :: rest => Some (mkDevice (trim_set quote_cutset p0) (device_type (p0 :: rest)) "" None [])
       end.

Definition getSmartDevices (scan : cmd_result) : disk_error + list SMARTDevice :=
  match scan with
  | CmdErr err out => inl (ScanOpenFailed err out)
  | CmdOk out => inr (omap scan_line (split newline out))
  end.

(** ** [runSmartctlCommands] *)


(** Linux: [smartctl -d TYPE -a DEVICE], without [-d] for an empty type. *)
Definition smartctl_args (d : SMARTDevice) : list string :=
  if String.eqb (DevType d) "" then ["-a"; Device d]%string
  else ["-d"; DevType d; "-a"; Device d]%string.

(** Windows: [smartctl.exe -a DEVICE -d TYPE -T permissive]. *)
Definition smartctl_args_win (d : SMARTDevice) : list string :=
  if String.eqb (DevType d) "" then ["-a"; Device d; "-T"; "permissive"]%string
  else ["-a"; Device d; "-d"; DevType d; "-T"; "permissive"]%string.

(** The output of the command and its error, [run] being the command. *)
Definition runSmartctlCommands (run : list string -> cmd_result) (args : list string)
  : string * option string :=
  match run args with
  | CmdOk out => (out, None)
  | CmdErr err out => (out, Some err)
  end.

(** ** [getMountPaths] *)

(** One line of the mount table: its second field when its first one
    starts with the device name. *)
Definition mount_line (deviceName line : string) : option string :=
  if String.eqb line "" then None
  else match fields line with
       | device :: mountpoint :: _ =>
           if has_prefix device deviceName then Some mountpoint else None
       | _ => None
       end.

Definition getMountPaths (mounts : cmd_result) (deviceName : string) : disk_error + list string :=
  match mounts with
  | CmdErr err _ => inl (MountsFailed err)
  | CmdOk out => inr (omap (mount_line deviceName) (split newline out))
  end.

(** ** [SmartReportOnAllDevices] and [smartReportOnAllDevices] *)

(** The body of the loop over the devices, for a device with a name:
    the [smartctl -a] output or the error, then the mount points when they
    could be read ([mounts] is the mount table each call reads). *)
Definition analyse (args : SMARTDevice -> list string) (run : list string -> cmd_result)
    (mounts : option (string -> cmd_result)) (d : SMARTDevice) : SMARTDevice :=
  let '(result, err) := runSmartctlCommands run (args d) in
  let d1 := match err with
            | Some e => mkDevice (Device d) (DevType d) (SMARTData d)
                          (Some (mk_analysis_error (Device d) (DevType d) e result)) (MountPaths d)
            | None => mkDevice (Device d) (DevType d) result (RawError d) (MountPaths d)
            end in
  match mounts with
  | Some m =>
      match getMountPaths (m (Device d)) (Device d) with
      | inr ms => mkDevice (Device d1) (DevType d1) (SMARTData d1) (RawError d1) ms
      | inl _ => d1
      end
  | None => d1
  end.

Definition report_on (os : string) (args : SMARTDevice -> list string)
    (mounts : option (string -> cmd_result)) (hostname : string) (now : Z)
    (scan : cmd_result) (run : list string -> cmd_result) : CommonSMARTReport :=
  match getSmartDevices scan with
  | inl e => mkReport hostname os now [] (Some e)
  | inr devices =>
      mkReport hostname os now
        (map (analyse args run mounts) (filter (fun d => negb (String.eqb (Device d) "")) devices)) None
  end.

(** Linux: [internal/disk/smartctl.go], with the mount points. *)
Definition SmartReportOnAllDevices (mounts : string -> cmd_result) : string -> Z -> cmd_result ->
    (list string -> cmd_result) -> CommonSMARTReport :=
  report_on "linux" smartctl_args (Some mounts).

(** Windows: [win/smartctl.go], without mount points. *)
Definition smartReportOnAllDevices : string -> Z -> cmd_result -> (list string -> cmd_result) ->
    CommonSMARTReport :=
  report_on "windows" smartctl_args_win None.

(** A word [smartctl] prints in a scan line: not empty, with no white
    space, no ['#'] and no quote. *)
Definition plain_word (w : string) : Prop :=
  w <> EmptyString /\
  Forall (fun a => is_ascii_space a = false /\ a <> "#"%char /\ a ∉ quote_cutset) (String.list_ascii_of_string w).

(** A line of [smartctl --scan-open]: the device, its options, then a
    comment. *)
Definition render_line (d : string) (opts : list string) (comment : string) : string :=
  String.append (join " "%char (d :: opts)) (String "#" comment).

(** A word of the mount table: not empty and free of white space. *)
Definition mount_word (w : string) : Prop := w <> EmptyString /\ none_of is_ascii_space w.

(** A line of [/proc/mounts]: device, mount point, then the other fields. *)
Definition mount_entry_line (e : string * string * list string) : string :=
  let '(dev, mp, rest) := e in join " "%char (dev :: mp :: rest).

#[export] Instance plain_word_dec w : Decision (plain_word w).
Proof. unfold plain_word. apply _. Defined.

(** ** Lemmas *)

Lemma plain_none p w :
  (forall a, is_ascii_space a = false -> a <> "#"%char -> a ∉ quote_cutset -> p a = false) ->
  plain_word w -> none_of p w.
Proof.
  intros Hp [_ Hw]. unfold none_of. eapply Forall_impl; [exact Hw|]. intros a (H1 & H2 & H3). auto.
Qed.

Lemma plain_space w : plain_word w -> w <> EmptyString /\ none_of is_ascii_space w.
Proof. intros Hw. split; [apply Hw|]. apply (plain_none _ w); [auto|exact Hw]. Qed.

Lemma plain_hash w : plain_word w -> none_of (fun a => Ascii.eqb a "#"%char) w.
Proof. apply plain_none. intros a _ H _. by apply Ascii.eqb_neq. Qed.

Lemma plain_newline w : plain_word w -> none_of (fun a => Ascii.eqb a newline) w.
Proof.
  apply plain_none. intros a Hs _ _. apply Ascii.eqb_neq. intros ->. discriminate.
Qed.

Lemma plain_quote w : plain_word w -> none_of (fun a => existsb (Ascii.eqb a) quote_cutset) w.
Proof.
  apply plain_none. intros a _ _ Hq. apply not_true_iff_false. intros Hin.
  apply Hq. apply existsb_exists in Hin as (b & Hb & Hab). apply Ascii.eqb_eq in Hab. subst b.
  by apply list_elem_of_In.
Qed.

Lemma scan_line_render d opts comment :
  Forall plain_word (d :: opts) ->
  scan_line (render_line d opts comment) = Some (mkDevice d (device_type (d :: opts)) "" None []).
Proof.
  intros Hl. unfold scan_line, render_line.
  rewrite cut_before_app.
  2: { apply none_of_join; [reflexivity|]. eapply Forall_impl; [exact Hl|]. apply plain_hash. }
  assert (Hsp : Forall (fun w => w <> EmptyString /\ none_of is_ascii_space w) (d :: opts))
    by (eapply Forall_impl; [exact Hl|]; apply plain_space).
  rewrite trim_space_join, fields_join by (auto || discriminate).
  inversion Hl as [|? ? Hd _]; subst. destruct (plain_space d Hd) as [Hne _].
  unfold trim_set. rewrite trim_left_none, trim_right_none by (apply plain_quote, Hd).
  destruct d as [|a d]; [congruence|]. by destruct opts.
Qed.

Lemma render_no_newline d opts comment :
  Forall plain_word (d :: opts) -> none_of (fun a => Ascii.eqb a newline) comment ->
  contains_byte (render_line d opts comment) newline = false.
Proof.
  intros Hl Hc. apply none_of_contains. unfold render_line. apply none_of_app. split.
  - apply none_of_join; [reflexivity|]. eapply Forall_impl; [exact Hl|]. apply plain_newline.
  - apply none_of_cons. by split.
Qed.

Lemma mount_word_newline w : mount_word w -> none_of (fun a => Ascii.eqb a newline) w.
Proof.
  intros [_ Hw]. unfold none_of in *. eapply Forall_impl; [exact Hw|]. intros a Ha.
  apply Ascii.eqb_neq. intros ->. discriminate.
Qed.

Lemma mount_line_render deviceName dev mp rest :
  Forall mount_word (dev :: mp :: rest) ->
  mount_line deviceName (mount_entry_line (dev, mp, rest)) =
  if has_prefix dev deviceName then Some mp else None.
Proof.
  intros Hw. unfold mount_line, mount_entry_line. rewrite fields_join by exact Hw.
  inversion Hw as [|? ? [Hd _] _]; subst. destruct dev as [|a dev]; [congruence|]. reflexivity.
Qed.

Lemma scan_line_fresh line d : scan_line line = Some d ->
  SMARTData d = EmptyString /\ RawError d = None /\ MountPaths d = [].
Proof. unfold scan_line. repeat case_match; intros; simplify_eq/=; auto. Qed.

Lemma getSmartDevices_fresh out ds d : getSmartDevices (CmdOk out) = inr ds -> d ∈ ds ->
  SMARTData d = EmptyString /\ RawError d = None /\ MountPaths d = [].
Proof.
  intros [= <-] (line & _ & Hl)%list_elem_of_omap. exact (scan_line_fresh line d Hl).
Qed.

Lemma smartctl_args_ext d d' :
  Device d = Device d' -> DevType d = DevType d' -> smartctl_args d = smartctl_args d'.
Proof. intros H1 H2. unfold smartctl_args. by rewrite H1, H2. Qed.

(** What the loop body makes of a freshly scanned device. *)
Lemma analyse_spec args run mounts d0 :
  SMARTData d0 = EmptyString -> RawError d0 = None -> MountPaths d0 = [] ->
  let d := analyse args run mounts d0 in
  Device d = Device d0 /\ DevType d = DevType d0 /\
  match run (args d0) with
  | CmdOk out => SMARTData d = out /\ RawError d = None
  | CmdErr e out => SMARTData d = EmptyString /\ RawError d = Some (mk_analysis_error (Device d0) (DevType d0) e out)
  end /\
  MountPaths d = match mounts with
                 | Some m => match getMountPaths (m (Device d0)) (Device d0) with inr ms => ms | inl _ => [] end
                 | None => []
                 end.
Proof.
  intros Hs Hr Hm. unfold analyse, runSmartctlCommands.
  destruct (run (args d0)) as [out|e out]; destruct mounts as [m|];
    try destruct (getMountPaths (m (Device d0)) (Device d0)); simpl; auto.
Qed.

Lemma fields_empty : fields EmptyString = [].
Proof. reflexivity. Qed.

Lemma mount_line_spec deviceName line m :
  mount_line deviceName line = Some m <->
  exists device rest, fields line = device :: m :: rest /\ has_prefix device deviceName = true.
Proof.
  unfold mount_line. destruct (String.eqb_spec line EmptyString) as [->|_].
  - rewrite fields_empty. split; [discriminate|]. by intros (? & ? & ? & _).
  - destruct (fields line) as [|device [|mp rest]].
    + split; [discriminate|]. by intros (? & ? & ? & _).
    + split; [discriminate|]. by intros (? & ? & ? & _).
    + destruct (has_prefix device deviceName) eqn:Hp.
      * split; [intros [= ->]; eauto|]. by intros (? & ? & [= -> -> ->] & _).
      * split; [discriminate|]. intros (? & ? & [= -> -> ->] & ?). congruence.
Qed.

(** ** Theorems *)

(** C27 *)
(** The scan parser reads back what [smartctl --scan-open] prints: for
    lines made of a device name, its options and a ['#'] comment, all
    words free of white space, ['#'] and quotes, [getSmartDevices] returns
    one device per line, in order, with the type given after [-d]. *)
Theorem getSmartDevices_render entries :
  Forall (fun '(d, opts, comment) => Forall plain_word (d :: opts) /\
            none_of (fun a => Ascii.eqb a newline) comment) entries ->
  getSmartDevices (CmdOk (join newline (map (fun '(d, opts, comment) => render_line d opts comment) entries))) =
  inr (map (fun '(d, opts, _) => mkDevice d (device_type (d :: opts)) "" None []) entries).
Proof.
  intros Hall. destruct entries as [|e es]; [reflexivity|]. cbn [getSmartDevices]. f_equal.
  rewrite split_join.
  2: { destruct e as [[? ?] ?]; discriminate. }
  2: { apply Forall_forall. intros l (x & -> & Hx)%list_elem_of_fmap.
       rewrite Forall_forall in Hall. destruct x as [[d opts] c]. destruct (Hall _ Hx).
       by apply render_no_newline. }
  clear -Hall. induction Hall as [|[[d opts] c] es' [Hw _] _ IH]; [reflexivity|].
  cbn [map omap list_omap]. rewrite scan_line_render by exact Hw. by f_equal.
Qed.

(** C28 *)
(** The Linux report: when the scan fails, a report with no device whose
    error names the failure; otherwise every device has a name, carries
    either the output of its [smartctl -a] run or the error of that run
    with its output, and the mount points read for it (none when the mount
    table could not be read). *)
Theorem SmartReportOnAllDevices_spec mounts hostname now scan run :
  let r := SmartReportOnAllDevices mounts hostname now scan run in
  Hostname r = hostname /\ OS r = "linux"%string /\ Timestamp r = now /\
  match scan with
  | CmdErr e o => Devices r = [] /\ ReportRawError r = Some (ScanOpenFailed e o)
  | CmdOk out =>
      ReportRawError r = None /\
      exists ds, getSmartDevices (CmdOk out) = inr ds /\
      Forall2 (fun d0 d => Device d0 <> EmptyString /\ Device d = Device d0 /\ DevType d = DevType d0 /\
        match run (smartctl_args d0) with
        | CmdOk out => SMARTData d = out /\ RawError d = None
        | CmdErr e out => SMARTData d = EmptyString /\
                          RawError d = Some (mk_analysis_error (Device d0) (DevType d0) e out)
        end /\
        MountPaths d = match getMountPaths (mounts (Device d0)) (Device d0) with inr ms => ms | inl _ => [] end)
      (filter (fun d0 => negb (String.eqb (Device d0) "")) ds) (Devices r)
  end.
Proof.
  unfold SmartReportOnAllDevices, report_on. destruct scan as [out|e o]; [|done].
  destruct (getSmartDevices (CmdOk out)) as [|ds] eqn:Hg; [discriminate|].
  do 3 (split; [reflexivity|]). split; [reflexivity|]. exists ds. split; [reflexivity|].
  apply Forall2_map_r, Forall_forall. intros d0 Hd0.
  apply list_elem_of_filter in Hd0 as [Hne Hd0].
  destruct (getSmartDevices_fresh out ds d0 Hg Hd0) as (Hs & Hr & Hm).
  destruct (analyse_spec smartctl_args run (Some mounts) d0 Hs Hr Hm) as (Hdev & Htyp & Hrun & Hmp).
  split; [intros Heq; rewrite Heq in Hne; exact Hne|]. auto.
Qed.

(** C29 *)
(** The mount points [getMountPaths] gives a device are the second fields
    of the lines of the mount table whose first field starts with the
    device's name ([strings.HasPrefix]), in the order of the table. *)
Theorem getMountPaths_spec entries deviceName :
  Forall (fun '(dev, mp, rest) => Forall mount_word (dev :: mp :: rest)) entries ->
  getMountPaths (CmdOk (join newline (map mount_entry_line entries))) deviceName =
  inr (map (fun '(_, mp, _) => mp) (List.filter (fun '(dev, _, _) => has_prefix dev deviceName) entries)).
Proof.
  intros Hall. destruct entries as [|e es]; [reflexivity|]. cbn [getMountPaths]. f_equal.
  rewrite split_join; [|discriminate|].
  2: { apply Forall_forall. intros l (x & -> & Hx)%list_elem_of_fmap. rewrite Forall_forall in Hall.
       destruct x as [[dev mp] rest]. apply none_of_contains. unfold mount_entry_line.
       apply none_of_join; [reflexivity|]. eapply Forall_impl; [exact (Hall _ Hx)|]. apply mount_word_newline. }
  clear -Hall. induction Hall as [|[[dev mp] rest] es' Hw _ IH]; [reflexivity|].
  cbn [map omap list_omap List.filter]. rewrite mount_line_render by exact Hw.
  destruct (has_prefix dev deviceName); cbn [map]; by rewrite IH.
Qed.

(** The prefix test attributes the partitions of another disk to a disk
    whose name is a prefix of that disk's name: the mount point of
    [/dev/sdab1] is reported as a mount point of [/dev/sda]. *)
Example getMountPaths_prefix_clash :
  getMountPaths (CmdOk "/dev/sdab1 /mnt/backup ext4 rw 0 0") "/dev/sda" = inr ["/mnt/backup"%string].
Proof. reflexivity. Qed.

(** ** Witnesses *)

(** A mount table with a partition of [/dev/sda], the root of
    [/dev/nvme0n1] and a partition of [/dev/sdab]. *)
Lemma getMountPaths_spec_witness :
  getMountPaths (CmdOk (join newline (map mount_entry_line
    [("/dev/sda1", "/", ["ext4"; "rw"]); ("/dev/nvme0n1p2", "/home", ["xfs"]);
     ("/dev/sdab1", "/mnt/backup", ["ext4"])]%string))) "/dev/sda" =
  inr (map (fun '(_, mp, _) => mp) (List.filter (fun '(dev, _, _) => has_prefix dev "/dev/sda")
    [("/dev/sda1", "/", ["ext4"; "rw"]); ("/dev/nvme0n1p2", "/home", ["xfs"]);
     ("/dev/sdab1", "/mnt/backup", ["ext4"])]%string)).
Proof.
  apply getMountPaths_spec.
  repeat apply Forall_cons_2; try apply Forall_nil_2; cbn beta iota; decide_goal.
Defined.

Lemma getSmartDevices_render_witness :
  getSmartDevices (CmdOk (join newline (map (fun '(d, opts, comment) => render_line d opts comment)
     [("/dev/sda", ["-d"; "sat"], " /dev/sda [SAT], ATA device"); ("/dev/nvme0", ["-d"; "nvme"], " NVMe")]%string))) =
  inr (map (fun '(d, opts, _) => mkDevice d (device_type (d :: opts)) "" None [])
     [("/dev/sda", ["-d"; "sat"], " /dev/sda [SAT], ATA device"); ("/dev/nvme0", ["-d"; "nvme"], " NVMe")]%string).
Proof.
  apply getSmartDevices_render.
  repeat apply Forall_cons_2; try apply Forall_nil_2; cbn beta iota; split; decide_goal.
Defined.
