(* ===== verification/SmartData.v ===== *)
(** * SmartData: the report as the collector decodes it

    The collector's [smartdata.CommonSMARTReport] and [SMARTDevice] (the
    package [internal/smartdata], which has the same fields and JSON tags
    as [win/smartdata.go]): the error texts are strings, empty when there
    is no error, the timestamp a count of nanoseconds from Go's zero time.
    Disk.v has the agents' side, where errors are structured values. *)

From S2P Require Import Prelude.

Record WireDevice := mkWireDevice {
  wDevice : string; wType : string; wSMARTData : string; wRawError : string; wMountPaths : list string
}.

Record WireReport := mkWireReport {
  wHostname : string; wOS : string; wTimestamp : Z; wDevices : list WireDevice; wReportRawError : string
}.
