(* ===== verification/LlmDesc.v ===== *)
(** * LlmDesc: the LLM describer of the collector

    [internal/llmdesc/llm.go]: [NewLLMDescriber] keeps an OpenAI client
    and a model name; [Describe] starts one of two conversations, a system
    prompt followed by a user message holding the [smartctl -a] output of
    the device (and of its previous state when there is one), sends it to
    the chat completion API and returns the text of the first choice, the
    empty string when the API fails.  The prompts are the constants of the
    source, byte for byte.  The API is an input of the model: its answer
    to a conversation ([llm_reply]); the mutex only serialises calls,
    which the sequential model of the receiver does anyway. *)

From S2P Require Import Prelude GoStrings SmartData.
From Stdlib Require Import Ascii.

(** ** The describer *)

(** [LLMSmartDescriber]: the client's base URL and key, and the model. *)
Record LLMSmartDescriber := mkDescriber { base_url : string; api_key : string; model : string }.

Definition NewLLMDescriber (baseUrl apiKey model : string) : LLMSmartDescriber :=
  mkDescriber baseUrl apiKey model.

(** ** The prompts *)

Definition NewDiskSysPrompt : string :=
"You are an expert in evaluating hard drive health using S.M.A.R.T. data.  
Carefully analyze the following key parameters from the provided 'smartctl -a' output:  
- Drive temperature  
- Power-on hours (age)  
- Total host reads/writes (data volume handled)  
- Reallocated sectors (Reallocated_Sector_Ct, Reallocated_Event_Count)  
- Uncorrectable errors (UDMA_CRC_Error_Count, Uncorrectable_Error_Count, etc.)  
- Wear leveling count, available spare, percentage used, or other endurance indicators (especially for SSDs/NVMe)  
- Any reallocated, pending, or offline uncorrectable sectors  
- Other critical or warning-level SMART attributes  

Respond **in Russian**, using a concise paragraph followed by a structured summary with emojis:  
‚úÖ = good condition, ‚ö†Ô∏è = requires attention, üî¥ = critical issue  

Use this exact response format:

[Brand] [Model], [Type: HDD/SSD/NVMe], [Form factor], [Memory type if applicable], TBW: [value], MTBF: [value], Speed: [value], Capacity: [value].

‚úÖ/‚ö†Ô∏è/üî¥ [Brief overall assessment highlighting key findings]

üîß [Actionable advice: e.g., backup data, replace soon, monitor, etc.]

üìå [Critical note if needed: e.g., imminent failure risk, high reallocated sectors, etc.]
".

Definition CompareSysPrompt : string :=
"You are an expert in evaluating storage drive health using S.M.A.R.T. data.
Analyze **both the current and the previous 'smartctl -a' outputs** to assess not only the absolute values but also **trends and changes over time**.

**Important**: A detailed assessment of drive condition is required **only if problems are detected**.
- An increase in recorded data (e.g., power-on hours, total host reads/writes) is **not** a problem by itself ‚Äî it is normal operational growth.
- Do **not** generate recommendations or detailed analysis if no issues are present.

**Specifically evaluate for signs of degradation or failure**:
- Changes in temperature patterns (unexpected spikes or sustained high temps)
- **Increase** in reallocated sectors, pending sectors, uncorrectable errors, or offline uncorrectable counts
- Degradation in wear leveling count, available spare percentage, or ‚ÄúPercentage Used‚Äù (for SSDs/NVMe)
- Any new warning or critical SMART flags that were not present before
- Rate of deterioration (e.g., how fast sectors are being reallocated or spare space is being consumed)

**Response rules**:
- Respond **in Russian**
- If **no problems detected**: Provide only a **brief, one-line assessment** with no recommendations or detailed analysis.
- If **problems detected**: Provide a concise paragraph followed by a structured summary.

Use this exact response format:

[Brand] [Model], [Type: HDD/SSD/NVMe], [Form factor], [Memory type if applicable], TBW: [value], MTBF: [value], Speed: [value], Capacity: [value], Power-on hours: [value], Total written: [terabytes].

‚úÖ/‚ö†Ô∏è/üî¥ [Brief overall assessment ‚Äî only highlight changes if issues exist.]

üîß [Actionable advice ‚Äî **only if problems are present**. Growth in power-on hours or total LBA written (TBW) is expected over time and must not be interpreted as a problem]

üìå [Critical observation about degradation speed, sudden error spikes, or imminent failure risk ‚Äî **only if problems are present**. Growth in power-on hours or total LBA written (TBW) is expected over time and must not be interpreted as a problem.]
".

#[global] Opaque NewDiskSysPrompt CompareSysPrompt.

Definition newline_str : string := String (ascii_of_nat 10) "".

(** [fmt.Sprintf("Now analyze the following 'smartctl -a' output and
    provide your assessment (in Russian):\n\n%s", text)] *)
Definition new_disk_user_message (text : string) : string :=
  String.append "Now analyze the following 'smartctl -a' output and provide your assessment (in Russian):"
    (String.append newline_str (String.append newline_str text)).

(** The raw string of the comparing conversation, with [prev.SMARTData]
    and [text] in place of its two [%s]. *)
Definition compare_user_message (prev text : string) : string :=
  String.append "Now analyze the following data and provide your assessment (in Russian):"
  (String.append newline_str (String.append newline_str
  (String.append "**Previous 'smartctl -a' output:**  " (String.append newline_str
  (String.append prev (String.append newline_str (String.append newline_str
  (String.append "**Current 'smartctl -a' output:**  " (String.append newline_str text))))))))).

(** ** [Describe] *)

(** The two conversations [Describe] can start: about a new disk, or
    comparing the previous output with the current one. *)
Inductive llm_prompt := NewDiskPrompt (text : string) | ComparePrompt (prev text : string).

Definition describe_prompt (dev prev : WireDevice) : llm_prompt :=
  if String.eqb (wSMARTData prev) "" then NewDiskPrompt (wSMARTData dev)
  else ComparePrompt (wSMARTData prev) (wSMARTData dev).

(** The answer of the chat completion API: an error, or its choices. *)
Inductive llm_reply := LlmError | LlmChoices (contents : list string).

(** [Some] description, or [None]: [chatCompletion.Choices[0]] on an
    empty list of choices panics. *)
Definition Describe (llm : llm_prompt -> llm_reply) (dev prev : WireDevice) : option string :=
  match llm (describe_prompt dev prev) with
  | LlmError => Some ""
  | LlmChoices [] => None
  | LlmChoices (c :: _) => Some c
  end.


(** ** The request *)

(** [openai.SystemMessage] and [openai.UserMessage]. *)
Inductive chat_message := SystemMessage (content : string) | UserMessage (content : string).

(** [openai.ChatCompletionNewParams{Messages: messages, Model: s.model}]. *)
Record chat_request := mkChatRequest { req_model : string; req_messages : list chat_message }.

(** The [messages] of [Describe] for each conversation. *)
Definition prompt_messages (p : llm_prompt) : list chat_message :=
  match p with
  | NewDiskPrompt text => [SystemMessage NewDiskSysPrompt; UserMessage (new_disk_user_message text)]
  | ComparePrompt prev text => [SystemMessage CompareSysPrompt; UserMessage (compare_user_message prev text)]
  end.

(** The request [Describe] sends: [Describe] is given the API's answer to
    it, which for a fixed describer depends on the conversation only. *)
Definition chat_request_of (s : LLMSmartDescriber) (p : llm_prompt) : chat_request :=
  mkChatRequest (model s) (prompt_messages p).

(** ** Lemmas *)

(** The request carries the device's [smartctl -a] output verbatim at the
    end of the user message, after the previous output when there is
    one, under the system prompt of its conversation. *)
Lemma describe_request s dev prev :
  req_model (chat_request_of s (describe_prompt dev prev)) = model s /\
  if String.eqb (wSMARTData prev) "" then
    exists pre, req_messages (chat_request_of s (describe_prompt dev prev)) =
      [SystemMessage NewDiskSysPrompt; UserMessage (String.append pre (wSMARTData dev))]
  else
    exists a b, req_messages (chat_request_of s (describe_prompt dev prev)) =
      [SystemMessage CompareSysPrompt;
       UserMessage (String.append a (String.append (wSMARTData prev) (String.append b (wSMARTData dev))))].
Proof.
  split; [reflexivity|]. unfold describe_prompt. destruct (String.eqb (wSMARTData prev) "").
  - exists (String.append "Now analyze the following 'smartctl -a' output and provide your assessment (in Russian):"
              (String.append newline_str newline_str)).
    cbn [chat_request_of req_messages prompt_messages]. unfold new_disk_user_message.
    rewrite !string_append_assoc. reflexivity.
  - exists (String.append "Now analyze the following data and provide your assessment (in Russian):"
              (String.append newline_str (String.append newline_str
              (String.append "**Previous 'smartctl -a' output:**  " newline_str)))),
           (String.append newline_str (String.append newline_str
              (String.append "**Current 'smartctl -a' output:**  " newline_str))).
    cbn [chat_request_of req_messages prompt_messages]. unfold compare_user_message.
    rewrite !string_append_assoc. reflexivity.
Qed.
