(* ===== verification/Server.v ===== *)
(** * Server: ingestion of reports, analysis state and alerts

    The collector side of [cmd/tgsmctl]: [handleSmartReport]
    ([internal/api/http.go]) checks the bearer token, reads and decodes the
    body, validates the report and passes it on a channel;
    [workerRecvReports] ([cmd/tgsmctl/worker-recv.go]) turns each report into
    chat messages, keeping for each host and device the last analysed
    device in a JSON file whose name is sanitised, and asks the LLM
    describer ([Describe], LlmDesc.v) for an assessment that compares with
    that previous state.  Reports are the [WireReport]s of SmartData.v;
    the file store is a finite map from paths to devices; the LLM answers
    and the body decoder are inputs of the model.  The theorems cover the
    sanitising, the messages, the LLM requests and crash, and the
    invariant of the state files over any sequence of reports. *)

From S2P Require Import Prelude GoStrings SmartData LlmDesc.
From Stdlib Require Import Ascii.

(** [var prev smartdata.SMARTDevice]: the zero value. *)
Definition zero_device : WireDevice := mkWireDevice "" "" "" "" [].

(** ** [handleSmartReport] *)

(** What the handler answers: an [http.Error] status and text, or the
    report passed on [chReps] (status 200). *)
Inductive http_outcome :=
| HttpError (status : Z) (text : string)
| Accepted (r : WireReport).

(** The request as the handler sees it: the [Authorization] header, the
    body ([None] when reading it fails) and the result of [json.Unmarshal]
    on it ([None] when it is not valid JSON for the report). *)
Record request := mkRequest {
  req_auth : string; req_body : option string; req_json : string -> option WireReport
}.

Definition handleSmartReport (token : string) (r : request) : http_outcome :=
  let expectedAuthHeader := String.append "Bearer " token in
  if negb (String.eqb (req_auth r) expectedAuthHeader) then HttpError 401 "Unauthorized"
  else match req_body r with
       | None => HttpError 400 "Bad Request"
       | Some body =>
           match req_json r body with
           | None => HttpError 400 "Invalid JSON"
           | Some report =>
               if String.eqb (wHostname report) "" || String.eqb (wOS report) "" ||
                  (wTimestamp report =? 0)
               then HttpError 400 "Missing required fields"
               else Accepted report
           end
       end.

(** ** The state file of a device *)

Definition quote_char : ascii := ascii_of_nat 34.

(** Slash, backslash, colon, star, question mark, double quote, angle
    brackets and bar. *)
Definition unsafe_char (a : ascii) : bool :=
  existsb (Ascii.eqb a) ["/"; "\"; ":"; "*"; "?"; quote_char; "<"; ">"; "|"]%char.

(** [strings.ReplaceAll(s, string(c), string(r))] for one-byte [c] and [r]. *)
Definition replace_all (c r : ascii) (s : string) : string :=
  String.string_of_list_ascii (map (fun a => if Ascii.eqb a c then r else a) (String.list_ascii_of_string s)).

(** [for _, r := range filename { if unsafe { filename = strings.ReplaceAll(...) } }]:
    the range runs over the original name.  All unsafe runes are ASCII, so
    the loop over bytes sees the same unsafe runes as Go's loop over runes. *)
Fixpoint sanitize_loop (rs : list ascii) (filename : string) : string :=
  match rs with
  | [] => filename
  | r :: rs' => sanitize_loop rs' (if unsafe_char r then replace_all r "_"%char filename else filename)
  end.

Definition sanitize (filename : string) : string := sanitize_loop (String.list_ascii_of_string filename) filename.

(** [fmt.Sprintf("%s_%s.json", report.Hostname, d.Device)] *)
Definition report_filename (hostname device : string) : string :=
  String.append hostname (String.append "_" (String.append device ".json")).

(** [filepath.Clean] on Unix: rooted or not, the path's elements with the
    empty ones and ["."] dropped and each [".."] cancelling the element
    before it (dropped at the root), joined by ['/']; ["."] when nothing
    is left of a relative path. *)
Fixpoint clean_elems (rooted : bool) (stack : list string) (elems : list string) : list string :=
  match elems with
  | [] => stack
  | e :: es =>
      if String.eqb e "" || String.eqb e "." then clean_elems rooted stack es
      else if String.eqb e ".." then
        match stack with
        | top :: rest => if String.eqb top ".." then clean_elems rooted (e :: stack) es
                         else clean_elems rooted rest es
        | [] => if rooted then clean_elems rooted [] es else clean_elems rooted [e] es
        end
      else clean_elems rooted (e :: stack) es
  end.

Definition clean (path : string) : string :=
  let rooted := match path with String "/" _ => true | _ => false end in
  let body := join "/"%char (rev (clean_elems rooted [] (split "/"%char path))) in
  if rooted then String "/" body
  else if String.eqb body "" then "." else body.

(** [filepath.Join(elem...)]: the non-empty elements joined by ['/'] and
    cleaned, [""] when there is none. *)
Definition filepath_join (elems : list string) : string :=
  match filter (fun e => negb (String.eqb e "")) elems with
  | [] => ""
  | ne => clean (join "/"%char ne)
  end.

Definition data_dir : string := "/var/lib/smart_reports_data/".

Definition state_path (hostname device : string) : string :=
  filepath_join [data_dir; sanitize (report_filename hostname device)].

(** ** [workerRecvReports] *)

(** The messages sent on [chTgMsg]; an analysis with no mount point uses
    the second format of the source. *)
Inductive tg_message :=
| ReportErrorMsg (host os err : string)
| DeviceErrorMsg (host os device err : string)
| AnalysisMsg (host os device : string) (mounts : list string) (desc : string).

(** The worker's state: the state files, the messages sent, the requests
    made to the LLM, and whether a panic of [Describe] has ended the
    process. *)
Record recv_state := mk_recv {
  files : gmap string WireDevice; sent : list tg_message; asked : list llm_prompt; crashed : bool
}.

(** A call of [Describe]: the [n]-th request to the LLM gets the answer
    [llm n]. *)
Definition describe_call (llm : nat -> llm_prompt -> llm_reply) (asked : list llm_prompt)
    (dev prev : WireDevice) : option string * list llm_prompt :=
  (Describe (llm (length asked)) dev prev, asked ++ [describe_prompt dev prev]).

(** One device of an error-free report: load the previous state, save the
    current one, describe, send.  The message is formatted with a first
    call of [Describe]; without mount points it is formatted again, with a
    second call. *)
Definition recv_device (llm : nat -> llm_prompt -> llm_reply) (r : WireReport) (s : recv_state)
    (d : WireDevice) : recv_state :=
  if crashed s then s
  else if negb (String.eqb (wRawError d) "") then
    mk_recv (files s) (sent s ++ [DeviceErrorMsg (wHostname r) (wOS r) (wDevice d) (wRawError d)]) (asked s) false
  else
    let filename := state_path (wHostname r) (wDevice d) in
    let prev := default zero_device (files s !! filename) in
    let files' := <[filename := d]> (files s) in
    let '(desc1, asked1) := describe_call llm (asked s) d prev in
    match desc1 with
    | None => mk_recv files' (sent s) asked1 true
    | Some desc =>
        match wMountPaths d with
        | [] =>
            let '(desc2, asked2) := describe_call llm asked1 d prev in
            match desc2 with
            | None => mk_recv files' (sent s) asked2 true
            | Some desc' => mk_recv files' (sent s ++ [AnalysisMsg (wHostname r) (wOS r) (wDevice d) [] desc']) asked2 false
            end
        | mounts => mk_recv files' (sent s ++ [AnalysisMsg (wHostname r) (wOS r) (wDevice d) mounts desc]) asked1 false
        end
    end.

Definition recv_report (llm : nat -> llm_prompt -> llm_reply) (s : recv_state) (r : WireReport) : recv_state :=
  if crashed s then s
  else if negb (String.eqb (wReportRawError r) "") then
    mk_recv (files s) (sent s ++ [ReportErrorMsg (wHostname r) (wOS r) (wReportRawError r)]) (asked s) false
  else fold_left (recv_device llm r) (wDevices r) s.

Definition workerRecvReports (llm : nat -> llm_prompt -> llm_reply) (files0 : gmap string WireDevice)
    (reports : list WireReport) : recv_state :=
  fold_left (recv_report llm) reports (mk_recv files0 [] [] false).

(** The reference the sanitising loop is compared with: every unsafe byte
    replaced by ['_'] in one pass. *)
Definition sanitize_ref (s : string) : string :=
  String.string_of_list_ascii
    (map (fun a => if unsafe_char a then "_"%char else a) (String.list_ascii_of_string s)).

(** The shape of a message: the device it is about and whether it reports
    an error, or [None] for the error of a whole report. *)
Definition msg_shape (m : tg_message) : option (string * bool) :=
  match m with
  | ReportErrorMsg _ _ _ => None
  | DeviceErrorMsg _ _ dev _ => Some (dev, true)
  | AnalysisMsg _ _ dev _ _ => Some (dev, false)
  end.

(** The state files the receiver may hold after the reports [rs]: those
    it started with, and the state file of an error-free device of one of
    the reports, named after that report's host and the device and holding
    the device. *)
Definition files_inv (files0 : gmap string WireDevice) (rs : list WireReport) (s : recv_state) : Prop :=
  forall p d, files s !! p = Some d ->
    files0 !! p = Some d \/
    (wRawError d = "" /\ exists r, r ∈ rs /\ d ∈ wDevices r /\ p = state_path (wHostname r) (wDevice d)).

(** ** Lemmas *)

Lemma sanitize_loop_spec rs cur :
  sanitize_loop rs cur = String.string_of_list_ascii
    (map (fun a => if unsafe_char a && existsb (Ascii.eqb a) rs then "_"%char else a) (String.list_ascii_of_string cur)).
Proof.
  revert cur. induction rs as [|r rs IH]; intros cur; simpl.
  - rewrite (map_ext _ id) by (intros a; by rewrite andb_false_r). by rewrite map_id, String.string_of_list_ascii_of_string.
  - rewrite IH. f_equal. destruct (unsafe_char r) eqn:Hr.
    + unfold replace_all. rewrite String.list_ascii_of_string_of_list_ascii, map_map. apply map_ext. intros a.
      destruct (Ascii.eqb_spec a r) as [->|Hne]; [by rewrite Hr|].
      reflexivity.
    + apply map_ext. intros a. destruct (Ascii.eqb_spec a r) as [->|]; [by rewrite Hr|reflexivity].
Qed.

Lemma sanitize_bytes s :
  String.list_ascii_of_string (sanitize s) =
  map (fun a => if unsafe_char a then "_"%char else a) (String.list_ascii_of_string s).
Proof.
  unfold sanitize. rewrite sanitize_loop_spec, String.list_ascii_of_string_of_list_ascii.
  apply map_ext_in. intros a Ha. destruct (unsafe_char a); [|reflexivity]. simpl.
  replace (existsb (Ascii.eqb a) (String.list_ascii_of_string s)) with true; [reflexivity|].
  symmetry. apply existsb_exists. exists a. split; [exact Ha|apply Ascii.eqb_refl].
Qed.

Lemma sanitize_safe s : none_of unsafe_char (sanitize s).
Proof.
  unfold none_of. rewrite sanitize_bytes. apply Forall_forall. intros b (a & -> & _)%list_elem_of_fmap.
  destruct (unsafe_char a) eqn:Ha; [reflexivity|exact Ha].
Qed.

Lemma sanitize_length s : length (String.list_ascii_of_string (sanitize s)) = length (String.list_ascii_of_string s).
Proof. by rewrite sanitize_bytes, length_map. Qed.

(** The name of a state file is at least six bytes long ([_] and [.json]). *)
Lemma state_name_long h d : (6 <= length (String.list_ascii_of_string (sanitize (report_filename h d))))%nat.
Proof.
  rewrite sanitize_length. unfold report_filename. rewrite !list_ascii_of_string_app, !length_app. simpl. lia.
Qed.

Lemma short_name_neq name t :
  (6 <= length (String.list_ascii_of_string name))%nat -> (length (String.list_ascii_of_string t) < 6)%nat ->
  String.eqb name t = false.
Proof. intros H1 H2. apply String.eqb_neq. intros ->. lia. Qed.

Lemma split_data_dir name :
  contains_byte name "/"%char = false ->
  split "/"%char (String.append data_dir (String "/" name)) = [""; "var"; "lib"; "smart_reports_data"; ""; name]%string.
Proof.
  intros Hn.
  change (String.append data_dir (String "/" name)) with
    (String.append "" (String "/" (String.append "var" (String "/" (String.append "lib" (String "/"
      (String.append "smart_reports_data" (String "/" (String.append "" (String "/" name)))))))))).
  rewrite !split_app_sep by reflexivity. by rewrite split_no_sep.
Qed.

Lemma recv_fold_crashed llm r ds s : crashed s = true -> fold_left (recv_device llm r) ds s = s.
Proof.
  intros Hc. induction ds as [|d ds IH]; [reflexivity|]. simpl. unfold recv_device at 2. by rewrite Hc.
Qed.

Lemma recv_reports_crashed llm rs s : crashed s = true -> fold_left (recv_report llm) rs s = s.
Proof.
  intros Hc. induction rs as [|r rs IH]; [reflexivity|]. simpl. unfold recv_report at 2. by rewrite Hc.
Qed.

Lemma recv_device_msg llm r s d :
  crashed s = false -> crashed (recv_device llm r s d) = false ->
  exists m, sent (recv_device llm r s d) = sent s ++ [m] /\
            msg_shape m = Some (wDevice d, negb (String.eqb (wRawError d) "")).
Proof.
  intros Hc. unfold recv_device, describe_call. rewrite Hc.
  destruct (String.eqb (wRawError d) "") eqn:E; simpl; repeat case_match; simplify_eq/=; try discriminate;
    intros _; eexists; (split; [reflexivity|]); by rewrite ?E.
Qed.

Lemma recv_devices_msgs llm r ds s :
  crashed s = false -> crashed (fold_left (recv_device llm r) ds s) = false ->
  exists new, sent (fold_left (recv_device llm r) ds s) = sent s ++ new /\
    map msg_shape new = map (fun d => Some (wDevice d, negb (String.eqb (wRawError d) ""))) ds.
Proof.
  revert s. induction ds as [|d ds IH]; intros s Hc Hend; simpl in *.
  - exists []. by rewrite app_nil_r.
  - destruct (crashed (recv_device llm r s d)) eqn:Hc1.
    + rewrite recv_fold_crashed in Hend by exact Hc1. congruence.
    + destruct (recv_device_msg llm r s d Hc Hc1) as (m & Hm & Hshape).
      destruct (IH _ Hc1 Hend) as (new & Hnew & Hmap). exists (m :: new).
      rewrite Hnew, Hm, <- app_assoc. simpl. by rewrite Hshape, Hmap.
Qed.

Lemma recv_devices_no_choices r ds s :
  crashed s = false -> Exists (fun d => wRawError d = "") ds ->
  crashed (fold_left (recv_device (fun _ _ => LlmChoices []) r) ds s) = true.
Proof.
  intros Hc Hex. revert s Hc. induction Hex as [d ds Hd|d ds _ IH]; intros s Hc; simpl.
  - assert (Hc1 : crashed (recv_device (fun _ _ => LlmChoices []) r s d) = true)
      by (unfold recv_device; rewrite Hc, Hd; reflexivity).
    by rewrite recv_fold_crashed.
  - destruct (crashed (recv_device (fun _ _ => LlmChoices []) r s d)) eqn:Hc1; [|by apply IH].
    by rewrite recv_fold_crashed.
Qed.

(** The state file is [data_dir] followed by the sanitised name. *)
Lemma state_path_shape h d :
  state_path h d = String.append data_dir (sanitize (report_filename h d)) /\
  none_of unsafe_char (sanitize (report_filename h d)).
Proof.
  split; [|apply sanitize_safe].
  pose proof (state_name_long h d) as Hl. pose proof (sanitize_safe (report_filename h d)) as Hs.
  unfold state_path, filepath_join. set (name := sanitize (report_filename h d)) in *.
  assert (Hslash : contains_byte name "/"%char = false).
  { apply none_of_contains. unfold none_of in *. eapply Forall_impl; [exact Hs|]. intros a Ha.
    destruct (Ascii.eqb_spec a "/"%char) as [->|]; [discriminate|reflexivity]. }
  rewrite filter_all.
  2: { repeat constructor. rewrite (short_name_neq name "") by (simpl; lia). exact I. }
  cbn [join]. unfold clean. rewrite split_data_dir by exact Hslash.
  cbn [clean_elems String.eqb Ascii.eqb Bool.eqb orb andb negb].
  rewrite (short_name_neq name ""), (short_name_neq name "."), (short_name_neq name "..") by (simpl; lia).
  reflexivity.
Qed.

Lemma recv_device_inv files0 rs llm r s d :
  r ∈ rs -> d ∈ wDevices r -> files_inv files0 rs s -> files_inv files0 rs (recv_device llm r s d).
Proof.
  intros Hr Hd Hinv. unfold recv_device. destruct (crashed s); [exact Hinv|].
  destruct (String.eqb_spec (wRawError d) "") as [Hok|]; [|exact Hinv]. cbn [negb].
  assert (Hins : forall snt a c, files_inv files0 rs
            (mk_recv (<[state_path (wHostname r) (wDevice d) := d]> (files s)) snt a c)).
  { intros snt a c p d' Hp. simpl in Hp. destruct (decide (p = state_path (wHostname r) (wDevice d))) as [->|Hne].
    - rewrite lookup_insert_eq in Hp. injection Hp as <-. right. split; [exact Hok|]. by exists r.
    - rewrite lookup_insert_ne in Hp by congruence. by apply Hinv. }
  destruct (describe_call _ _ _ _) as [[desc|] asked1]; [|apply Hins].
  destruct (wMountPaths d); [|apply Hins].
  destruct (describe_call _ _ _ _) as [[desc'|] asked2]; apply Hins.
Qed.

Lemma recv_report_inv files0 rs llm s r :
  r ∈ rs -> files_inv files0 rs s -> files_inv files0 rs (recv_report llm s r).
Proof.
  intros Hr Hinv. unfold recv_report. destruct (crashed s); [exact Hinv|].
  destruct (negb _); [exact Hinv|].
  assert (Hds : forall ds s, (forall d, d ∈ ds -> d ∈ wDevices r) -> files_inv files0 rs s ->
            files_inv files0 rs (fold_left (recv_device llm r) ds s)).
  { induction ds as [|d ds IH]; intros s' Hsub Hs; [exact Hs|]. simpl.
    apply IH; [intros x Hx; apply Hsub; set_solver|]. apply recv_device_inv; [exact Hr|apply Hsub; set_solver|exact Hs]. }
  by apply Hds.
Qed.

(** ** Theorems *)

(** C30 *)
(** The sanitising loop of [workerRecvReports] ([strings.ReplaceAll] once
    for each unsafe rune met in the original name) is the same as one pass
    replacing every unsafe byte by ['_']. *)
Theorem sanitize_equiv s : sanitize s = sanitize_ref s.
Proof.
  apply list_ascii_of_string_inj. unfold sanitize_ref.
  by rewrite sanitize_bytes, String.list_ascii_of_string_of_list_ascii.
Qed.

(** C31 *)
(** No path traversal: whatever host name and device name a report
    carries, the state file is a plain file of
    [/var/lib/smart_reports_data/] whose name has no slash, backslash,
    colon or other unsafe byte. *)
Theorem state_path_confined h d :
  state_path h d = String.append data_dir (sanitize (report_filename h d)) /\
  none_of unsafe_char (sanitize (report_filename h d)).
Proof. apply state_path_shape. Qed.

(** C32 *)
(** Message routing: as long as the server has not crashed, a report with
    an error gives exactly one error message, and an error-free report one
    message per device, in order, an error message for a device with an
    error and an analysis otherwise. *)
Theorem recv_report_messages llm s r :
  crashed s = false -> crashed (recv_report llm s r) = false ->
  exists new, sent (recv_report llm s r) = sent s ++ new /\
    map msg_shape new =
      if String.eqb (wReportRawError r) "" then map (fun d => Some (wDevice d, negb (String.eqb (wRawError d) ""))) (wDevices r)
      else [None].
Proof.
  intros Hc. unfold recv_report. rewrite Hc. destruct (String.eqb (wReportRawError r) "") eqn:E; simpl.
  - by apply recv_devices_msgs.
  - intros _. by eexists.
Qed.

(** C33 *)
(** An answer of the chat completion API with no choice crashes the
    server: [Describe] indexes [Choices[0]], and the first error-free
    device of an error-free report makes [workerRecvReports] panic, ending
    the process. *)
Theorem workerRecv_no_choices_crash f0 r rs :
  wReportRawError r = "" -> Exists (fun d => wRawError d = "") (wDevices r) ->
  crashed (workerRecvReports (fun _ _ => LlmChoices []) f0 (r :: rs)) = true.
Proof.
  intros Hr Hex. unfold workerRecvReports. simpl.
  assert (Hc : crashed (recv_report (fun _ _ => LlmChoices []) (mk_recv f0 [] [] false) r) = true).
  { unfold recv_report. simpl. rewrite Hr. simpl. by apply recv_devices_no_choices. }
  by rewrite recv_reports_crashed.
Qed.

(** The handler forwards a report exactly when the [Authorization] header
    is ["Bearer "] followed by the token, the body can be read and decoded,
    and host name, OS and timestamp are set; a wrong header is answered
    401 before the body is read. *)
Theorem handleSmartReport_spec token r rep :
  (handleSmartReport token r = Accepted rep <->
     req_auth r = String.append "Bearer " token /\
     exists body, req_body r = Some body /\ req_json r body = Some rep /\
       wHostname rep <> "" /\ wOS rep <> "" /\ wTimestamp rep <> 0) /\
  (req_auth r <> String.append "Bearer " token -> handleSmartReport token r = HttpError 401 "Unauthorized").
Proof.
  split.
  - split.
    + unfold handleSmartReport. destruct (String.eqb_spec (req_auth r) (String.append "Bearer " token)) as [Ha|];
        [|discriminate]. simpl. destruct (req_body r) as [body|]; [|discriminate].
      destruct (req_json r body) as [rep'|] eqn:Hj; [|discriminate].
      destruct (String.eqb_spec (wHostname rep') ""), (String.eqb_spec (wOS rep') ""),
        (Z.eqb_spec (wTimestamp rep') 0); simpl; try discriminate.
      intros [= <-]. split; [exact Ha|]. exists body. auto.
    + intros (Ha & body & Hb & Hj & H1 & H2 & H3). unfold handleSmartReport.
      rewrite Ha, String.eqb_refl, Hb, Hj. simpl.
      rewrite (proj2 (String.eqb_neq _ _) H1), (proj2 (String.eqb_neq _ _) H2), (proj2 (Z.eqb_neq _ _) H3).
      reflexivity.
  - intros Hne. unfold handleSmartReport. by rewrite (proj2 (String.eqb_neq _ _) Hne).
Qed.

(** C34 *)
(** Each analysed device costs one request to the LLM, but a device
    without mount points costs two: its message is formatted a first time
    with a call of [Describe], then again with a second call whose answer
    replaces the first one. *)
Theorem recv_device_llm_calls llm r s d :
  crashed s = false -> wRawError d = "" -> crashed (recv_device llm r s d) = false ->
  length (asked (recv_device llm r s d)) =
    (length (asked s) + (if decide (wMountPaths d = []) then 2 else 1))%nat.
Proof.
  intros Hc Hd. unfold recv_device, describe_call. rewrite Hc, Hd. simpl.
  repeat case_match; simplify_eq/=; try discriminate; intros _; rewrite ?length_app; simpl; lia.
Qed.

(** C35 *)
(** The collector's state files: after any sequence of reports, every
    state file is one the collector started with, or the state file of an
    error-free device it received, holding that device, named after the
    report's host and the device, directly under
    [/var/lib/smart_reports_data/] with a sanitised name. *)
Theorem workerRecv_state_files llm files0 reports p d :
  files (workerRecvReports llm files0 reports) !! p = Some d ->
  files0 !! p = Some d \/
  (wRawError d = "" /\ exists r name, r ∈ reports /\ d ∈ wDevices r /\
     p = state_path (wHostname r) (wDevice d) /\ p = String.append data_dir name /\ none_of unsafe_char name).
Proof.
  intros Hp.
  assert (Hfold : forall rs s, (forall r, r ∈ rs -> r ∈ reports) -> files_inv files0 reports s ->
            files_inv files0 reports (fold_left (recv_report llm) rs s)).
  { induction rs as [|r rs IH]; intros s Hsub Hs; [exact Hs|]. simpl.
    apply IH; [intros x Hx; apply Hsub; set_solver|]. apply recv_report_inv; [apply Hsub; set_solver|exact Hs]. }
  assert (Hinv : files_inv files0 reports (workerRecvReports llm files0 reports))
    by (apply Hfold; [done|intros q x Hq; by left]).
  destruct (Hinv p d Hp) as [H|[Hok (r & Hr & Hd & ->)]]; [by left|]. right. split; [exact Hok|].
  destruct (state_path_shape (wHostname r) (wDevice d)) as [E Hn].
  exists r, (sanitize (report_filename (wHostname r) (wDevice d))). auto.
Qed.

(** ** Witnesses *)

Definition sample_report : WireReport :=
  mkWireReport "web01" "linux" 1 [mkWireDevice "/dev/sda" "sat" "ok" "" ["/"]; mkWireDevice "/dev/sdb" "" "" "io error" []] "".

Lemma recv_report_messages_witness :
  exists new, sent (recv_report (fun _ _ => LlmChoices ["healthy"]) (mk_recv ∅ [] [] false) sample_report) =
              sent (mk_recv ∅ [] [] false) ++ new /\
    map msg_shape new =
      if String.eqb (wReportRawError sample_report) "" then
        map (fun d => Some (wDevice d, negb (String.eqb (wRawError d) ""))) (wDevices sample_report)
      else [None].
Proof. apply recv_report_messages; vm_compute; reflexivity. Defined.

Lemma workerRecv_no_choices_crash_witness :
  crashed (workerRecvReports (fun _ _ => LlmChoices []) ∅ [sample_report]) = true.
Proof. apply workerRecv_no_choices_crash; [reflexivity|]. left. reflexivity. Defined.

Lemma handleSmartReport_spec_witness :
  handleSmartReport "s3cret" (mkRequest "Bearer s3cret" (Some "{}") (fun _ => Some sample_report)) =
    Accepted sample_report.
Proof.
  apply (proj2 (proj1 (handleSmartReport_spec "s3cret" _ sample_report))).
  split; [reflexivity|]. exists "{}"%string. repeat split; try reflexivity; discriminate.
Defined.

Lemma recv_device_llm_calls_witness :
  length (asked (recv_device (fun _ _ => LlmChoices ["ok"]) sample_report (mk_recv ∅ [] [] false)
                   (mkWireDevice "/dev/sdc" "" "ok" "" []))) =
    (length (asked (mk_recv ∅ [] [] false)) +
       (if decide (wMountPaths (mkWireDevice "/dev/sdc" "" "ok" "" []) = []) then 2 else 1))%nat.
Proof. apply recv_device_llm_calls; vm_compute; reflexivity. Defined.

Lemma workerRecv_state_files_witness :
  files (workerRecvReports (fun _ _ => LlmChoices ["healthy"]) ∅ [sample_report])
    !! "/var/lib/smart_reports_data/web01__dev_sda.json" = Some (mkWireDevice "/dev/sda" "sat" "ok" "" ["/"]) /\
  exists r name, r ∈ [sample_report] /\ mkWireDevice "/dev/sda" "sat" "ok" "" ["/"] ∈ wDevices r /\
    "/var/lib/smart_reports_data/web01__dev_sda.json" = state_path (wHostname r) "/dev/sda" /\
    "/var/lib/smart_reports_data/web01__dev_sda.json" = String.append data_dir name /\ none_of unsafe_char name.
Proof.
  assert (E : files (workerRecvReports (fun _ _ => LlmChoices ["healthy"]) ∅ [sample_report])
    !! "/var/lib/smart_reports_data/web01__dev_sda.json" = Some (mkWireDevice "/dev/sda" "sat" "ok" "" ["/"]))
    by (vm_compute; reflexivity).
  split; [exact E|].
  destruct (workerRecv_state_files _ _ _ _ _ E) as [H|[_ H]]; [vm_compute in H; discriminate|exact H].
Defined.

(** Host names that differ only in unsafe bytes share a state file: the
    previous state of one is taken for the other. *)
Example state_path_shared : state_path "web/1" "/dev/sda" = state_path "web:1" "/dev/sda".
Proof. vm_compute. reflexivity. Qed.
