(* ===== verification/Transport.v ===== *)
(** * Transport: the agent's report upload and the collector's endpoint

    [win/sendreport.go] ([sendReport]) marshals the report to JSON, builds
    a [POST] request to the configured URL with the header
    [Authorization: Bearer <token>], sends it with [client.Do] and turns
    any status outside [200..299] into an error.  The other end is
    [NewHttpServer] ([internal/api/http.go]), which routes
    ["POST /smart/report"] to [handleSmartReport] (modelled in Server.v);
    Go's [ServeMux] answers 405 to another method on that path and 404 to
    another path, and [net/http] answers 200 when the handler writes no
    error.  JSON marshalling, URL parsing and the network are inputs of the
    model; [collector] plugs the collector in as the network.  The theorems
    show that the two ends agree: with the same token a valid report is
    forwarded unchanged and the upload succeeds, and with another token
    the report is refused with 401 and never forwarded. *)

From S2P Require Import Prelude GoStrings SmartData Server.

(** ** The request on the wire *)

(** What [http.NewRequestWithContext] and the two [Header.Set] calls put
    in the request; [p_path] is the path of the URL. *)
Record post := mkPost {
  p_method : string; p_path : string; p_content_type : string; p_auth : string; p_body : string
}.

(** The [error] results of [sendReport]: the [fmt.Errorf] wrappers of
    lines 15, 20 and 32 and the status error of line 37. *)
Inductive send_error :=
| MarshalError
| RequestError
| DoError
| StatusError (code : Z).

Section SendReport.
(** [report any]: the agent's report type [A]; [json.Marshal] ([None]: an
    error), the path of a URL that [http.NewRequestWithContext] accepts
    ([None]: it refuses the URL), and [client.Do] ([None]: a transport
    error, otherwise the status). *)
Context {A : Type} (marshal : A -> option string).
Context (url_path : string -> option string).
Context (client_do : post -> option Z).

Definition sendReport (apiURL token : string) (report : A) : option send_error :=
  match marshal report with
  | None => Some MarshalError
  | Some data =>
      match url_path apiURL with
      | None => Some RequestError
      | Some path =>
          let req := mkPost "POST" path "application/json" (String.append "Bearer " token) data in
          match client_do req with
          | None => Some DoError
          | Some code => if (code <? 200) || (300 <=? code) then Some (StatusError code) else None
          end
      end
  end.
End SendReport.

(** ** The collector as the other end *)

(** The status [net/http] sends for a handler outcome: the [http.Error]
    status, or 200 when the handler returns without writing one. *)
Definition http_status (o : http_outcome) : Z :=
  match o with HttpError s _ => s | Accepted _ => 200 end.

(** The request as [handleSmartReport] sees it: the body of a request
    built from a buffer is always read in full. *)
Definition server_request (unmarshal : string -> option WireReport) (p : post) : request :=
  mkRequest (p_auth p) (Some (p_body p)) unmarshal.

(** [http.Handle("POST /smart/report", ...)] on the default [ServeMux]:
    the outcome of the handler, or the router's 405 and 404. *)
Definition route (unmarshal : string -> option WireReport) (token : string) (p : post) : http_outcome :=
  if negb (String.eqb (p_path p) "/smart/report") then HttpError 404 "404 page not found"
  else if negb (String.eqb (p_method p) "POST") then HttpError 405 "Method Not Allowed"
  else handleSmartReport token (server_request unmarshal p).

(** The network when the agent talks to the collector: every request
    arrives and the collector's status comes back. *)
Definition collector (unmarshal : string -> option WireReport) (token : string) (p : post) : option Z :=
  Some (http_status (route unmarshal token p)).

(** The request [sendReport] puts on the wire, when it builds one. *)
Definition sent_post {A} (marshal : A -> option string) (url_path : string -> option string)
    (apiURL token : string) (report : A) : option post :=
  match marshal report, url_path apiURL with
  | Some data, Some path => Some (mkPost "POST" path "application/json" (String.append "Bearer " token) data)
  | _, _ => None
  end.

(** The fields [handleSmartReport] requires. *)
Definition report_valid (r : WireReport) : Prop :=
  wHostname r <> "" /\ wOS r <> "" /\ wTimestamp r <> 0.

#[export] Instance report_valid_dec r : Decision (report_valid r).
Proof. unfold report_valid. apply _. Defined.

(** ** Lemmas *)

(** [sendReport] succeeds exactly when it builds a request and the
    network answers it with a 2xx status. *)
Lemma sendReport_ok {A} (marshal : A -> option string) url_path client_do apiURL token r :
  sendReport marshal url_path client_do apiURL token r = None <->
  exists p code, sent_post marshal url_path apiURL token r = Some p /\
    client_do p = Some code /\ 200 <= code < 300.
Proof.
  unfold sendReport, sent_post.
  destruct (marshal r) as [data|], (url_path apiURL) as [path|];
    try (split; [discriminate | intros (? & ? & [=] & _)]).
  split.
  - destruct (client_do _) as [code|] eqn:Hc; [|discriminate].
    destruct ((code <? 200) || (300 <=? code)) eqn:Hb; [discriminate|]. intros _.
    apply orb_false_iff in Hb as [H1 H2]. apply Z.ltb_ge in H1. apply Z.leb_gt in H2.
    eexists _, code. split; [done|]. split; [done|lia].
  - intros (p & code & [= <-] & Hc & Hr). rewrite Hc.
    assert (Hb : ((code <? 200) || (300 <=? code)) = false)
      by (apply orb_false_iff; rewrite Z.ltb_ge, Z.leb_gt; lia).
    by rewrite Hb.
Qed.

(** What the collector answers to a request that carries its own token. *)
Lemma route_own_token unmarshal token path data r :
  unmarshal data = Some r ->
  route unmarshal token (mkPost "POST" path "application/json" (String.append "Bearer " token) data) =
    if String.eqb path "/smart/report" then
      if bool_decide (report_valid r) then Accepted r else HttpError 400 "Missing required fields"
    else HttpError 404 "404 page not found".
Proof.
  intros Hj. unfold route, handleSmartReport, server_request. cbn [p_path p_method p_auth p_body req_auth req_body req_json].
  destruct (String.eqb path "/smart/report"); [|reflexivity].
  rewrite !String.eqb_refl. simpl. rewrite Hj.
  case_bool_decide as Hv; unfold report_valid in Hv;
    destruct (String.eqb_spec (wHostname r) ""), (String.eqb_spec (wOS r) ""), (Z.eqb_spec (wTimestamp r) 0);
    simpl; first [reflexivity | exfalso; tauto].
Qed.

(** A request with another token is refused before its body is read. *)
Lemma route_other_token unmarshal token token' path data :
  token <> token' ->
  route unmarshal token' (mkPost "POST" path "application/json" (String.append "Bearer " token) data) =
    if String.eqb path "/smart/report" then HttpError 401 "Unauthorized" else HttpError 404 "404 page not found".
Proof.
  intros Hne. unfold route, handleSmartReport, server_request. cbn [p_path p_method p_auth p_body req_auth req_body req_json].
  destruct (String.eqb path "/smart/report"); [|reflexivity].
  rewrite String.eqb_refl. cbn [negb].
  destruct (String.eqb_spec (String.append "Bearer " token) (String.append "Bearer " token')) as [E|]; [|reflexivity].
  exfalso. exact (Hne (append_cancel_l _ _ _ E)).
Qed.

(** What the collector answers to the request of an upload whose body
    it decodes to [r]. *)
Lemma route_sent unmarshal token token' path data r :
  unmarshal data = Some r ->
  route unmarshal token' (mkPost "POST" path "application/json" (String.append "Bearer " token) data) =
    if String.eqb path "/smart/report" then
      if String.eqb token token' then
        if bool_decide (report_valid r) then Accepted r else HttpError 400 "Missing required fields"
      else HttpError 401 "Unauthorized"
    else HttpError 404 "404 page not found".
Proof.
  intros Hj. destruct (String.eqb_spec token token') as [<-|Hne].
  - rewrite (route_own_token _ _ _ _ _ Hj). by destruct (String.eqb path _).
  - rewrite (route_other_token _ _ _ _ _ Hne). by destruct (String.eqb path _).
Qed.

(** The status the upload gets when the collector answers it. *)
Lemma sendReport_collector {A} (marshal : A -> option string) url_path unmarshal apiURL token token' r data path :
  marshal r = Some data -> url_path apiURL = Some path ->
  sendReport marshal url_path (collector unmarshal token') apiURL token r =
    let code := http_status (route unmarshal token'
                  (mkPost "POST" path "application/json" (String.append "Bearer " token) data)) in
    if (code <? 200) || (300 <=? code) then Some (StatusError code) else None.
Proof. intros Hm Hu. unfold sendReport, collector. by rewrite Hm, Hu. Qed.

(** ** Agreement of the agent and the collector *)

(** C36 *)
(** Agent and collector agree on the protocol: when the collector decodes
    the JSON of the agent's report [x] to [r], the upload succeeds exactly
    when the URL's path is [/smart/report], both ends hold the same token
    and [r] has a host name, an OS and a timestamp; it fails with the
    collector's 404, 401 or 400 otherwise; and the collector forwards a
    report exactly in the successful case, and then [r]. *)
Theorem upload_agreement {A} (marshal : A -> option string) url_path unmarshal apiURL token token' x r data path :
  marshal x = Some data -> unmarshal data = Some r -> url_path apiURL = Some path ->
  sendReport marshal url_path (collector unmarshal token') apiURL token x =
    (if String.eqb path "/smart/report" then
       if String.eqb token token' then
         if bool_decide (report_valid r) then None else Some (StatusError 400)
       else Some (StatusError 401)
     else Some (StatusError 404)) /\
  (forall p r', sent_post marshal url_path apiURL token x = Some p ->
     route unmarshal token' p = Accepted r' <->
     r' = r /\ path = "/smart/report" /\ token = token' /\ report_valid r).
Proof.
  intros Hm Hj Hu. split.
  - rewrite (sendReport_collector _ _ _ _ _ _ _ _ _ Hm Hu), (route_sent _ _ _ _ _ _ Hj).
    by destruct (String.eqb path _), (String.eqb token token'), (bool_decide (report_valid r)).
  - intros p r'. unfold sent_post. rewrite Hm, Hu. intros [= <-].
    rewrite (route_sent _ _ _ _ _ _ Hj).
    destruct (String.eqb_spec path "/smart/report"), (String.eqb_spec token token');
      [case_bool_decide| | |]; split; try intros [=]; naive_solver.
Qed.

(** ** Witnesses *)

(** A collector with token ["secret"] that decodes the agent's body back
    to [sample_report]. *)
Definition sample_marshal (_ : WireReport) : option string := Some "{report}".
Definition sample_unmarshal (s : string) : option WireReport :=
  if String.eqb s "{report}" then Some sample_report else None.

Lemma upload_agreement_witness :
  sendReport sample_marshal (fun _ => Some "/smart/report") (collector sample_unmarshal "secret")
    "http://collector:8000/smart/report" "secret" sample_report = None /\
  sendReport sample_marshal (fun _ => Some "/smart/report") (collector sample_unmarshal "other")
    "http://collector:8000/smart/report" "secret" sample_report = Some (StatusError 401).
Proof.
  split.
  - rewrite (proj1 (upload_agreement sample_marshal (fun _ => Some "/smart/report") sample_unmarshal
      "http://collector:8000/smart/report" "secret" "secret" sample_report sample_report "{report}" "/smart/report"
      eq_refl eq_refl eq_refl)).
    vm_compute. reflexivity.
  - rewrite (proj1 (upload_agreement sample_marshal (fun _ => Some "/smart/report") sample_unmarshal
      "http://collector:8000/smart/report" "secret" "other" sample_report sample_report "{report}" "/smart/report"
      eq_refl eq_refl eq_refl)).
    vm_compute. reflexivity.
Defined.
