(* ===== verification/WinInstall.v ===== *)
(** * WinInstall: the Windows service's start-up and uploads

    [win/main.go] ([main]) opens the event log, unpacks the embedded
    [smartmontools] directory into [%PROGRAMDATA%\SMARTDataCollector] with
    [copyDir] ([win/savefs.go]), reads [settings.ini] next to the
    executable, parses the schedule and hands the [smartService] to the
    service manager; every failure on the way ends the process with
    [log.Fatal].  [win/log.go] writes each event to the event log, when
    there is one, and to the standard logger.  On each run the service's
    [collectAndSaveSMARTData] ([win/service.go]) builds a report with the
    unpacked [smartctl.exe] ([win/smartctl.go]) and uploads it with
    [sendReport] (Transport.v).

    The embedded file system is a tree ([entry]) whose directories list
    their entries in the order [fs.ReadDir] returns them.  The disk is a
    record of directories and files; [os.MkdirAll], [os.Create] and
    [io.Copy] may fail, which is an input of the model (the oracles of
    Section [Copy]), and so are the outputs of the commands.  [copyDir] is
    the recursive Go function; [plan] lists the disk operations it
    performs in order, and [exec] runs such a list, stopping at the first
    failure.  The theorems show that [copyDir] is [exec] of its [plan],
    what a failure leaves behind, that a copy that succeeds leaves every
    file of the tree, complete, at its path and writes nowhere else, how
    [main]'s outcome follows from the settings, that the service runs the
    [smartctl.exe] [main] unpacked, and that a [settings.ini] without a
    [hostname] key makes the collector refuse every upload. *)

From S2P Require Import Prelude GoStrings Schedule CronParse Disk SmartData Server Transport.
From Stdlib Require Import Ascii.

(** ** The embedded file system *)

(** An entry of [embed.FS]: a file with its contents or a directory with
    its entries. *)
Inductive entry :=
| EFile (name : string) (data : string)
| EDir (name : string) (children : list entry).

(** [filepath.Join(dir, name)] on Windows for a clean directory and a plain
    name: one backslash between them, none added after a volume root such
    as [C:\]. *)
Definition backslash : ascii := "\"%char.

Definition ends_with_backslash (s : string) : bool :=
  match last (String.list_ascii_of_string s) with
  | Some c => Ascii.eqb c backslash
  | None => false
  end.

Definition win_join (dir name : string) : string :=
  if ends_with_backslash dir then String.append dir name
  else String.append dir (String (backslash) name).

(** ** The disk *)

(** A file whose [io.Copy] failed holds an unknown prefix of its data. *)
Inductive file_state := Complete (data : string) | Truncated.

Record disk := mkDisk { d_dirs : gset string; d_files : gmap string file_state }.

(** The disk operations of [copyDir]: [os.MkdirAll(dstPath, 0755)] and
    [copyFile] ([os.Create] then [io.Copy]). *)
Inductive op := OpMkdirAll (path : string) | OpCopyFile (path : string) (data : string).

(** The errors [copyDir] returns. *)
Inductive fs_error := ErrMkdirAll (path : string) | ErrCreate (path : string) | ErrCopy (path : string).

Section Copy.
(** Whether [os.MkdirAll], [os.Create] and [io.Copy] succeed on a path. *)
Context (mkdir_ok create_ok copy_ok : string -> bool).

Definition mkdirAll (p : string) (d : disk) : disk * option fs_error :=
  if mkdir_ok p then (mkDisk ({[p]} ∪ d_dirs d) (d_files d), None) else (d, Some (ErrMkdirAll p)).

(** [copyFile]: [fs.Open] of an embedded file does not fail; [os.Create]
    creates or truncates the file; a failed [io.Copy] leaves it truncated. *)
Definition copyFile (data dstPath : string) (d : disk) : disk * option fs_error :=
  if negb (create_ok dstPath) then (d, Some (ErrCreate dstPath))
  else if copy_ok dstPath then (mkDisk (d_dirs d) (<[dstPath := Complete data]> (d_files d)), None)
  else (mkDisk (d_dirs d) (<[dstPath := Truncated]> (d_files d)), Some (ErrCopy dstPath)).

(** [for _, entry := range entries { ...; if err != nil { return err } }]:
    the body on each element in turn, returning the first error. *)
Fixpoint each {A} (body : A -> disk -> disk * option fs_error) (l : list A) (d : disk)
  : disk * option fs_error :=
  match l with
  | [] => (d, None)
  | x :: rest =>
      match body x d with
      | (d', None) => each body rest d'
      | r => r
      end
  end.

(** The body of the loop of [copyDir(fs, srcDir, dstDir)] on one entry: a
    directory is created and copied recursively, a file is copied. *)
Fixpoint copy_entry (dstDir : string) (e : entry) (d : disk) : disk * option fs_error :=
  match e with
  | EFile n data => copyFile data (win_join dstDir n) d
  | EDir n children =>
      let dstPath := win_join dstDir n in
      match mkdirAll dstPath d with
      | (d', None) => each (copy_entry dstPath) children d'
      | r => r
      end
  end.

Definition copyDir (entries : list entry) (dstDir : string) (d : disk) : disk * option fs_error :=
  each (copy_entry dstDir) entries d.

Definition exec_op (o : op) (d : disk) : disk * option fs_error :=
  match o with
  | OpMkdirAll p => mkdirAll p d
  | OpCopyFile p data => copyFile data p d
  end.

(** A list of operations run in order, stopping at the first error. *)
Definition exec (ops : list op) (d : disk) : disk * option fs_error := each exec_op ops d.

Definition op_ok (o : op) : bool :=
  match o with
  | OpMkdirAll p => mkdir_ok p
  | OpCopyFile p _ => create_ok p && copy_ok p
  end.

End Copy.

(** The operations [copy_entry] performs on an entry, in order, when none
    fails. *)
Fixpoint plan_entry (dstDir : string) (e : entry) : list op :=
  match e with
  | EFile n data => [OpCopyFile (win_join dstDir n) data]
  | EDir n children =>
      OpMkdirAll (win_join dstDir n) :: List.flat_map (plan_entry (win_join dstDir n)) children
  end.

Definition plan (entries : list entry) (dstDir : string) : list op :=
  List.flat_map (plan_entry dstDir) entries.

(** The files of an entry with their destination paths. *)
Fixpoint entry_files (dstDir : string) (e : entry) : list (string * string) :=
  match e with
  | EFile n data => [(win_join dstDir n, data)]
  | EDir n children => List.flat_map (entry_files (win_join dstDir n)) children
  end.

Definition tree_files (entries : list entry) (dstDir : string) : list (string * string) :=
  List.flat_map (entry_files dstDir) entries.

(** ** Names of the embedded tree *)

Definition entry_name (e : entry) : string := match e with EFile n _ | EDir n _ => n end.

(** A name [fs.ReadDir] returns for an embedded file: one path element,
    neither empty nor [.] or [..], with no separator. *)
Definition plain_name (n : string) : bool :=
  negb (String.eqb n "") && negb (String.eqb n ".") && negb (String.eqb n "..") &&
  forallb (fun a => negb (Ascii.eqb a backslash) && negb (Ascii.eqb a "/"%char)) (String.list_ascii_of_string n).

(** What [embed.FS] guarantees of a tree: plain names, distinct within each
    directory. *)
Fixpoint entry_wf (e : entry) : bool :=
  plain_name (entry_name e) &&
  match e with
  | EFile _ _ => true
  | EDir _ children => bool_decide (NoDup (map entry_name children)) && forallb entry_wf children
  end.

Definition tree_wf (entries : list entry) : bool :=
  bool_decide (NoDup (map entry_name entries)) && forallb entry_wf entries.

(** The files an operation list writes, with their contents. *)
Definition copies (ops : list op) : list (string * string) :=
  omap (fun o => match o with OpCopyFile p data => Some (p, data) | OpMkdirAll _ => None end) ops.

(** The effect of an operation that succeeds. *)
Definition apply_op (d : disk) (o : op) : disk :=
  match o with
  | OpMkdirAll p => mkDisk ({[p]} ∪ d_dirs d) (d_files d)
  | OpCopyFile p data => mkDisk (d_dirs d) (<[p := Complete data]> (d_files d))
  end.

Definition op_path (o : op) : string :=
  match o with OpMkdirAll p | OpCopyFile p _ => p end.

(** ** [win/log.go] *)

(** Where a line of [logEvent] and [logErrorf] goes: the event log
    ([elog.Info(1, msg)], [elog.Error(1, msg)]) and the standard logger
    ([log.Println(msg)]). *)
Inductive log_line := ElogInfo (msg : string) | ElogError (msg : string) | StdLog (msg : string).

(** [elog != nil] is [has_elog]; [msg] is the [fmt.Sprintf] text. *)
Definition logEvent (has_elog : bool) (msg : string) : list log_line :=
  (if has_elog then [ElogInfo msg] else []) ++ [StdLog msg].

Definition logErrorf (has_elog : bool) (msg : string) : list log_line :=
  (if has_elog then [ElogError msg] else []) ++ [StdLog msg].

(** ** [win/main.go] *)

Definition serviceName : string := "SMARTDataCollector".

(** The [smartService] handed to the service manager ([win/service.go]). *)
Record smartService := mkSmartService {
  Hostname : string; ApiURL : string; Token : string; Cron : string;
  schedule : CronSchedule; programData : string
}.

(** [settings.ini] next to the executable: absent ([os.Stat] fails),
    unreadable by [ini.Load], without a [Config] section, or the keys of
    that section. *)
Inductive settings_file :=
| NoSettings
| IniError
| NoConfigSection
| ConfigSection (keys : gmap string string).

(** [section.Key(k).String()]: the empty string for a missing key. *)
Definition ini_key (keys : gmap string string) (k : string) : string := default "" (keys !! k).

(** What [main] reads from the machine. *)
Record win_env := mkWinEnv {
  env_is_service : option bool;  (** [svc.IsWindowsService()], [None] on error *)
  env_eventlog_ok : bool;        (** [eventlog.Open(serviceName)] succeeds *)
  env_programdata : string;      (** [os.Getenv("PROGRAMDATA")] *)
  env_hostname : string;         (** [os.Hostname()], [""] on error *)
  env_exe_dir : option string;   (** [filepath.Dir(os.Executable())], [None] on error *)
  env_settings : settings_file
}.

(** The [log.Fatal] calls of [main]. *)
Inductive main_error :=
| FatalIsService
| FatalEventlog
| FatalCopy (e : fs_error)
| FatalExecutable
| FatalIni
| FatalSection
| FatalCron (e : schedule_error).

(** How [main] ends: a fatal error, or [run(serviceName, sms)] with
    [svc.Run] ([true]) or [debug.Run] ([false]). *)
Inductive main_outcome :=
| Fatal (e : main_error)
| Run (as_service : bool) (sms : smartService).

(** [programData]: [%PROGRAMDATA%] or [C:\], joined with the service name. *)
Definition program_dir (env_pd : string) : string :=
  win_join (if String.eqb env_pd "" then "C:\" else env_pd) serviceName.

(** The [Config] keys read after the defaults [ApiURL = Token = Cron = ""]. *)
Definition load_settings (hostname : string) (st : settings_file) : main_error + (string * string * string * string) :=
  match st with
  | NoSettings => inr (hostname, "", "", "")
  | IniError => inl FatalIni
  | NoConfigSection => inl FatalSection
  | ConfigSection keys =>
      inr (ini_key keys "hostname", ini_key keys "apiUrl", ini_key keys "token", ini_key keys "cron")
  end.

Section Main.
Context (mkdir_ok create_ok copy_ok : string -> bool).

(** [main] from [svc.IsWindowsService] to [run]; [smt] is the content of
    the embedded [smartmontools] directory.  The [os.MkdirAll] of the
    program directory has its error ignored.  Returns the disk and the
    outcome. *)
Definition win_main (env : win_env) (smt : list entry) (d : disk) : disk * main_outcome :=
  match env_is_service env with
  | None => (d, Fatal FatalIsService)
  | Some isWS =>
      if isWS && negb (env_eventlog_ok env) then (d, Fatal FatalEventlog) else
      let pd := program_dir (env_programdata env) in
      let d1 := fst (mkdirAll mkdir_ok pd d) in
      match copyDir mkdir_ok create_ok copy_ok smt pd d1 with
      | (d2, Some e) => (d2, Fatal (FatalCopy e))
      | (d2, None) =>
          match env_exe_dir env with
          | None => (d2, Fatal FatalExecutable)
          | Some _ =>
              match load_settings (env_hostname env) (env_settings env) with
              | inl e => (d2, Fatal e)
              | inr (h, api, tok, cr) =>
                  match NewCronScheduleFromString cr with
                  | inl e => (d2, Fatal (FatalCron e))
                  | inr sch => (d2, Run isWS (mkSmartService h api tok cr sch pd))
                  end
              end
          end
      end
  end.
End Main.

(** The end of [main], after [run(serviceName, sms)] returns its error or
    none; [elog] has been set at the start of [main]. *)
Definition main_exit (run_err : option string) : list log_line :=
  match run_err with
  | Some err => logErrorf true (String.append serviceName (String.append " завершилась с ошибкой: " err))
  | None => [ElogInfo (String.append serviceName " остановлена.")]
  end.

(** ** [collectAndSaveSMARTData] ([win/service.go], [win/smartctl.go]) *)

(** [exec.Command(filepath.Join(programData, "smartctl.exe"), args...)]
    with [cmd.Dir = programData]. *)
Record command := mkCommand { cmd_path : string; cmd_args : list string; cmd_dir : string }.

Definition smartctl_command (pd : string) (args : list string) : command :=
  mkCommand (win_join pd "smartctl.exe") args pd.

(** [getSmartDevices(programData)] of [win/smartctl.go]: [smartctl.exe
    --scan-open] run in the program directory, its output read by the same
    parser as the Linux agent's (Disk.v). *)
Definition getSmartDevicesWin (machine : command -> cmd_result) (pd : string) : disk_error + list SMARTDevice :=
  getSmartDevices (machine (smartctl_command pd ["--scan-open"])).

(** [runSmartctlCommands(programData, device)] of [win/smartctl.go]:
    [smartctl.exe -a DEVICE [-d TYPE] -T permissive] in the program
    directory, its output and its error. *)
Definition runSmartctlCommandsWin (machine : command -> cmd_result) (pd : string) (d : SMARTDevice)
  : string * option string :=
  runSmartctlCommands (fun args => machine (smartctl_command pd args)) (smartctl_args_win d).

Section Collect.
(** The machine runs a command ([cmd.CombinedOutput()]); [marshal],
    [url_path] and [client_do] are the inputs of [sendReport]. *)
Context (machine : command -> cmd_result) (marshal : CommonSMARTReport -> option string)
        (url_path : string -> option string) (client_do : post -> option Z).

(** The report built with the unpacked [smartctl.exe] and the result of
    its upload; [now] is [time.Now()]. *)
Definition collectAndSaveSMARTData (sms : smartService) (now : Z) : CommonSMARTReport * option send_error :=
  let pd := programData sms in
  let report := smartReportOnAllDevices (Hostname sms) now
                  (machine (smartctl_command pd ["--scan-open"]))
                  (fun args => machine (smartctl_command pd args)) in
  (report, sendReport marshal url_path client_do (ApiURL sms) (Token sms) report).
End Collect.

(** ** Induction on entries *)

Section entry_ind'.
Variable P : entry -> Prop.
Hypothesis P_file : forall n data, P (EFile n data).
Hypothesis P_dir : forall n children, Forall P children -> P (EDir n children).

Fixpoint entry_ind' (e : entry) : P e :=
  match e with
  | EFile n data => P_file n data
  | EDir n children =>
      P_dir n children
        ((fix go (l : list entry) : Forall P l :=
            match l with
            | [] => List.Forall_nil _
            | x :: l' => List.Forall_cons _ _ _ (entry_ind' x) (go l')
            end) children)
  end.
End entry_ind'.

(** ** The loop combinator *)

Lemma each_app {A} (f : A -> disk -> disk * option fs_error) l1 l2 d :
  each f (l1 ++ l2) d = match each f l1 d with (d', None) => each f l2 d' | r => r end.
Proof.
  revert d. induction l1 as [|x l1 IH]; intros d; simpl; [reflexivity|].
  destruct (f x d) as [d' [e|]]; [reflexivity|apply IH].
Qed.

Lemma each_flat_map {A B} (g : B -> disk -> disk * option fs_error) (h : A -> list B) l d :
  each g (List.flat_map h l) d = each (fun x => each g (h x)) l d.
Proof.
  revert d. induction l as [|x l IH]; intros d; simpl; [reflexivity|].
  rewrite each_app. destruct (each g (h x) d) as [d' [e|]]; [reflexivity|apply IH].
Qed.

Lemma each_ext_Forall {A} (f g : A -> disk -> disk * option fs_error) l d :
  Forall (fun x => forall d, f x d = g x d) l -> each f l d = each g l d.
Proof.
  intros Hfg. revert d. induction Hfg as [|x l Hx _ IH]; intros d; simpl; [reflexivity|].
  rewrite Hx. destruct (g x d) as [d' [e|]]; [reflexivity|apply IH].
Qed.

Lemma each_single {A} (f : A -> disk -> disk * option fs_error) x d : each f [x] d = f x d.
Proof. simpl. by destruct (f x d) as [d' [e|]]. Qed.

(** ** [copyDir] runs its plan *)

Lemma copy_entry_plan mk cr cp dstDir e d :
  copy_entry mk cr cp dstDir e d = exec mk cr cp (plan_entry dstDir e) d.
Proof.
  revert dstDir d. induction e as [n data|n children IH] using entry_ind'; intros dstDir d.
  - unfold exec. simpl plan_entry. rewrite each_single. reflexivity.
  - cbn [copy_entry plan_entry]. unfold exec. cbn [each exec_op].
    destruct (mkdirAll mk _ d) as [d' [e|]]; [reflexivity|].
    rewrite each_flat_map. apply each_ext_Forall.
    eapply Forall_impl; [exact IH|]. intros x Hx d''. apply Hx.
Qed.

(** [copyDir] performs the operations of its plan in order and stops at
    the first that fails. *)
Lemma copyDir_exec mk cr cp entries dstDir d :
  copyDir mk cr cp entries dstDir d = exec mk cr cp (plan entries dstDir) d.
Proof.
  unfold copyDir, exec, plan. rewrite each_flat_map. apply each_ext_Forall.
  apply Forall_forall. intros e _ d'. apply copy_entry_plan.
Qed.

(** ** Running a list of operations *)

Lemma exec_op_ok mk cr cp o d : op_ok mk cr cp o = true -> exec_op mk cr cp o d = (apply_op d o, None).
Proof.
  destruct o as [p|p data]; simpl; unfold mkdirAll, copyFile; [by intros ->|].
  intros [-> ->]%andb_true_iff. reflexivity.
Qed.

Lemma exec_op_fail mk cr cp o d : op_ok mk cr cp o = false -> snd (exec_op mk cr cp o d) <> None.
Proof.
  destruct o as [p|p data]; simpl; unfold mkdirAll, copyFile; [by intros ->|].
  intros [-> | ->]%andb_false_iff; simpl; [done|]. by destruct (cr p).
Qed.

Lemma exec_cons_ok mk cr cp o ops d :
  op_ok mk cr cp o = true -> exec mk cr cp (o :: ops) d = exec mk cr cp ops (apply_op d o).
Proof. intros Ho. unfold exec. simpl. by rewrite exec_op_ok. Qed.

Lemma exec_all_ok mk cr cp ops d :
  Forall (fun o => op_ok mk cr cp o = true) ops -> exec mk cr cp ops d = (foldl apply_op d ops, None).
Proof.
  intros Hok. revert d. induction Hok as [|o ops Ho _ IH]; intros d; [reflexivity|].
  rewrite exec_cons_ok by exact Ho. apply IH.
Qed.

(** The first operation that fails ends the run with its error, on the
    disk left by the operations before it. *)
Lemma exec_first_failure mk cr cp ops d k o :
  ops !! k = Some o -> op_ok mk cr cp o = false ->
  Forall (fun o' => op_ok mk cr cp o' = true) (take k ops) ->
  exec mk cr cp ops d = exec_op mk cr cp o (foldl apply_op d (take k ops)).
Proof.
  revert ops d. induction k as [|k IH]; intros [|o' ops] d Hk Ho Hpre; simplify_eq/=.
  - unfold exec. simpl. destruct (exec_op mk cr cp o d) as [d' [e|]] eqn:E; [reflexivity|].
    exfalso. apply (exec_op_fail mk cr cp o d Ho). by rewrite E.
  - apply Forall_cons in Hpre as [Ho' Hpre]. rewrite exec_cons_ok by exact Ho'. by apply IH.
Qed.

(** ** Where [copyDir] writes *)

Definition under (dir p : string) : Prop := exists rest, p = String.append dir rest.

Lemma under_trans a b c : under a b -> under b c -> under a c.
Proof. intros [r1 ->] [r2 ->]. exists (String.append r1 r2). by rewrite string_append_assoc. Qed.

Lemma under_join dir n : under dir (win_join dir n).
Proof. unfold win_join. destruct (ends_with_backslash dir); eexists; reflexivity. Qed.

Lemma plan_entry_under dstDir e : Forall (fun o => under dstDir (op_path o)) (plan_entry dstDir e).
Proof.
  revert dstDir. induction e as [n data|n children IH] using entry_ind'; intros dstDir; simpl.
  - repeat constructor. apply under_join.
  - constructor; [apply under_join|]. apply Forall_forall. intros o Ho.
    apply list_elem_of_In, in_flat_map in Ho as (e & He & Ho). apply list_elem_of_In in He, Ho.
    rewrite Forall_forall in IH. specialize (IH e He (win_join dstDir n)). rewrite Forall_forall in IH.
    apply (under_trans _ (win_join dstDir n)); [apply under_join|]. by apply IH.
Qed.

Lemma plan_under entries dstDir : Forall (fun o => under dstDir (op_path o)) (plan entries dstDir).
Proof.
  apply Forall_forall. intros o Ho. apply list_elem_of_In, in_flat_map in Ho as (e & _ & Ho).
  apply list_elem_of_In in Ho. pose proof (plan_entry_under dstDir e) as He.
  rewrite Forall_forall in He. by apply He.
Qed.

(** An operation on another path leaves a file or directory as it was,
    whether it succeeds or fails. *)
Lemma exec_op_frame mk cr cp o d p :
  op_path o <> p ->
  d_files (fst (exec_op mk cr cp o d)) !! p = d_files d !! p /\
  (p ∈ d_dirs (fst (exec_op mk cr cp o d)) <-> p ∈ d_dirs d).
Proof.
  intros Hp. destruct o as [q|q data]; simpl in *; unfold mkdirAll, copyFile.
  - destruct (mk q); simpl; [|done]. split; [done|]. set_solver.
  - destruct (cr q); simpl; [|done]. destruct (cp q); simpl; by rewrite lookup_insert_ne.
Qed.

Lemma exec_frame mk cr cp ops d p :
  Forall (fun o => op_path o <> p) ops ->
  d_files (fst (exec mk cr cp ops d)) !! p = d_files d !! p /\
  (p ∈ d_dirs (fst (exec mk cr cp ops d)) <-> p ∈ d_dirs d).
Proof.
  unfold exec. intros Hops. revert d. induction Hops as [|o ops Ho _ IH]; intros d; [done|]. simpl.
  destruct (exec_op_frame mk cr cp o d p Ho) as [Hf Hd].
  destruct (exec_op mk cr cp o d) as [d' [e|]]; simpl in *; [done|].
  destruct (IH d') as [IHf IHd]. rewrite IHf, IHd. done.
Qed.

(** ** What a successful copy leaves *)

Lemma flat_map_ext_elem {A B} (f g : A -> list B) l :
  (forall x, x ∈ l -> f x = g x) -> List.flat_map f l = List.flat_map g l.
Proof.
  induction l as [|x l IH]; intros H; simpl; [done|].
  rewrite H by apply list_elem_of_here. f_equal. apply IH. intros y Hy. apply H. by apply list_elem_of_further.
Qed.

Lemma copies_app l1 l2 : copies (l1 ++ l2) = copies l1 ++ copies l2.
Proof. apply omap_app. Qed.

Lemma copies_flat_map {A} (f : A -> list op) l :
  copies (List.flat_map f l) = List.flat_map (fun x => copies (f x)) l.
Proof. induction l as [|x l IH]; simpl; [reflexivity|]. by rewrite copies_app, IH. Qed.

Lemma copies_plan_entry dstDir e : copies (plan_entry dstDir e) = entry_files dstDir e.
Proof.
  revert dstDir. induction e as [n data|n children IH] using entry_ind'; intros dstDir; [reflexivity|].
  cbn [plan_entry entry_files]. change (copies (OpMkdirAll _ :: ?l)) with (copies l).
  rewrite copies_flat_map. apply flat_map_ext_elem. intros e He.
  rewrite Forall_forall in IH. by apply IH.
Qed.

Lemma copies_plan entries dstDir : copies (plan entries dstDir) = tree_files entries dstDir.
Proof.
  unfold plan, tree_files. rewrite copies_flat_map. apply flat_map_ext_elem. intros e _. apply copies_plan_entry.
Qed.

Lemma foldl_apply_other ops d p :
  p ∉ map fst (copies ops) -> d_files (foldl apply_op d ops) !! p = d_files d !! p.
Proof.
  revert d. induction ops as [|[q|q data] ops IH]; intros d Hp; simpl; [done|rewrite IH by exact Hp; reflexivity|].
  cbn in Hp. apply not_elem_of_cons in Hp as [Hq Hp]. rewrite IH by exact Hp. simpl.
  by rewrite lookup_insert_ne.
Qed.

Lemma foldl_apply_copy ops d p data :
  NoDup (map fst (copies ops)) -> (p, data) ∈ copies ops ->
  d_files (foldl apply_op d ops) !! p = Some (Complete data).
Proof.
  revert d. induction ops as [|[q|q v] ops IH]; intros d Hnd Hin; simpl in *.
  - by apply not_elem_of_nil in Hin.
  - by apply IH.
  - inversion Hnd as [|? ? Hq Hnd']; subst. apply elem_of_cons in Hin as [[= -> ->]|Hin].
    + rewrite foldl_apply_other by exact Hq. simpl. by rewrite lookup_insert_eq.
    + by apply IH.
Qed.

(** ** Distinct destination paths *)

(** A suffix that leaves a path element complete. *)
Definition sep_suffix (s : string) : Prop := s = "" \/ exists s', s = String backslash s'.

Lemma plain_name_spec n :
  plain_name n = true -> n <> "" /\ backslash ∉ String.list_ascii_of_string n.
Proof.
  unfold plain_name. intros H. apply andb_true_iff in H as [H Hall].
  repeat (apply andb_true_iff in H as [H ?]). split; [by destruct (String.eqb_spec n "")|].
  intros Hin. rewrite forallb_forall in Hall. specialize (Hall backslash (proj1 (list_elem_of_In _ _) Hin)).
  rewrite Ascii.eqb_refl in Hall. discriminate.
Qed.

Lemma ends_with_backslash_app s n :
  n <> "" -> ends_with_backslash (String.append s n) = ends_with_backslash n.
Proof.
  intros Hn. unfold ends_with_backslash. rewrite list_ascii_of_string_app, last_app.
  destruct n as [|a n]; [done|]. simpl. destruct (last (a :: String.list_ascii_of_string n)) eqn:E; [done|].
  by apply last_None in E.
Qed.

Lemma join_not_ends dst n : plain_name n = true -> ends_with_backslash (win_join dst n) = false.
Proof.
  intros Hp. destruct (plain_name_spec n Hp) as [Hne Hno].
  assert (H : ends_with_backslash n = false).
  { unfold ends_with_backslash. destruct (last _) as [c|] eqn:E; [|done].
    destruct (Ascii.eqb_spec c backslash) as [->|]; [|done].
    exfalso. apply Hno. apply last_Some_elem_of. exact E. }
  unfold win_join. destruct (ends_with_backslash dst).
  - by rewrite ends_with_backslash_app.
  - rewrite ends_with_backslash_app by discriminate.
    change (String backslash n) with (String.append (String backslash EmptyString) n).
    by rewrite ends_with_backslash_app.
Qed.

Lemma join_nested dst n m :
  plain_name n = true -> win_join (win_join dst n) m = String.append (win_join dst n) (String backslash m).
Proof. intros Hp. unfold win_join at 1. by rewrite join_not_ends. Qed.

(** Every destination path of an entry is its own path or a path below it. *)
Lemma entry_paths_shape dst e :
  entry_wf e = true ->
  Forall (fun p => exists s, p = String.append (win_join dst (entry_name e)) s /\ sep_suffix s)
    (map fst (entry_files dst e)).
Proof.
  revert dst. induction e as [n data|n children IH] using entry_ind'; intros dst Hwf.
  - repeat constructor. exists "". split; [|by left]. by rewrite string_append_empty_r.
  - cbn [entry_wf entry_name] in Hwf. apply andb_true_iff in Hwf as [Hp Hwf].
    apply andb_true_iff in Hwf as [_ Hall]. apply Forall_forall. intros p Hin.
    apply list_elem_of_fmap in Hin as ([q data] & -> & Hin). simpl entry_files in Hin.
    apply list_elem_of_In, in_flat_map in Hin as (c & Hc & Hin). apply list_elem_of_In in Hc, Hin.
    rewrite Forall_forall in IH. specialize (IH c Hc (win_join dst n)).
    rewrite forallb_forall in Hall. specialize (Hall c (proj1 (list_elem_of_In _ _) Hc)).
    rewrite Forall_forall in IH. destruct (IH Hall q (list_elem_of_fmap_2 fst _ (q, data) Hin)) as (s & -> & _).
    rewrite join_nested by exact Hp. exists (String backslash (String.append (entry_name c) s)).
    split; [by rewrite string_append_assoc|]. right. by eexists.
Qed.

(** Two plain names followed by complete suffixes are equal when the
    paths are. *)
Lemma name_sep_inj n1 n2 s1 s2 :
  backslash ∉ String.list_ascii_of_string n1 -> backslash ∉ String.list_ascii_of_string n2 ->
  sep_suffix s1 -> sep_suffix s2 -> String.append n1 s1 = String.append n2 s2 -> n1 = n2.
Proof.
  revert n2. induction n1 as [|a n1 IH]; intros [|b n2] H1 H2 Hs1 Hs2 E; [done| | |].
  - destruct Hs1 as [->|[s' ->]]; [discriminate|]. injection E as <- _.
    exfalso. apply H2. apply list_elem_of_here.
  - destruct Hs2 as [->|[s' ->]]; [discriminate|]. injection E as -> _.
    exfalso. apply H1. apply list_elem_of_here.
  - injection E as -> E. f_equal. apply IH; auto.
    + intros Hin. apply H1. by apply list_elem_of_further.
    + intros Hin. apply H2. by apply list_elem_of_further.
Qed.

Lemma join_inj dst n1 n2 s1 s2 :
  plain_name n1 = true -> plain_name n2 = true -> sep_suffix s1 -> sep_suffix s2 ->
  String.append (win_join dst n1) s1 = String.append (win_join dst n2) s2 -> n1 = n2.
Proof.
  intros Hp1 Hp2 Hs1 Hs2 E. destruct (plain_name_spec _ Hp1) as [_ H1], (plain_name_spec _ Hp2) as [_ H2].
  unfold win_join in E. destruct (ends_with_backslash dst); rewrite !string_append_assoc in E;
    apply append_cancel_l in E.
  - exact (name_sep_inj n1 n2 s1 s2 H1 H2 Hs1 Hs2 E).
  - change (String backslash (String.append n1 s1) = String backslash (String.append n2 s2)) in E.
    injection E as E. exact (name_sep_inj n1 n2 s1 s2 H1 H2 Hs1 Hs2 E).
Qed.

Lemma map_fst_flat_map {A} (g : A -> list (string * string)) x l :
  map fst (List.flat_map g (x :: l)) = map fst (g x) ++ map fst (List.flat_map g l).
Proof. simpl. apply map_app. Qed.

(** The entries of a directory with distinct names, each with distinct
    paths, have distinct paths. *)
Lemma entries_paths_NoDup dst es :
  NoDup (map entry_name es) ->
  Forall (fun e => entry_wf e = true /\ NoDup (map fst (entry_files dst e))) es ->
  NoDup (map fst (List.flat_map (entry_files dst) es)).
Proof.
  induction es as [|e es IH]; intros Hn Hall; [constructor|].
  apply NoDup_cons in Hn as [He Hn]. apply Forall_cons in Hall as [[Hwf Hnd] Hall].
  rewrite map_fst_flat_map. apply NoDup_app. split; [exact Hnd|]. split; [|by apply IH].
  intros p Hp Hp'. apply He.
  apply list_elem_of_fmap in Hp' as ([q data] & -> & Hq). simpl in Hp.
  apply list_elem_of_In, in_flat_map in Hq as (e' & He' & Hq). apply list_elem_of_In in He', Hq.
  apply Forall_forall with (x := e') in Hall as [Hwf' _]; [|exact He'].
  pose proof (entry_paths_shape dst e Hwf) as S1. pose proof (entry_paths_shape dst e' Hwf') as S2.
  rewrite Forall_forall in S1, S2.
  destruct (S1 q Hp) as (s1 & E1 & Hs1), (S2 q (list_elem_of_fmap_2 fst _ (q, data) Hq)) as (s2 & E2 & Hs2).
  assert (Hpn : forall x, entry_wf x = true -> plain_name (entry_name x) = true)
    by (intros [] Hx; apply andb_true_iff in Hx; tauto).
  rewrite (join_inj dst (entry_name e) (entry_name e') s1 s2 (Hpn _ Hwf) (Hpn _ Hwf') Hs1 Hs2 (eq_trans (eq_sym E1) E2)).
  by apply list_elem_of_fmap_2.
Qed.

Lemma entry_paths_NoDup dst e : entry_wf e = true -> NoDup (map fst (entry_files dst e)).
Proof.
  revert dst. induction e as [n data|n children IH] using entry_ind'; intros dst Hwf.
  - repeat constructor. set_solver.
  - cbn [entry_wf entry_name] in Hwf. apply andb_true_iff in Hwf as [_ Hwf].
    apply andb_true_iff in Hwf as [Hnd Hall]. apply bool_decide_eq_true in Hnd.
    apply entries_paths_NoDup; [exact Hnd|]. rewrite Forall_forall in IH |- *. intros c Hc.
    rewrite forallb_forall in Hall. specialize (Hall c (proj1 (list_elem_of_In _ _) Hc)).
    split; [exact Hall|]. by apply IH.
Qed.

(** A well-formed tree has distinct destination paths, whatever the
    destination. *)
Lemma tree_wf_NoDup entries dst : tree_wf entries = true -> NoDup (map fst (tree_files entries dst)).
Proof.
  unfold tree_wf. intros H. apply andb_true_iff in H as [Hnd Hall]. apply bool_decide_eq_true in Hnd.
  apply entries_paths_NoDup; [exact Hnd|]. apply Forall_forall. intros e He.
  rewrite forallb_forall in Hall. specialize (Hall e (proj1 (list_elem_of_In _ _) He)).
  split; [exact Hall|]. by apply entry_paths_NoDup.
Qed.

(** ** [copyDir] *)

(** A copy in which every [os.MkdirAll], [os.Create] and [io.Copy]
    succeeds returns no error and leaves every file of the tree, with its
    whole contents, at its path under the destination (when the tree's
    paths are distinct). *)
Lemma copyDir_complete mk cr cp entries dstDir d :
  Forall (fun o => op_ok mk cr cp o = true) (plan entries dstDir) ->
  NoDup (map fst (tree_files entries dstDir)) ->
  copyDir mk cr cp entries dstDir d = (foldl apply_op d (plan entries dstDir), None) /\
  forall p data, (p, data) ∈ tree_files entries dstDir ->
    d_files (fst (copyDir mk cr cp entries dstDir d)) !! p = Some (Complete data).
Proof.
  intros Hok Hnd. rewrite copyDir_exec, exec_all_ok by exact Hok. split; [reflexivity|].
  intros p data Hin. simpl. rewrite <- copies_plan in Hnd, Hin. by apply foldl_apply_copy.
Qed.

(** Whatever fails, [copyDir] touches no file or directory whose path
    does not start with the destination directory. *)
Lemma copyDir_confined mk cr cp entries dstDir d p :
  ~ under dstDir p ->
  d_files (fst (copyDir mk cr cp entries dstDir d)) !! p = d_files d !! p /\
  (p ∈ d_dirs (fst (copyDir mk cr cp entries dstDir d)) <-> p ∈ d_dirs d).
Proof.
  intros Hp. rewrite copyDir_exec. apply exec_frame.
  eapply Forall_impl; [apply plan_under|]. intros o Ho <-. exact (Hp Ho).
Qed.

(** The first operation of the plan that fails ends [copyDir] with its
    error, on the disk left by the operations before it. *)
Lemma copyDir_first_error mk cr cp entries dstDir d k o :
  plan entries dstDir !! k = Some o -> op_ok mk cr cp o = false ->
  Forall (fun o' => op_ok mk cr cp o' = true) (take k (plan entries dstDir)) ->
  copyDir mk cr cp entries dstDir d = exec_op mk cr cp o (foldl apply_op d (take k (plan entries dstDir))) /\
  snd (copyDir mk cr cp entries dstDir d) <> None.
Proof.
  intros Hk Ho Hpre. rewrite copyDir_exec. rewrite (exec_first_failure _ _ _ _ _ _ _ Hk Ho Hpre).
  split; [reflexivity|]. by apply exec_op_fail.
Qed.

(** ** [main] *)

(** When the start-up steps before the settings succeed, [main] ends as
    the settings and the schedule parser decide, with the embedded files
    unpacked under the program directory. *)
Lemma win_main_success mk cr cp env smt d ws :
  env_is_service env = Some ws -> (ws = true -> env_eventlog_ok env = true) -> env_exe_dir env <> None ->
  Forall (fun o => op_ok mk cr cp o = true) (plan smt (program_dir (env_programdata env))) ->
  fst (win_main mk cr cp env smt d) =
    foldl apply_op (fst (mkdirAll mk (program_dir (env_programdata env)) d)) (plan smt (program_dir (env_programdata env))) /\
  snd (win_main mk cr cp env smt d) =
    match load_settings (env_hostname env) (env_settings env) with
    | inl e => Fatal e
    | inr (h, api, tok, c) =>
        match NewCronScheduleFromString c with
        | inl e => Fatal (FatalCron e)
        | inr sch => Run ws (mkSmartService h api tok c sch (program_dir (env_programdata env)))
        end
    end.
Proof.
  intros Hws Hel Hexe Hok. unfold win_main. rewrite Hws.
  assert (Hlog : ws && negb (env_eventlog_ok env) = false)
    by (destruct ws; [rewrite Hel by reflexivity|]; reflexivity).
  rewrite Hlog, copyDir_exec, exec_all_ok by exact Hok.
  destruct (env_exe_dir env) as [dir|]; [|congruence].
  destruct (load_settings _ _) as [e|[[[h api] tok] c]]; [done|].
  by destruct (NewCronScheduleFromString c).
Qed.

(** ** The service's uploads *)

Lemma report_on_hostname os args mounts h now scan run :
  Disk.Hostname (report_on os args mounts h now scan run) = h.
Proof. unfold report_on. by destruct (getSmartDevices scan). Qed.

(** The service that [main] runs works in the program directory and,
    when [settings.ini] has a [Config] section, takes its host name from
    it. *)
Lemma win_main_run mk cr cp env smt d ws sms :
  snd (win_main mk cr cp env smt d) = Run ws sms ->
  programData sms = program_dir (env_programdata env) /\
  (forall keys, env_settings env = ConfigSection keys -> Hostname sms = ini_key keys "hostname").
Proof.
  intros Hr. unfold win_main in Hr.
  destruct (env_is_service env) as [isWS|]; [|discriminate]. destruct (_ && _); [discriminate|].
  destruct (copyDir _ _ _ _ _ _) as [d2 [e|]]; [discriminate|].
  destruct (env_exe_dir env); [|discriminate].
  destruct (load_settings _ _) as [e|[[[h api] tok] c]] eqn:Hl; [discriminate|].
  destruct (NewCronScheduleFromString _); [discriminate|]. injection Hr as _ <-. simpl.
  split; [reflexivity|]. intros keys Hs. rewrite Hs in Hl. by injection Hl as <- _ _ _.
Qed.

(** The [smartctl.exe] the service runs is the one [main] unpacked, when
    the unpacking succeeded and the embedded tree has one at its top. *)
Lemma service_runs_unpacked_smartctl mk cr cp env smt d ws sms bin args :
  env_is_service env = Some ws -> (ws = true -> env_eventlog_ok env = true) -> env_exe_dir env <> None ->
  Forall (fun o => op_ok mk cr cp o = true) (plan smt (program_dir (env_programdata env))) ->
  tree_wf smt = true -> EFile "smartctl.exe" bin ∈ smt ->
  snd (win_main mk cr cp env smt d) = Run ws sms ->
  d_files (fst (win_main mk cr cp env smt d)) !! cmd_path (smartctl_command (programData sms) args) = Some (Complete bin).
Proof.
  intros Hws Hel Hexe Hok Hwf Hin Hr. pose proof (tree_wf_NoDup smt (program_dir (env_programdata env)) Hwf) as Hnd.
  destruct (win_main_success mk cr cp env smt d ws Hws Hel Hexe Hok) as [Hd _].
  rewrite Hd, (proj1 (win_main_run _ _ _ _ _ _ _ _ Hr)). simpl.
  rewrite <- copies_plan in Hnd. apply foldl_apply_copy; [exact Hnd|].
  rewrite copies_plan. unfold tree_files. apply list_elem_of_In, in_flat_map.
  exists (EFile "smartctl.exe" bin). split; [by apply list_elem_of_In|]. simpl. by left.
Qed.

(** Every upload of a report whose host name the collector decodes as
    empty fails, whatever the path and the token. *)
Lemma upload_empty_host_fails {A} (marshal : A -> option string) url_path unmarshal apiURL token token' x r data :
  marshal x = Some data -> unmarshal data = Some r -> wHostname r = "" ->
  sendReport marshal url_path (collector unmarshal token') apiURL token x <> None.
Proof.
  intros Hm Hj Hh. unfold sendReport. rewrite Hm.
  destruct (url_path apiURL) as [path|]; [|discriminate]. unfold collector.
  rewrite (route_sent _ _ _ _ _ _ Hj).
  rewrite bool_decide_eq_false_2 by (intros [Hne _]; exact (Hne Hh)).
  by destruct (String.eqb path _), (String.eqb token token').
Qed.

(** C39 *)
(** The Windows service started by [main] from a [settings.ini] whose
    [Config] section has no [hostname] key reports under the empty host
    name, and the collector refuses every one of its uploads (when the
    JSON keeps the host name, as the [json:"hostname"] tags of both sides
    do). *)
Theorem service_without_hostname mk cr cp env smt d ws sms keys machine marshal url_path unmarshal token' now data r :
  snd (win_main mk cr cp env smt d) = Run ws sms -> env_settings env = ConfigSection keys ->
  keys !! "hostname" = None ->
  let rep := fst (collectAndSaveSMARTData machine marshal url_path (collector unmarshal token') sms now) in
  marshal rep = Some data -> unmarshal data = Some r -> wHostname r = Disk.Hostname rep ->
  Disk.Hostname rep = "" /\
  snd (collectAndSaveSMARTData machine marshal url_path (collector unmarshal token') sms now) <> None.
Proof.
  intros Hr Hs Hk rep Hm Hj Hh.
  assert (Hrep : Disk.Hostname rep = "").
  { unfold rep, collectAndSaveSMARTData, smartReportOnAllDevices. cbn [fst].
    rewrite report_on_hostname, (proj2 (win_main_run _ _ _ _ _ _ _ _ Hr) keys Hs). unfold ini_key. by rewrite Hk. }
  split; [exact Hrep|]. unfold collectAndSaveSMARTData. cbn [snd].
  apply (upload_empty_host_fails _ _ _ _ _ _ _ r data Hm Hj). by rewrite Hh.
Qed.

(** The report of a Windows run: the scan of the unpacked
    [smartctl.exe], or its error, and each named device analysed by it. *)
Lemma collect_report machine marshal url_path client_do sms now :
  fst (collectAndSaveSMARTData machine marshal url_path client_do sms now) =
  match getSmartDevicesWin machine (programData sms) with
  | inl e => mkReport (Hostname sms) "windows" now [] (Some e)
  | inr devices =>
      mkReport (Hostname sms) "windows" now
        (map (fun d =>
                match runSmartctlCommandsWin machine (programData sms) d with
                | (result, Some e) => mkDevice (Device d) (DevType d) (SMARTData d)
                                        (Some (mk_analysis_error (Device d) (DevType d) e result)) (MountPaths d)
                | (result, None) => mkDevice (Device d) (DevType d) result (RawError d) (MountPaths d)
                end)
             (filter (fun d => negb (String.eqb (Device d) "")) devices)) None
  end.
Proof.
  unfold collectAndSaveSMARTData, smartReportOnAllDevices, report_on, getSmartDevicesWin. cbn [fst].
  by destruct (getSmartDevices _).
Qed.

(** ** Theorems *)

(** C37 *)
(** [copyDir] unpacks the embedded tree: for a tree with plain names,
    distinct within each directory (as [embed.FS] has), when every
    [os.MkdirAll], [os.Create] and [io.Copy] succeeds, it returns no error
    and every file of the tree is on disk with its whole contents at its
    path under the destination; whatever fails, no file or directory
    outside the destination is touched; and the first operation that
    fails makes [copyDir] return an error. *)
Theorem copyDir_unpacks mk cr cp entries dstDir d :
  (Forall (fun o => op_ok mk cr cp o = true) (plan entries dstDir) -> tree_wf entries = true ->
   snd (copyDir mk cr cp entries dstDir d) = None /\
   forall p data, (p, data) ∈ tree_files entries dstDir ->
     d_files (fst (copyDir mk cr cp entries dstDir d)) !! p = Some (Complete data)) /\
  (forall p, ~ under dstDir p ->
     d_files (fst (copyDir mk cr cp entries dstDir d)) !! p = d_files d !! p /\
     (p ∈ d_dirs (fst (copyDir mk cr cp entries dstDir d)) <-> p ∈ d_dirs d)) /\
  (forall k o, plan entries dstDir !! k = Some o -> op_ok mk cr cp o = false ->
     Forall (fun o' => op_ok mk cr cp o' = true) (take k (plan entries dstDir)) ->
     snd (copyDir mk cr cp entries dstDir d) <> None).
Proof.
  split; [|split].
  - intros Hok Hwf. destruct (copyDir_complete mk cr cp entries dstDir d Hok (tree_wf_NoDup _ _ Hwf)) as [E Hf].
    split; [by rewrite E|exact Hf].
  - intros p Hp. exact (copyDir_confined _ _ _ _ _ _ _ Hp).
  - intros k o Hk Ho Hpre. exact (proj2 (copyDir_first_error _ _ _ _ _ _ _ _ Hk Ho Hpre)).
Qed.

(** C38 *)
(** How the Windows service starts: once the event log, the unpacking of
    [smartmontools] and the executable path are in place, without
    [settings.ini] the service exits on the empty schedule string; with a
    [Config] section whose [cron] key parses, it runs with the section's
    [hostname], [apiUrl], [token] and [cron] (an absent key gives the empty
    string, also for [hostname], which replaces [os.Hostname()]); and every
    embedded file is unpacked under [%PROGRAMDATA%\SMARTDataCollector]. *)
Theorem win_main_settings mk cr cp env smt d ws :
  env_is_service env = Some ws -> (ws = true -> env_eventlog_ok env = true) -> env_exe_dir env <> None ->
  Forall (fun o => op_ok mk cr cp o = true) (plan smt (program_dir (env_programdata env))) ->
  (env_settings env = NoSettings ->
     snd (win_main mk cr cp env smt d) = Fatal (FatalCron (InvalidCronString "" 1))) /\
  (forall keys sch, env_settings env = ConfigSection keys ->
     NewCronScheduleFromString (ini_key keys "cron") = inr sch ->
     snd (win_main mk cr cp env smt d) =
       Run ws (mkSmartService (ini_key keys "hostname") (ini_key keys "apiUrl") (ini_key keys "token")
                 (ini_key keys "cron") sch (program_dir (env_programdata env)))) /\
  (tree_wf smt = true ->
   forall p data, (p, data) ∈ tree_files smt (program_dir (env_programdata env)) ->
     d_files (fst (win_main mk cr cp env smt d)) !! p = Some (Complete data)).
Proof.
  intros Hws Hel Hexe Hok. destruct (win_main_success mk cr cp env smt d ws Hws Hel Hexe Hok) as [Hd Ho].
  split; [|split].
  - intros Hs. rewrite Ho, Hs. reflexivity.
  - intros keys sch Hs Hc. rewrite Ho, Hs. simpl. by rewrite Hc.
  - intros Hwf p data Hin. pose proof (tree_wf_NoDup _ (program_dir (env_programdata env)) Hwf) as Hnd.
    rewrite Hd. rewrite <- copies_plan in Hnd, Hin. by apply foldl_apply_copy.
Qed.

(** ** Witnesses *)

Definition sample_smt : list entry :=
  [EFile "smartctl.exe" "MZ"; EDir "drivedb" [EFile "drivedb.h" "db"]].

Definition sample_dir : string := "C:\ProgramData\SMARTDataCollector".

Definition empty_disk : disk := mkDisk ∅ ∅.

Lemma copyDir_unpacks_witness :
  d_files (fst (copyDir (fun _ => true) (fun _ => true) (fun _ => true) sample_smt sample_dir empty_disk))
    !! "C:\ProgramData\SMARTDataCollector\drivedb\drivedb.h" = Some (Complete "db").
Proof.
  apply (proj2 (proj1 (copyDir_unpacks (fun _ => true) (fun _ => true) (fun _ => true) sample_smt sample_dir empty_disk)
    ltac:(vm_compute; repeat constructor) ltac:(vm_compute; reflexivity))).
  vm_compute. repeat constructor.
Defined.

Definition sample_keys : gmap string string :=
  <["cron" := "0 12 * * *"]> (<["apiUrl" := "http://collector:8000/smart/report"]> (<["token" := "secret"]> ∅)).

Definition sample_env : win_env :=
  mkWinEnv (Some true) true "C:\ProgramData" "pc1" (Some "C:\Program Files\SMART") (ConfigSection sample_keys).

Definition noon_schedule : CronSchedule :=
  match NewCronScheduleFromString "0 12 * * *" with inr s => s | inl _ => mkCronSchedule [] [] [] [] [] end.

Lemma win_main_settings_witness :
  snd (win_main (fun _ => true) (fun _ => true) (fun _ => true) sample_env sample_smt empty_disk) =
    Run true (mkSmartService "" "http://collector:8000/smart/report" "secret" "0 12 * * *" noon_schedule sample_dir).
Proof.
  apply (proj1 (proj2 (win_main_settings (fun _ => true) (fun _ => true) (fun _ => true) sample_env sample_smt
    empty_disk true eq_refl (fun _ => eq_refl) ltac:(discriminate) ltac:(vm_compute; repeat constructor)))
    sample_keys noon_schedule eq_refl).
  vm_compute. reflexivity.
Defined.

(** The service of [sample_env] (no [hostname] key) on a machine whose
    [smartctl --scan-open] fails, uploading to a collector that decodes
    the body to a report without host name. *)
Lemma service_without_hostname_witness :
  let sms := mkSmartService "" "http://collector:8000/smart/report" "secret" "0 12 * * *" noon_schedule sample_dir in
  let machine := fun _ : command => CmdErr "exit status 1" "" in
  let unmarshal := fun _ : string => Some (mkWireReport "" "windows" 1 [] "") in
  Disk.Hostname (fst (collectAndSaveSMARTData machine (fun _ => Some "{}") (fun _ => Some "/smart/report")
                        (collector unmarshal "secret") sms 1)) = "" /\
  snd (collectAndSaveSMARTData machine (fun _ => Some "{}") (fun _ => Some "/smart/report")
         (collector unmarshal "secret") sms 1) <> None.
Proof.
  intros sms machine unmarshal.
  apply (service_without_hostname (fun _ => true) (fun _ => true) (fun _ => true) sample_env sample_smt empty_disk
    true sms sample_keys machine (fun _ => Some "{}") (fun _ => Some "/smart/report") unmarshal "secret" 1 "{}"
    (mkWireReport "" "windows" 1 [] "")); [vm_compute; reflexivity|reflexivity|vm_compute; reflexivity|..];
    vm_compute; reflexivity.
Defined.
