(* ===== verification/Tgsmctl.v ===== *)
(** * Tgsmctl: start-up of the agent and collector process

    [cmd/tgsmctl/main.go] ([main]) reads its configuration from the
    environment, decides from [MODE] whether it is an agent, a collector
    or both, and starts the workers: [workerSendReports] for the agent;
    [TgSendWorker], the HTTP server's shutdown goroutine and
    [workerRecvReports] for the collector.  A schedule the parser rejects
    or a Telegram bot that cannot be created ends the process with
    [log.Fatal].  The environment is a function from names to values
    ([os.Getenv] gives [""] for a missing variable); the bot's creation is
    an input.  The result names the workers started with the arguments
    they receive, and the token the HTTP server checks. *)

From S2P Require Import Prelude GoStrings Schedule CronParse Agent.

(** The goroutines [main] starts, with their arguments. *)
Inductive worker :=
| SendWorker (apiUrl token hostname : string) (sched : CronSchedule)
    (** [go workerSendReports(ctx, wg, apiUrl, token, hostname, sched)] *)
| TgWorker (chatID : string)
    (** [go api.TgSendWorker(ctx, b, telegramChatID, chTgMsg, wg)] *)
| ShutdownWorker
    (** [go func() { <-ctx.Done(); srv.Shutdown(...) }()] *)
| RecvWorker (hostname : string).
    (** [go workerRecvReports(ctx, wg, hostname, chTgMsg, chReps, llmDescriber)] *)

(** The two [log.Fatal] calls. *)
Inductive tgsmctl_error := ErrSchedule (e : schedule_error) | ErrBot.

(** How [main] goes on: it exits, or it waits for the signal with the
    workers started and, in collector mode, the HTTP server
    ([api.NewHttpServer(token, chReps)]) checking [http_token]. *)
Inductive tgsmctl_outcome :=
| Exit (e : tgsmctl_error)
| Serve (http_token : option string) (workers : list worker).

(** [main]: [getenv] is [os.Getenv], [bot_ok] whether [tele.NewBot]
    succeeds. *)
Definition tgsmctl_main (getenv : string -> string) (bot_ok : bool) : tgsmctl_outcome :=
  let modes := getenv "MODE" in
  let telegramChatID := getenv "TELEGRAM_CHAT_ID" in
  let token := getenv "HTTP_AUTH_TOKEN" in
  let hostname := getenv "SMART_HOSTNAME" in
  let apiUrl := getenv "COLLECTOR_URL" in
  let cronSched := agent_cron (getenv "CRON_SCHEDULE") in
  let isAgent := has_mode modes "agent" in
  let isServer := has_mode modes "server" in
  let agent_workers :=
    if isAgent then
      match NewCronScheduleFromString cronSched with
      | inl e => inl (ErrSchedule e)
      | inr sched => inr [SendWorker apiUrl token hostname sched]
      end
    else inr [] in
  match agent_workers with
  | inl e => Exit e
  | inr ws =>
      if isServer then
        if bot_ok then Serve (Some token) (ws ++ [TgWorker telegramChatID; ShutdownWorker; RecvWorker hostname])
        else Exit ErrBot
      else Serve None ws
  end.

(** ** Theorems *)

(** A [MODE] naming neither mode, or no [MODE] at all, starts no worker
    and no HTTP server: the process only waits for its signal. *)
Lemma tgsmctl_idle getenv b :
  has_mode (getenv "MODE") "agent" = false -> has_mode (getenv "MODE") "server" = false ->
  tgsmctl_main getenv b = Serve None [].
Proof. intros Ha Hs. unfold tgsmctl_main. by rewrite Ha, Hs. Qed.

(** In agent mode the process either exits on the schedule error or
    starts [workerSendReports] with the parsed schedule, first among its
    workers. *)
Lemma tgsmctl_agent getenv b :
  has_mode (getenv "MODE") "agent" = true ->
  match NewCronScheduleFromString (agent_cron (getenv "CRON_SCHEDULE")) with
  | inl e => tgsmctl_main getenv b = Exit (ErrSchedule e)
  | inr sched => tgsmctl_main getenv b = Exit ErrBot \/ exists tok ws,
      tgsmctl_main getenv b =
        Serve tok (SendWorker (getenv "COLLECTOR_URL") (getenv "HTTP_AUTH_TOKEN") (getenv "SMART_HOSTNAME") sched :: ws)
  end.
Proof.
  intros Ha. unfold tgsmctl_main. rewrite Ha.
  destruct (NewCronScheduleFromString _) as [e|sched]; [reflexivity|].
  destruct (has_mode _ "server"), b; [right|left|right|right]; eauto.
Qed.

(** A process that is both agent and collector uploads with the token its
    own HTTP server checks, and names the same host to both workers. *)
Lemma tgsmctl_shared_config getenv b t ws a tok h s :
  tgsmctl_main getenv b = Serve (Some t) ws -> SendWorker a tok h s ∈ ws ->
  tok = t /\ t = getenv "HTTP_AUTH_TOKEN" /\ RecvWorker h ∈ ws.
Proof.
  unfold tgsmctl_main. destruct (has_mode _ "agent").
  - destruct (NewCronScheduleFromString _) as [e|sched]; [discriminate|].
    destruct (has_mode _ "server"), b; try discriminate. intros [= <- <-] Hin.
    apply elem_of_cons in Hin as [[= -> -> -> ->]|Hin];
      [split; [done|]; split; [done|]; set_solver|set_solver].
  - destruct (has_mode _ "server"), b; try discriminate. intros [= <- <-] Hin. set_solver.
Qed.

(** In collector mode a bot that cannot be created ends the process. *)
Lemma tgsmctl_bot_fails getenv :
  has_mode (getenv "MODE") "server" = true ->
  exists e, tgsmctl_main getenv false = Exit e.
Proof.
  intros Hs. unfold tgsmctl_main. rewrite Hs.
  destruct (has_mode _ "agent"); [destruct (NewCronScheduleFromString _)|]; eauto.
Qed.

(** [MODE] is matched without regard to case or surrounding spaces; an
    unset [MODE] or a misspelt one starts nothing. *)
Example tgsmctl_modes :
  has_mode " Agent , SERVER" "agent" = true /\ has_mode " Agent , SERVER" "server" = true /\
  tgsmctl_main (fun _ => "") true = Serve None [] /\
  tgsmctl_main (fun v => if String.eqb v "MODE" then "agents" else "") true = Serve None [].
Proof. vm_compute. repeat split. Qed.
